(** * A debugging memory allocator (m61): shallow embedding and verification

    The allocator keeps one arena ([default_buffer]), a doubly linked list of
    block headers threaded through the arena ([head], [p_next], [p_prev]) and
    a record of statistics ([gstats]).  The embedding follows the C++ source
    function by function.

    Memory is split into two stores that are both indexed by address:
    [hdrs] gives the [header] record found at an address, [mem] gives the
    byte found at an address (payload bytes and the trailing end marker).
    Reading a header where the allocator never wrote one yields whatever
    [hdrs] holds there; a fresh arena holds zeroes everywhere.

    Integers of type [size_t], [uintptr_t] and [unsigned long long] are [Z]
    with the wrap-around modulo 2^64 written out ([wrap]).  Pointers are
    addresses in [Z], the null pointer is [0], and pointer arithmetic inside
    the arena is plain addition. *)

From Stdlib Require Import ZArith Lia List Bool String.
Import ListNotations.
Local Open Scope Z_scope.

(** ** Machine integers and platform constants *)

Definition SIZE_MAX : Z := 2 ^ 64 - 1.

Definition wrap (z : Z) : Z := z mod 2 ^ 64.

Definition NULL : Z := 0.

(** The tag [FREE], the address constant 0xCAFEFEED stored in [p_status]. *)
Definition FREE : Z := 0xcafefeed.

(** The tag [ALLOCATED], the address constant 0xDEADF00D stored in [p_status]. *)
Definition ALLOCATED : Z := 0xdeadf00d.

(** [constexpr char END_MARKER[8]] *)
Definition END_MARKER : list Z := [0x44; 0x45; 0x41; 0x44; 0x43; 0x30; 0x44; 0x45].

Definition sizeof_END_MARKER : Z := 8.

(** [alignof(std::max_align_t)] on the 64-bit platforms the allocator targets. *)
Definition ALIGNMENT : Z := 16.

(** [sizeof(header)].  The declaration of [header] lives in [m61.hh]; the
    project notes list its members ([block_size], [p_payload],
    [p_end_marker], [p_status], [p_file], [line], [p_next], [p_prev]): seven
    8-byte members and one [int] padded to 8 bytes under the LP64 layout. *)
Definition sizeof_header : Z := 64.

Definition MIN_BLOCK_SIZE : Z := sizeof_header + ALIGNMENT.

(** ** Data model *)

Record header : Type := mkHeader {
  block_size : Z;
  p_payload : Z;
  p_end_marker : Z;
  p_status : Z;
  p_file : string;
  line : Z;
  p_next : Z;
  p_prev : Z
}.

Definition zero_header : header := mkHeader 0 0 0 0 EmptyString 0 0 0.

Definition set_block_size (v : Z) (h : header) : header :=
  mkHeader v (p_payload h) (p_end_marker h) (p_status h) (p_file h) (line h) (p_next h) (p_prev h).
Definition set_p_payload (v : Z) (h : header) : header :=
  mkHeader (block_size h) v (p_end_marker h) (p_status h) (p_file h) (line h) (p_next h) (p_prev h).
Definition set_p_end_marker (v : Z) (h : header) : header :=
  mkHeader (block_size h) (p_payload h) v (p_status h) (p_file h) (line h) (p_next h) (p_prev h).
Definition set_p_status (v : Z) (h : header) : header :=
  mkHeader (block_size h) (p_payload h) (p_end_marker h) v (p_file h) (line h) (p_next h) (p_prev h).
Definition set_p_file (v : string) (h : header) : header :=
  mkHeader (block_size h) (p_payload h) (p_end_marker h) (p_status h) v (line h) (p_next h) (p_prev h).
Definition set_line (v : Z) (h : header) : header :=
  mkHeader (block_size h) (p_payload h) (p_end_marker h) (p_status h) (p_file h) v (p_next h) (p_prev h).
Definition set_p_next (v : Z) (h : header) : header :=
  mkHeader (block_size h) (p_payload h) (p_end_marker h) (p_status h) (p_file h) (line h) v (p_prev h).
Definition set_p_prev (v : Z) (h : header) : header :=
  mkHeader (block_size h) (p_payload h) (p_end_marker h) (p_status h) (p_file h) (line h) (p_next h) v.

Record m61_memory_buffer : Type := mkBuffer {
  buffer : Z;
  pos : Z;
  size : Z
}.

Record m61_statistics : Type := mkStats {
  nactive : Z;
  active_size : Z;
  ntotal : Z;
  total_size : Z;
  nfail : Z;
  fail_size : Z;
  heap_min : Z;
  heap_max : Z
}.

(** Lines written to the error stream. *)
Inductive diagnostic : Type :=
| InvalidFreeNotInHeap (file : string) (ln : Z) (ptr : Z)
| InvalidFreeNotAllocated (file : string) (ln : Z) (ptr : Z)
| InvalidFreeDoubleFree (file : string) (ln : Z) (ptr : Z)
| WildWrite (file : string) (ln : Z) (ptr : Z)
| InsideAllocRegion (file : string) (ln : Z) (ptr : Z) (offset : Z) (payload_size : Z)
| AssertionFailed (expr : string).

Record state : Type := mkState {
  hdrs : Z -> header;
  mem : Z -> Z;
  head : Z;
  default_buffer : m61_memory_buffer;
  gstats : m61_statistics;
  stderr : list diagnostic
}.

(** Store update at one address. *)
Definition upd {A : Type} (f : Z -> A) (a : Z) (v : A) : Z -> A :=
  fun x => if x =? a then v else f x.

(** Update of the header found at one address: [p->field = v] changes one
    member of the record at [p] and keeps the others. *)
Definition upd_hdr (hs : Z -> header) (a : Z) (f : header -> header) : Z -> header :=
  fun x => if x =? a then f (hs x) else hs x.

Definition with_hdrs (hs : Z -> header) (s : state) : state :=
  mkState hs (mem s) (head s) (default_buffer s) (gstats s) (stderr s).
Definition with_mem (m : Z -> Z) (s : state) : state :=
  mkState (hdrs s) m (head s) (default_buffer s) (gstats s) (stderr s).
Definition with_head (p : Z) (s : state) : state :=
  mkState (hdrs s) (mem s) p (default_buffer s) (gstats s) (stderr s).
Definition with_buffer (b : m61_memory_buffer) (s : state) : state :=
  mkState (hdrs s) (mem s) (head s) b (gstats s) (stderr s).
Definition with_gstats (g : m61_statistics) (s : state) : state :=
  mkState (hdrs s) (mem s) (head s) (default_buffer s) g (stderr s).
Definition with_stderr (e : list diagnostic) (s : state) : state :=
  mkState (hdrs s) (mem s) (head s) (default_buffer s) (gstats s) e.

(** The state at program start: [mmap] returned the zero-filled region at
    address [buf], the list is empty and the statistics are zero. *)
Definition init_state (buf : Z) : state :=
  mkState (fun _ => zero_header) (fun _ => 0) NULL
          (mkBuffer buf 0 (Z.shiftl 8 20))
          (mkStats 0 0 0 0 0 0 0 0) [].

(** ** The monad of allocator operations

    An operation either returns a value and a new state, aborts the process
    (the state records what was printed before), or exhausts the fuel given
    to one of its loops. *)

Inductive outcome (A : Type) : Type :=
| Ret (a : A) (s : state)
| Abort (s : state)
| OutOfFuel.
Arguments Ret {A} a s.
Arguments Abort {A} s.
Arguments OutOfFuel {A}.

Definition M (A : Type) : Type := state -> outcome A.

Definition ret {A : Type} (a : A) : M A := fun s => Ret a s.

Definition bind {A B : Type} (m : M A) (k : A -> M B) : M B :=
  fun s => match m s with
           | Ret a s' => k a s'
           | Abort s' => Abort s'
           | OutOfFuel => OutOfFuel
           end.

Declare Scope m61_scope.
Delimit Scope m61_scope with m61.
Notation "x <- m ;; k" := (bind m (fun x => k))
  (at level 61, m at next level, right associativity) : m61_scope.
Notation "m ;;; k" := (bind m (fun _ => k))
  (at level 61, right associativity) : m61_scope.
Local Open Scope m61_scope.

Definition get_state : M state := fun s => Ret s s.
Definition modify (f : state -> state) : M unit := fun s => Ret tt (f s).
Definition abort {A : Type} : M A := fun s => Abort s.
Definition out_of_fuel {A : Type} : M A := fun _ => OutOfFuel.

Definition eprint (d : diagnostic) : M unit :=
  modify (fun s => with_stderr (stderr s ++ [d]) s).

(** [assert(b)]: a failed assertion prints and aborts. *)
Definition assert_ (b : bool) (expr : string) : M unit :=
  if b then ret tt else (eprint (AssertionFailed expr) ;;; abort).

Definition load (a : Z) : M header := fun s => Ret (hdrs s a) s.

Definition store_field (a : Z) (f : header -> header) : M unit :=
  modify (fun s => with_hdrs (upd_hdr (hdrs s) a f) s).

Definition get_head : M Z := fun s => Ret (head s) s.
Definition set_head (p : Z) : M unit := modify (with_head p).

Definition when_ (b : bool) (m : M unit) : M unit := if b then m else ret tt.

(** ** Linked list of blocks *)

Definition add_block (p_header : Z) : M unit :=
  hd <- get_head ;;
  store_field p_header (set_p_next hd) ;;;
  store_field p_header (set_p_prev NULL) ;;;
  hd' <- get_head ;;
  when_ (negb (hd' =? NULL)) (store_field hd' (set_p_prev p_header)) ;;;
  set_head p_header.

Definition remove_block (p_header : Z) : M unit :=
  hd <- get_head ;;
  if (hd =? NULL) || (p_header =? NULL) then ret tt
  else
    h <- load p_header ;;
    let p_header_next := p_next h in
    let p_header_prev := p_prev h in
    when_ (p_header =? hd) (set_head p_header_next) ;;;
    when_ (negb (p_header_next =? NULL))
      (hn <- load p_header_next ;;
       assert_ (p_prev hn =? p_header) "p_header_next->p_prev == p_header" ;;;
       store_field p_header_next (set_p_prev p_header_prev)) ;;;
    when_ (negb (p_header_prev =? NULL))
      (hp <- load p_header_prev ;;
       assert_ (p_next hp =? p_header) "p_header_prev->p_next == p_header" ;;;
       store_field p_header_prev (set_p_next p_header_next)).

Definition insert_before_block (p_header_new p_header_next : Z) : M unit :=
  store_field p_header_new (set_p_next p_header_next) ;;;
  hn <- load p_header_next ;;
  store_field p_header_new (set_p_prev (p_prev hn)) ;;;
  hn' <- load p_header_next ;;
  when_ (negb (p_prev hn' =? NULL))
    (store_field (p_prev hn') (set_p_next p_header_new)) ;;;
  store_field p_header_next (set_p_prev p_header_new).

(** ** End marker *)

Fixpoint write_marker (m : Z -> Z) (ptr : Z) (mk : list Z) : Z -> Z :=
  match mk with
  | [] => m
  | marker :: mk' => write_marker (upd m ptr marker) (ptr + 1) mk'
  end.

Definition add_end_marker (ptr : Z) : M unit :=
  modify (fun s => with_mem (write_marker (mem s) ptr END_MARKER) s).

Fixpoint check_marker (m : Z -> Z) (ptr : Z) (mk : list Z) : bool :=
  match mk with
  | [] => true
  | marker :: mk' =>
      if negb (m ptr =? marker) then false else check_marker m (ptr + 1) mk'
  end.

Definition is_end_marker_valid (ptr : Z) : M bool :=
  fun s => Ret (check_marker (mem s) ptr END_MARKER) s.

(** ** Header checks *)

Definition is_header_valid (p_header : Z) (p_payload_arg : Z) : M bool :=
  if negb (p_header mod ALIGNMENT =? 0) then ret false
  else
    h <- load p_header ;;
    if negb (p_payload h =? NULL) && negb (p_payload h =? p_payload_arg)
    then ret false
    else ret true.

Definition is_block_free (p_header : Z) : M bool :=
  if p_header =? NULL then ret false
  else h <- load p_header ;; ret (p_status h =? FREE).

Definition is_overflowing (a b : Z) : bool :=
  if (a =? 0) || (b =? 0) then false
  else
    let c := wrap (a * b) in
    negb (a =? c / b) || negb (c mod b =? 0).

Definition payload_size_of (h : header) : Z :=
  wrap (p_end_marker h - p_payload h).

Definition get_payload_size (p_header : Z) : M Z :=
  h <- load p_header ;; ret (payload_size_of h).

(** ** Statistics *)

Definition add_to_statistics (sz : Z) (ptr : Z) : M unit :=
  modify (fun s =>
    let g := gstats s in
    let hmin := if (heap_min g =? 0) || (ptr <? heap_min g) then ptr else heap_min g in
    let hmax := if (heap_max g =? 0) || (heap_max g <? wrap (ptr + sz))
                then wrap (ptr + sz) else heap_max g in
    with_gstats (mkStats (wrap (nactive g + 1)) (wrap (active_size g + sz))
                         (wrap (ntotal g + 1)) (wrap (total_size g + sz))
                         (nfail g) (fail_size g) hmin hmax) s).

Definition remove_from_statistics (sz : Z) : M unit :=
  modify (fun s =>
    let g := gstats s in
    with_gstats (mkStats (wrap (nactive g - 1)) (wrap (active_size g - sz))
                         (ntotal g) (total_size g)
                         (nfail g) (fail_size g) (heap_min g) (heap_max g)) s).

Definition update_statistics_for_failure (sz : Z) : M unit :=
  modify (fun s =>
    let g := gstats s in
    with_gstats (mkStats (nactive g) (active_size g) (ntotal g) (total_size g)
                         (wrap (nfail g + 1)) (wrap (fail_size g + sz))
                         (heap_min g) (heap_max g)) s).

Definition m61_get_statistics : M m61_statistics := fun s => Ret (gstats s) s.

(** ** Coalescing and the arena frontier *)

Definition can_coalesce_up (p_header : Z) : M bool :=
  h <- load p_header ;;
  fr <- is_block_free (p_prev h) ;;
  if negb fr then ret false
  else
    hp <- load (p_prev h) ;;
    assert_ (p_next hp =? p_header) "p_header->p_prev->p_next == p_header" ;;;
    ret true.

Definition can_coalesce_down (p_header : Z) : M bool :=
  h <- load p_header ;;
  fr <- is_block_free (p_next h) ;;
  if negb fr then ret false
  else
    hn <- load (p_next h) ;;
    assert_ (p_prev hn =? p_header) "p_header->p_next->p_prev == p_header" ;;;
    ret true.

Definition coalesce (p_header : Z) : M unit :=
  up <- can_coalesce_up p_header ;;
  when_ up
    (h <- load p_header ;;
     hp <- load (p_prev h) ;;
     store_field p_header (set_block_size (wrap (block_size h + block_size hp))) ;;;
     h' <- load p_header ;;
     remove_block (p_prev h')) ;;;
  down <- can_coalesce_down p_header ;;
  when_ down
    (h <- load p_header ;;
     hn <- load (p_next h) ;;
     store_field (p_next h) (set_block_size (wrap (block_size hn + block_size h))) ;;;
     remove_block p_header).

Definition set_pos (v : Z) : M unit :=
  modify (fun s =>
    let b := default_buffer s in with_buffer (mkBuffer (buffer b) v (size b)) s).

Definition move_buffer_pos : M unit :=
  hd <- get_head ;;
  if hd =? NULL then ret tt
  else
    h <- load hd ;;
    if p_status h =? ALLOCATED then ret tt
    else
      s <- get_state ;;
      set_pos (wrap (pos (default_buffer s) - block_size h)) ;;;
      hd' <- get_head ;;
      remove_block hd'.

(** ** Diagnosing a pointer inside an allocated block

    The loop of [report_ptr_inside_alloc_block]; one unit of fuel per
    iteration.  On a block whose status is not [ALLOCATED] the source
    executes [continue], which re-enters the loop with the same
    [p_header]. *)
Fixpoint report_ptr_inside_alloc_block_loop (fuel : nat) (p_header : Z) (ptr : Z) : M unit :=
  match fuel with
  | O => out_of_fuel
  | S fuel' =>
      if p_header =? NULL then ret tt
      else
        h <- load p_header ;;
        if negb (p_status h =? ALLOCATED)
        then report_ptr_inside_alloc_block_loop fuel' p_header ptr
        else
          let payload_addr := p_payload h in
          let end_marker_addr := p_end_marker h in
          if (payload_addr <=? ptr) && (ptr <? end_marker_addr) then
            let offset := wrap (ptr - payload_addr) in
            payload_size <- get_payload_size p_header ;;
            eprint (InsideAllocRegion (p_file h) (line h) ptr offset payload_size)
          else report_ptr_inside_alloc_block_loop fuel' (p_next h) ptr
  end.

Definition report_ptr_inside_alloc_block (fuel : nat) (ptr : Z) : M unit :=
  hd <- get_head ;;
  report_ptr_inside_alloc_block_loop fuel hd ptr.

(** ** Creating blocks *)

Definition generate_generic_block (ptr : Z) (bsz : Z) (file : string) (ln : Z) : M Z :=
  let p_header := ptr in
  store_field p_header (set_block_size bsz) ;;;
  store_field p_header (set_p_payload (p_header + sizeof_header)) ;;;
  store_field p_header (set_p_file file) ;;;
  store_field p_header (set_line ln) ;;;
  ret p_header.

Definition generate_alloc_block (ptr : Z) (bsz : Z) (payload_size : Z)
    (file : string) (ln : Z) : M Z :=
  p_header <- generate_generic_block ptr bsz file ln ;;
  store_field p_header (set_p_status ALLOCATED) ;;;
  h <- load p_header ;;
  store_field p_header (set_p_end_marker (p_payload h + payload_size)) ;;;
  h' <- load p_header ;;
  add_end_marker (p_end_marker h') ;;;
  ret p_header.

Definition generate_free_block (ptr : Z) (bsz : Z) (file : string) (ln : Z) : M Z :=
  p_header <- generate_generic_block ptr bsz file ln ;;
  store_field p_header (set_p_status FREE) ;;;
  store_field p_header (set_p_end_marker NULL) ;;;
  ret p_header.

Definition split_block (p_header : Z) (required_size : Z) : M unit :=
  h <- load p_header ;;
  let residual_size := wrap (block_size h - required_size) in
  if residual_size <? MIN_BLOCK_SIZE then ret tt
  else
    let ptr := p_header + required_size in
    p_header_new <- generate_free_block ptr residual_size (p_file h) (line h) ;;
    insert_before_block p_header_new p_header ;;;
    store_field p_header (set_block_size required_size).

(** The loop of [find_freed_block]; one unit of fuel per iteration. *)
Fixpoint find_freed_block_loop (fuel : nat) (p_header : Z) (required_size payload_size : Z)
    (file : string) (ln : Z) : M Z :=
  match fuel with
  | O => out_of_fuel
  | S fuel' =>
      if p_header =? NULL then ret NULL
      else
        h <- load p_header ;;
        if (p_status h =? FREE) && (required_size <=? block_size h) then
          p_header' <- generate_alloc_block p_header (block_size h) payload_size file ln ;;
          split_block p_header' required_size ;;;
          h' <- load p_header' ;;
          ret (p_payload h')
        else find_freed_block_loop fuel' (p_next h) required_size payload_size file ln
  end.

Definition find_freed_block (fuel : nat) (required_size payload_size : Z)
    (file : string) (ln : Z) : M Z :=
  hd <- get_head ;;
  find_freed_block_loop fuel hd required_size payload_size file ln.

Definition find_free_space (fuel : nat) (bsz payload_size : Z) (file : string) (ln : Z) : M Z :=
  s <- get_state ;;
  let b := default_buffer s in
  if bsz <=? wrap (size b - pos b) then
    let ptr := buffer b + pos b in
    p_header <- generate_alloc_block ptr bsz payload_size file ln ;;
    add_block p_header ;;;
    s' <- get_state ;;
    set_pos (wrap (pos (default_buffer s') + bsz)) ;;;
    h <- load p_header ;;
    ret (p_payload h)
  else find_freed_block fuel bsz payload_size file ln.

(** ** The four entry points *)

(** The padding that [m61_malloc] computes for a request of [sz] bytes. *)
Definition padding_for (sz : Z) : Z :=
  let padding := ALIGNMENT - (wrap (sizeof_header + sz) mod ALIGNMENT) in
  if padding <? sizeof_END_MARKER then wrap (padding + ALIGNMENT) else padding.

(** The overflow test of [m61_malloc]. *)
Definition size_overflows (sz : Z) : bool :=
  wrap (wrap (SIZE_MAX - padding_for sz) - sizeof_header) <? sz.

(** The block size that [m61_malloc] computes once the overflow test passed. *)
Definition block_size_for (sz : Z) : Z :=
  wrap (wrap (sizeof_header + sz) + padding_for sz).

Definition m61_malloc (fuel : nat) (sz : Z) (file : string) (ln : Z) : M Z :=
  if size_overflows sz then
    update_statistics_for_failure sz ;;; ret NULL
  else
    let bsz := block_size_for sz in
    p_payload <- find_free_space fuel bsz sz file ln ;;
    if p_payload =? NULL then
      update_statistics_for_failure sz ;;; ret NULL
    else
      add_to_statistics sz p_payload ;;; ret p_payload.

Definition m61_free (fuel : nat) (ptr : Z) (file : string) (ln : Z) : M unit :=
  if ptr =? NULL then ret tt
  else
    s <- get_state ;;
    if (ptr <? heap_min (gstats s)) || (heap_max (gstats s) <? ptr) then
      eprint (InvalidFreeNotInHeap file ln ptr) ;;; abort
    else
      let p_header := ptr - sizeof_header in
      valid <- is_header_valid p_header ptr ;;
      if negb valid then
        eprint (InvalidFreeNotAllocated file ln ptr) ;;; abort
      else
        h <- load p_header ;;
        if negb (p_status h =? ALLOCATED) then
          (if p_status h =? FREE
           then eprint (InvalidFreeDoubleFree file ln ptr)
           else eprint (InvalidFreeNotAllocated file ln ptr) ;;;
                report_ptr_inside_alloc_block fuel ptr) ;;;
          abort
        else
          ok <- is_end_marker_valid (p_end_marker h) ;;
          if negb ok then
            eprint (WildWrite file ln ptr) ;;; abort
          else
            payload_size <- get_payload_size p_header ;;
            remove_from_statistics payload_size ;;;
            h' <- load p_header ;;
            p_header' <- generate_free_block p_header (block_size h') file ln ;;
            coalesce p_header' ;;;
            move_buffer_pos.

Definition memset (ptr : Z) (c : Z) (n : Z) : M unit :=
  modify (fun s =>
    with_mem (fun x => if (ptr <=? x) && (x <? ptr + n) then c else mem s x) s).

Definition memcpy (dst src : Z) (n : Z) : M unit :=
  modify (fun s =>
    with_mem (fun x => if (dst <=? x) && (x <? dst + n)
                       then mem s (src + (x - dst)) else mem s x) s).

Definition m61_calloc (fuel : nat) (count sz : Z) (file : string) (ln : Z) : M Z :=
  if is_overflowing count sz then
    modify (fun s =>
      let g := gstats s in
      with_gstats (mkStats (nactive g) (active_size g) (ntotal g) (total_size g)
                           (wrap (nfail g + 1)) (wrap (fail_size g + sz))
                           (heap_min g) (heap_max g)) s) ;;;
    ret NULL
  else
    ptr <- m61_malloc fuel (wrap (count * sz)) file ln ;;
    when_ (negb (ptr =? NULL)) (memset ptr 0 (wrap (count * sz))) ;;;
    ret ptr.

(** The number of bytes that [m61_realloc] passes to [memcpy]: it compares
    [sz] with the payload size read through the header in front of
    [new_ptr]. *)
Definition realloc_copy_size (new_ptr : Z) (sz : Z) : M Z :=
  let p_header := new_ptr - sizeof_header in
  payload_size <- get_payload_size p_header ;;
  if payload_size <? sz then ret payload_size else ret sz.

Definition m61_realloc (fuel : nat) (ptr : Z) (sz : Z) (file : string) (ln : Z) : M Z :=
  if sz =? 0 then ret NULL
  else
    new_ptr <- m61_malloc fuel sz file ln ;;
    if (ptr =? NULL) || (new_ptr =? NULL) then ret new_ptr
    else
      n <- realloc_copy_size new_ptr sz ;;
      memcpy new_ptr ptr n ;;;
      m61_free fuel ptr file ln ;;;
      ret new_ptr.

(** ** Reasoning vocabulary *)

(** [wp m s Q]: running [m] from [s] ends in an outcome that satisfies [Q]. *)
Definition wp {A : Type} (m : M A) (s : state) (Q : outcome A -> Prop) : Prop := Q (m s).

(** The postcondition handed to the first half of a [bind]. *)
Definition wp_k {A B : Type} (k : A -> M B) (Q : outcome B -> Prop) (o : outcome A) : Prop :=
  match o with
  | Ret a s' => wp (k a) s' Q
  | Abort s' => Q (Abort s')
  | OutOfFuel => Q OutOfFuel
  end.

(** The value an operation returned, if it returned. *)
Definition returned {A : Type} (o : outcome A) : option A :=
  match o with Ret a _ => Some a | _ => None end.

(** The state an operation returned in, if it returned. *)
Definition final_state {A : Type} (o : outcome A) : option state :=
  match o with Ret _ s => Some s | _ => None end.

(** A postcondition that only constrains normal returns. *)
Definition returns {A : Type} (R : A -> state -> Prop) (o : outcome A) : Prop :=
  match o with
  | Ret a s' => R a s'
  | _ => True
  end.

(** What the list operations leave alone: the status, payload pointer and
    end-marker pointer of every header, the bytes, the statistics and the
    error stream. *)
Definition tags_frame (s0 s : state) : Prop :=
  (forall x, p_status (hdrs s x) = p_status (hdrs s0 x) /\
             p_payload (hdrs s x) = p_payload (hdrs s0 x) /\
             p_end_marker (hdrs s x) = p_end_marker (hdrs s0 x)) /\
  mem s = mem s0 /\ gstats s = gstats s0 /\ stderr s = stderr s0.

(** The state an operation leaves behind ([s0] when its loops ran out of fuel). *)
Definition state_after {A : Type} (o : outcome A) (s0 : state) : state :=
  match o with
  | Ret _ s => s
  | Abort s => s
  | OutOfFuel => s0
  end.

Definition after {A : Type} (m : M A) (s : state) : state := state_after (m s) s.

(** The effect of a [m61_free] that returned, seen from outside. *)
Definition freed_by (ptr : Z) (s s1 : state) : Prop :=
  let p := ptr - sizeof_header in
  p_status (hdrs s p) = ALLOCATED /\
  p_status (hdrs s1 p) = FREE /\
  p_payload (hdrs s1 p) = ptr /\
  p mod ALIGNMENT = 0 /\
  heap_min (gstats s) <= ptr <= heap_max (gstats s) /\
  mem s1 = mem s /\
  stderr s1 = stderr s /\
  gstats s1 =
    (let g := gstats s in
     mkStats (wrap (nactive g - 1)) (wrap (active_size g - payload_size_of (hdrs s p)))
             (ntotal g) (total_size g) (nfail g) (fail_size g) (heap_min g) (heap_max g)).

Definition same_stats (s0 s : state) : Prop :=
  gstats s = gstats s0 /\ stderr s = stderr s0.

(** A walk along [p_next] that reaches the end of the list without meeting
    a [FREE] block of at least [required_size] bytes. *)
Inductive no_fit (hs : Z -> header) (required_size : Z) : Z -> Prop :=
| no_fit_end : no_fit hs required_size NULL
| no_fit_skip (p : Z) :
    p <> NULL ->
    (p_status (hs p) =? FREE) && (required_size <=? block_size (hs p)) = false ->
    no_fit hs required_size (p_next (hs p)) ->
    no_fit hs required_size p.

(** Neither the arena frontier nor the block list can serve [sz] bytes. *)
Definition arena_exhausted (s : state) (sz : Z) : Prop :=
  wrap (size (default_buffer s) - pos (default_buffer s)) < block_size_for sz /\
  no_fit (hdrs s) (block_size_for sz) (head s).

(** The state after a failed allocation of [sz] bytes was recorded. *)
Definition record_failure (sz : Z) (s : state) : state :=
  let g := gstats s in
  with_gstats (mkStats (nactive g) (active_size g) (ntotal g) (total_size g)
                       (wrap (nfail g + 1)) (wrap (fail_size g + sz))
                       (heap_min g) (heap_max g)) s.

(** The statistics after a successful allocation of [sz] bytes at [ptr]. *)
Definition record_success (sz ptr : Z) (g : m61_statistics) : m61_statistics :=
  mkStats (wrap (nactive g + 1)) (wrap (active_size g + sz))
          (wrap (ntotal g + 1)) (wrap (total_size g + sz))
          (nfail g) (fail_size g)
          (if (heap_min g =? 0) || (ptr <? heap_min g) then ptr else heap_min g)
          (if (heap_max g =? 0) || (heap_max g <? wrap (ptr + sz))
           then wrap (ptr + sz) else heap_max g).

(** Three blocks of 200 bytes on a fresh arena, the middle one freed: the
    list is C (allocated, head), B (free), A (allocated). *)
Definition three_blocks_middle_freed : state :=
  after (m61_free 1 4432 "test.cc" 8)
    (after (m61_malloc 1 200 "test.cc" 7)
       (after (m61_malloc 1 200 "test.cc" 6)
          (after (m61_malloc 1 200 "test.cc" 5) (init_state 4096)))).

(** One block of 8 bytes on a fresh arena; its payload is at 4160. *)
Definition one_small_block : state :=
  after (m61_malloc 1 8 "test.cc" 5) (init_state 4096).

(** [first_fit hs required_size p q]: walking along [p_next] from [p], the
    first [FREE] block of at least [required_size] bytes is [q]. *)
Inductive first_fit (hs : Z -> header) (required_size : Z) : Z -> Z -> Prop :=
| first_fit_here (p : Z) :
    p <> NULL ->
    p_status (hs p) = FREE ->
    required_size <= block_size (hs p) ->
    first_fit hs required_size p p
| first_fit_skip (p q : Z) :
    p <> NULL ->
    (p_status (hs p) =? FREE) && (required_size <=? block_size (hs p)) = false ->
    first_fit hs required_size (p_next (hs p)) q ->
    first_fit hs required_size p q.
(** A full arena with a large free block: two blocks of 4 MiB each fill the
    arena, then the older one (at 4096) is freed.  The list is B
    (allocated, head, at 4198400), A (free, at 4096). *)
Definition full_arena_big_hole : state :=
  after (m61_free 1 4160 "test.cc" 7)
    (after (m61_malloc 1 4194232 "test.cc" 6)
       (after (m61_malloc 1 4194232 "test.cc" 5) (init_state 4096))).

(** A full arena with a small free block: a block of 176 bytes (at 4096)
    and a block that takes the rest of the arena, then the small one is
    freed. *)
Definition full_arena_small_hole : state :=
  after (m61_free 1 4160 "test.cc" 7)
    (after (m61_malloc 1 8388360 "test.cc" 6)
       (after (m61_malloc 1 100 "test.cc" 5) (init_state 4096))).

(** A header the allocator has written: its status is one of the two tags. *)
Definition tagged (h : header) : Prop :=
  p_status h = FREE \/ p_status h = ALLOCATED.

(** Every written header sits at an aligned address, has an aligned block
    size, and its [p_next] is null or leads to a written header; [ex]
    exempts headers whose [p_next] is still to be set. *)
Definition hdrs_aligned (ex : Z -> Prop) (hs : Z -> header) : Prop :=
  forall a, tagged (hs a) ->
    a mod ALIGNMENT = 0 /\
    block_size (hs a) mod ALIGNMENT = 0 /\
    (ex a \/ p_next (hs a) = NULL \/ tagged (hs (p_next (hs a)))).

Definition no_exemption (a : Z) : Prop := False.

(** The alignment invariant of the allocator state. *)
Definition aligned_heap (s : state) : Prop :=
  buffer (default_buffer s) mod ALIGNMENT = 0 /\
  pos (default_buffer s) mod ALIGNMENT = 0 /\
  (head s = NULL \/ tagged (hdrs s (head s))) /\
  hdrs_aligned no_exemption (hdrs s).

(** The calls a client can make. *)
Inductive api_call : Type :=
| CallMalloc (sz : Z) (file : string) (ln : Z)
| CallFree (ptr : Z) (file : string) (ln : Z)
| CallCalloc (count sz : Z) (file : string) (ln : Z)
| CallRealloc (ptr sz : Z) (file : string) (ln : Z).

(** Sizes are values of [size_t]. *)
Definition well_typed_call (c : api_call) : Prop :=
  match c with
  | CallMalloc sz _ _ => 0 <= sz <= SIZE_MAX
  | CallFree _ _ _ => True
  | CallCalloc count sz _ _ => 0 <= count <= SIZE_MAX /\ 0 <= sz <= SIZE_MAX
  | CallRealloc _ sz _ _ => 0 <= sz <= SIZE_MAX
  end.

(** Running one call; [m61_free] returns nothing, rendered as [NULL]. *)
Definition run_call (fuel : nat) (c : api_call) : M Z :=
  match c with
  | CallMalloc sz file ln => m61_malloc fuel sz file ln
  | CallFree ptr file ln => m61_free fuel ptr file ln ;;; ret NULL
  | CallCalloc count sz file ln => m61_calloc fuel count sz file ln
  | CallRealloc ptr sz file ln => m61_realloc fuel ptr sz file ln
  end.

(** The states a program reaches from the initial state, the arena being at
    address [buf], through calls that return. *)
Inductive reachable (buf : Z) : state -> Prop :=
| reachable_init : reachable buf (init_state buf)
| reachable_step (s : state) (c : api_call) (fuel : nat) (r : Z) (s' : state) :
    reachable buf s -> well_typed_call c -> run_call fuel c s = Ret r s' ->
    reachable buf s'.

(** A block whose payload pointer [m61_free] accepts: allocated, recorded
    payload pointer right behind the header, aligned, inside the heap range
    seen so far, end marker intact. *)
Definition freeable (s : state) (p : Z) : Prop :=
  p_status (hdrs s p) = ALLOCATED /\
  p_payload (hdrs s p) = p + sizeof_header /\
  p mod ALIGNMENT = 0 /\
  heap_min (gstats s) <= p + sizeof_header <= heap_max (gstats s) /\
  check_marker (mem s) (p_end_marker (hdrs s p)) END_MARKER = true.

(** Freeing a list of pointers, one after the other. *)
Fixpoint free_all (fuel : nat) (ptrs : list Z) (file : string) (ln : Z) : M unit :=
  match ptrs with
  | [] => ret tt
  | ptr :: rest => m61_free fuel ptr file ln ;;; free_all fuel rest file ln
  end.

(** Three allocated blocks [a], [b], [c] that lie next to each other in
    memory and in the list, below an allocated newer neighbour [d] and above
    an older neighbour [e] that is absent or allocated; the list head is [d]
    or a block above it, and is allocated. *)
Record three_adjacent (s : state) (a b c d e : Z) : Prop := mkThreeAdjacent {
  ta_a_pos : 0 < a;
  ta_size_a : 0 < block_size (hdrs s a);
  ta_size_b : 0 < block_size (hdrs s b);
  ta_size_c : 0 < block_size (hdrs s c);
  ta_no_wrap :
    block_size (hdrs s a) + block_size (hdrs s b) + block_size (hdrs s c) <= SIZE_MAX;
  ta_adj_ab : b = a + block_size (hdrs s a);
  ta_adj_bc : c = b + block_size (hdrs s b);
  ta_adj_cd : d = c + block_size (hdrs s c);
  ta_a : freeable s a;
  ta_b : freeable s b;
  ta_c : freeable s c;
  ta_d_allocated : p_status (hdrs s d) = ALLOCATED;
  ta_d_next : p_next (hdrs s d) = c;
  ta_c_prev : p_prev (hdrs s c) = d;
  ta_c_next : p_next (hdrs s c) = b;
  ta_b_prev : p_prev (hdrs s b) = c;
  ta_b_next : p_next (hdrs s b) = a;
  ta_a_prev : p_prev (hdrs s a) = b;
  ta_a_next : p_next (hdrs s a) = e;
  ta_e : e = NULL \/
         (0 < e < a /\ p_status (hdrs s e) = ALLOCATED /\ p_prev (hdrs s e) = a);
  ta_head : d <= head s;
  ta_head_allocated : p_status (hdrs s (head s)) = ALLOCATED
}.

(** The outcome: [a] has become one free block that spans the three, linked
    between [d] and [e]; nothing was returned to the arena. *)
Definition merged_into (s s' : state) (a b c d e : Z) : Prop :=
  p_status (hdrs s' a) = FREE /\
  block_size (hdrs s' a)
    = block_size (hdrs s a) + block_size (hdrs s b) + block_size (hdrs s c) /\
  p_next (hdrs s' d) = a /\
  p_prev (hdrs s' a) = d /\
  p_next (hdrs s' a) = e /\
  (e <> NULL -> p_prev (hdrs s' e) = a) /\
  head s' = head s /\
  default_buffer s' = default_buffer s.

(** Three blocks of 200 bytes on a fresh arena, at 4096, 4368 and 4640. *)
Definition three_blocks_alone : state :=
  after (m61_malloc 1 200 "test.cc" 7)
    (after (m61_malloc 1 200 "test.cc" 6)
       (after (m61_malloc 1 200 "test.cc" 5) (init_state 4096))).

(** The same with a fourth block above them, at 4912. *)
Definition four_blocks : state :=
  after (m61_malloc 1 200 "test.cc" 8) three_blocks_alone.

(** What a client observes of the calls made so far, most recent first. *)
Inductive event : Type :=
| EvMalloc (sz : Z) (ptr : Z)
| EvFree (ptr : Z).

(** The size passed to the allocate call that returned [ptr], provided
    [ptr] has not been freed since. *)
Fixpoint allocated_size (tr : list event) (ptr : Z) : option Z :=
  match tr with
  | [] => None
  | EvMalloc sz q :: tr' => if q =? ptr then Some sz else allocated_size tr' ptr
  | EvFree q :: tr' => if q =? ptr then None else allocated_size tr' ptr
  end.

(** The blocks of the list tile the used part of the arena.  [N] is the set
    of header addresses on the list. *)
Record heap_geometry (s : state) (N : Z -> Prop) : Prop := mkHeapGeometry {
  hg_buffer : 0 < buffer (default_buffer s);
  hg_pos : 0 <= pos (default_buffer s) <= size (default_buffer s);
  hg_size : buffer (default_buffer s) + size (default_buffer s) <= SIZE_MAX;
  hg_node : forall x, N x ->
    buffer (default_buffer s) <= x /\
    0 < block_size (hdrs s x) /\
    x + block_size (hdrs s x) <= buffer (default_buffer s) + pos (default_buffer s) /\
    tagged (hdrs s x);
  hg_disjoint : forall x y, N x -> N y -> x < y -> x + block_size (hdrs s x) <= y;
  hg_up : forall x, N x ->
    (p_prev (hdrs s x) = NULL /\ x = head s /\
     x + block_size (hdrs s x) = buffer (default_buffer s) + pos (default_buffer s)) \/
    (N (p_prev (hdrs s x)) /\ p_next (hdrs s (p_prev (hdrs s x))) = x /\
     x + block_size (hdrs s x) = p_prev (hdrs s x));
  hg_down : forall x, N x ->
    p_next (hdrs s x) = NULL \/
    (N (p_next (hdrs s x)) /\ p_prev (hdrs s (p_next (hdrs s x))) = x);
  hg_head : head s = NULL \/ (N (head s) /\ p_prev (hdrs s (head s)) = NULL);
  hg_empty : head s = NULL -> (forall x, ~ N x) /\ pos (default_buffer s) = 0;
  hg_bottom : forall x, N x -> p_next (hdrs s x) = NULL -> x = buffer (default_buffer s)
}.

(** No two neighbours on the list are both free, and the newest block is
    allocated. *)
Definition no_free_pair (s : state) (N : Z -> Prop) : Prop :=
  forall x, N x -> p_status (hdrs s x) = FREE ->
    p_next (hdrs s x) = NULL \/ p_status (hdrs s (p_next (hdrs s x))) = ALLOCATED.

Definition tidy (s : state) (N : Z -> Prop) : Prop :=
  no_free_pair s N /\ (head s = NULL \/ p_status (hdrs s (head s)) = ALLOCATED).

(** The same while the block [p] is being freed: pairs with [p] are exempt. *)
Definition no_free_pair_but (p : Z) (s : state) (N : Z -> Prop) : Prop :=
  forall x, N x -> x <> p -> p_status (hdrs s x) = FREE ->
    p_next (hdrs s x) = NULL \/ p_next (hdrs s x) = p \/
    p_status (hdrs s (p_next (hdrs s x))) = ALLOCATED.

(** [N'] is [N] without some blocks that are not allocated. *)
Definition kept (s : state) (N N' : Z -> Prop) : Prop :=
  (forall z, N' z -> N z) /\
  (forall z, N z -> p_status (hdrs s z) = ALLOCATED -> N' z).

(** Every header tagged [ALLOCATED] is on the list and describes the payload
    of the allocate call that returned its payload pointer. *)
Definition live_ok (s : state) (N : Z -> Prop) (tr : list event) : Prop :=
  forall x, p_status (hdrs s x) = ALLOCATED ->
    N x /\ p_payload (hdrs s x) = x + sizeof_header /\
    exists sz, allocated_size tr (x + sizeof_header) = Some sz /\
               p_end_marker (hdrs s x) = x + sizeof_header + sz /\
               0 <= sz <= SIZE_MAX.

Definition heap_ok (s : state) (tr : list event) : Prop :=
  exists N, heap_geometry s N /\ tidy s N /\ live_ok s N tr.

(** The list after the node [y] was taken out. *)
Definition unlink (hs : Z -> header) (y : Z) : Z -> header :=
  let a := p_prev (hs y) in
  let b := p_next (hs y) in
  let hs1 := if b =? NULL then hs else upd_hdr hs b (set_p_prev a) in
  if a =? NULL then hs1 else upd_hdr hs1 a (set_p_next b).

(** The block [x] takes over the block [y] that follows it in memory. *)
Definition absorb (x y : Z) (s : state) : state :=
  let s1 := with_hdrs (upd_hdr (hdrs s) x
              (set_block_size (block_size (hdrs s x) + block_size (hdrs s y)))) s in
  with_head (if y =? head s then x else head s) (with_hdrs (unlink (hdrs s1) y) s1).

(** The newest block is given back to the arena. *)
Definition retract (s : state) : state :=
  let h := head s in
  let b := default_buffer s in
  with_head (p_next (hdrs s h))
    (with_hdrs (unlink (hdrs s) h)
       (with_buffer (mkBuffer (buffer b) (pos b - block_size (hdrs s h)) (size b)) s)).

(** The test of [is_block_free]. *)
Definition is_free (s : state) (x : Z) : bool :=
  negb (x =? NULL) && (p_status (hdrs s x) =? FREE).

(** The two halves of [coalesce] as state transformers. *)
Definition coalesce_up (p : Z) (s : state) : state :=
  if is_free s (p_prev (hdrs s p)) then absorb p (p_prev (hdrs s p)) s else s.

Definition coalesce_down (p : Z) (s : state) : state :=
  if is_free s (p_next (hdrs s p)) then absorb (p_next (hdrs s p)) p s else s.

(** [move_buffer_pos] as a state transformer. *)
Definition move_pos (s : state) : state :=
  if (head s =? NULL) || (p_status (hdrs s (head s)) =? ALLOCATED) then s else retract s.

(** [s1] is [s] with the block at [p] marked free by [generate_free_block]. *)
Record marked_free (s s1 : state) (p : Z) : Prop := mkMarkedFree {
  mf_block_size : forall z, block_size (hdrs s1 z) = block_size (hdrs s z);
  mf_p_prev : forall z, p_prev (hdrs s1 z) = p_prev (hdrs s z);
  mf_p_next : forall z, p_next (hdrs s1 z) = p_next (hdrs s z);
  mf_p_status : forall z,
    p_status (hdrs s1 z) = if z =? p then FREE else p_status (hdrs s z);
  mf_p_payload : forall z, z <> p -> p_payload (hdrs s1 z) = p_payload (hdrs s z);
  mf_p_end_marker : forall z, z <> p -> p_end_marker (hdrs s1 z) = p_end_marker (hdrs s z);
  mf_head : head s1 = head s;
  mf_buffer : default_buffer s1 = default_buffer s
}.

(** [s'] is [s] with a new allocated block of [bsz] bytes, for a payload of
    [sz] bytes, put at the arena frontier [f] and made the head of the list. *)
Record pushed (s s' : state) (f bsz sz : Z) : Prop := mkPushed {
  pu_block_size : forall z,
    block_size (hdrs s' z) = if z =? f then bsz else block_size (hdrs s z);
  pu_p_status : forall z,
    p_status (hdrs s' z) = if z =? f then ALLOCATED else p_status (hdrs s z);
  pu_p_payload : forall z,
    p_payload (hdrs s' z) = if z =? f then f + sizeof_header else p_payload (hdrs s z);
  pu_p_end_marker : forall z,
    p_end_marker (hdrs s' z)
    = if z =? f then f + sizeof_header + sz else p_end_marker (hdrs s z);
  pu_p_prev : forall z, z <> NULL ->
    p_prev (hdrs s' z)
    = if z =? f then NULL else if z =? head s then f else p_prev (hdrs s z);
  pu_p_next : forall z,
    p_next (hdrs s' z) = if z =? f then head s else p_next (hdrs s z);
  pu_head : head s' = f;
  pu_buffer : buffer (default_buffer s') = buffer (default_buffer s);
  pu_size : size (default_buffer s') = size (default_buffer s);
  pu_pos : pos (default_buffer s') = pos (default_buffer s) + bsz
}.

(** [s'] is [s] with the free block [p] turned into an allocated block for a
    payload of [sz] bytes, its size unchanged. *)
Record claimed (s s' : state) (p sz : Z) : Prop := mkClaimed {
  cl_block_size : forall z, block_size (hdrs s' z) = block_size (hdrs s z);
  cl_p_prev : forall z, p_prev (hdrs s' z) = p_prev (hdrs s z);
  cl_p_next : forall z, p_next (hdrs s' z) = p_next (hdrs s z);
  cl_p_status : forall z,
    p_status (hdrs s' z) = if z =? p then ALLOCATED else p_status (hdrs s z);
  cl_p_payload : forall z,
    p_payload (hdrs s' z) = if z =? p then p + sizeof_header else p_payload (hdrs s z);
  cl_p_end_marker : forall z,
    p_end_marker (hdrs s' z)
    = if z =? p then p + sizeof_header + sz else p_end_marker (hdrs s z);
  cl_head : head s' = head s;
  cl_buffer : default_buffer s' = default_buffer s
}.

(** [s'] is [s] with the free block [p] cut in two: [p] keeps [req] bytes
    and is allocated for a payload of [sz] bytes, the new free block [q]
    takes the remaining [res] bytes and is linked in before [p]. *)
Record carved (s s' : state) (p q req res sz : Z) : Prop := mkCarved {
  cv_block_size : forall z,
    block_size (hdrs s' z)
    = if z =? q then res else if z =? p then req else block_size (hdrs s z);
  cv_p_status : forall z,
    p_status (hdrs s' z)
    = if z =? q then FREE else if z =? p then ALLOCATED else p_status (hdrs s z);
  cv_p_payload : forall z, z <> q ->
    p_payload (hdrs s' z) = if z =? p then p + sizeof_header else p_payload (hdrs s z);
  cv_p_end_marker : forall z, z <> q ->
    p_end_marker (hdrs s' z)
    = if z =? p then p + sizeof_header + sz else p_end_marker (hdrs s z);
  cv_p_prev : forall z,
    p_prev (hdrs s' z)
    = if z =? q then p_prev (hdrs s p) else if z =? p then q else p_prev (hdrs s z);
  cv_p_next : forall z,
    p_next (hdrs s' z)
    = if z =? q then p else if z =? p_prev (hdrs s p) then q else p_next (hdrs s z);
  cv_head : head s' = head s;
  cv_buffer : default_buffer s' = default_buffer s
}.

(** Allocate and free calls, as a client issues them. *)
Inductive op : Type :=
| OpMalloc (sz : Z) (file : string) (ln : Z)
| OpFree (ptr : Z) (file : string) (ln : Z).

(** Sizes are values of [size_t]. *)
Definition well_typed_op (o : op) : Prop :=
  match o with
  | OpMalloc sz _ _ => 0 <= sz <= SIZE_MAX
  | OpFree _ _ _ => True
  end.

(** Running a sequence of calls in which no operation fails: every
    [m61_malloc] returns a non-null pointer and every [m61_free] returns.
    The trace records the size and the result of every allocate call and
    the argument of every free call that released a block. *)
Fixpoint run_ops (fuel : nat) (ops : list op) (s : state) (tr : list event)
    : option (state * list event) :=
  match ops with
  | [] => Some (s, tr)
  | OpMalloc sz file ln :: ops' =>
      match m61_malloc fuel sz file ln s with
      | Ret p s' => if p =? NULL then None else run_ops fuel ops' s' (EvMalloc sz p :: tr)
      | _ => None
      end
  | OpFree ptr file ln :: ops' =>
      match m61_free fuel ptr file ln s with
      | Ret _ s' => run_ops fuel ops' s' (if ptr =? NULL then tr else EvFree ptr :: tr)
      | _ => None
      end
  end.

(** The size a free call released: the size of the matching allocate call. *)
Definition released (tr : list event) (ptr : Z) : Z :=
  match allocated_size tr ptr with
  | Some sz => sz
  | None => 0
  end.

Fixpoint freed_count (tr : list event) : Z :=
  match tr with
  | [] => 0
  | EvMalloc _ _ :: tr' => freed_count tr'
  | EvFree _ :: tr' => freed_count tr' + 1
  end.

Fixpoint freed_bytes (tr : list event) : Z :=
  match tr with
  | [] => 0
  | EvMalloc _ _ :: tr' => freed_bytes tr'
  | EvFree q :: tr' => freed_bytes tr' + released tr' q
  end.

(** Every free call in the trace released a block that an earlier allocate
    call had returned and that had not been freed since. *)
Fixpoint frees_matched (tr : list event) : bool :=
  match tr with
  | [] => true
  | EvMalloc _ _ :: tr' => frees_matched tr'
  | EvFree q :: tr' =>
      match allocated_size tr' q with
      | Some _ => frees_matched tr'
      | None => false
      end
  end.

(** The conservation law of the statistics, in the 64-bit arithmetic of
    the counters. *)
Definition conserved (s : state) (tr : list event) : Prop :=
  ntotal (gstats s) = wrap (nactive (gstats s) + freed_count tr) /\
  total_size (gstats s) = wrap (active_size (gstats s) + freed_bytes tr).

(** What holds after every call of a run without failures. *)
Definition run_inv (s : state) (tr : list event) : Prop :=
  heap_ok s tr /\ frees_matched tr = true /\ conserved s tr /\
  0 <= nactive (gstats s) /\ 0 <= active_size (gstats s) /\
  0 <= freed_count tr /\ 0 <= freed_bytes tr.

(** The least multiple of [ALIGNMENT] that holds a header, [sz] payload
    bytes and the end marker. *)
Definition least_block_size (sz : Z) : Z :=
  ALIGNMENT * ((sizeof_header + sz + sizeof_END_MARKER + (ALIGNMENT - 1)) / ALIGNMENT).

(** What a successful allocation of [sz] bytes in the block at [p] did to
    the headers and the bytes, seen from the other blocks. *)
Record placed (s s' : state) (p sz : Z) : Prop := mkPlaced {
  pl_old : p_status (hdrs s p) <> ALLOCATED;
  pl_status : p_status (hdrs s' p) = ALLOCATED;
  pl_payload : p_payload (hdrs s' p) = p + sizeof_header;
  pl_end : p_end_marker (hdrs s' p) = p + sizeof_header + sz;
  pl_fits : sizeof_header + sz + sizeof_END_MARKER <= block_size (hdrs s' p);
  pl_others : forall x, x <> p ->
    (p_status (hdrs s' x) = ALLOCATED <-> p_status (hdrs s x) = ALLOCATED) /\
    (p_status (hdrs s x) = ALLOCATED ->
       block_size (hdrs s' x) = block_size (hdrs s x) /\
       p_payload (hdrs s' x) = p_payload (hdrs s x) /\
       p_end_marker (hdrs s' x) = p_end_marker (hdrs s x));
  pl_mem : mem s' = write_marker (mem s) (p + sizeof_header + sz) END_MARKER;
  pl_buffer : buffer (default_buffer s') = buffer (default_buffer s);
  pl_size : size (default_buffer s') = size (default_buffer s)
}.

(** What a [m61_free] of the block at [p] that returned did, seen from the
    other blocks. *)
Record handed_back (s s' : state) (p : Z) : Prop := mkHandedBack {
  rl_old : p_status (hdrs s p) = ALLOCATED;
  rl_status : p_status (hdrs s' p) = FREE;
  rl_others : forall x, x <> p ->
    p_status (hdrs s' x) = p_status (hdrs s x) /\
    p_payload (hdrs s' x) = p_payload (hdrs s x) /\
    p_end_marker (hdrs s' x) = p_end_marker (hdrs s x) /\
    (p_status (hdrs s x) = ALLOCATED -> block_size (hdrs s' x) = block_size (hdrs s x));
  rl_mem : mem s' = mem s;
  rl_buffer : buffer (default_buffer s') = buffer (default_buffer s);
  rl_size : size (default_buffer s') = size (default_buffer s)
}.

(** What a call adds to the trace: an allocation that returned a pointer, a
    release of a non-null pointer; [m61_realloc] makes both. *)
Definition call_events (c : api_call) (r : Z) (tr : list event) : list event :=
  match c with
  | CallMalloc sz _ _ => if r =? NULL then tr else EvMalloc sz r :: tr
  | CallFree ptr _ _ => if ptr =? NULL then tr else EvFree ptr :: tr
  | CallCalloc count sz _ _ =>
      if r =? NULL then tr else EvMalloc (wrap (count * sz)) r :: tr
  | CallRealloc ptr sz _ _ =>
      if r =? NULL then tr
      else if ptr =? NULL then EvMalloc sz r :: tr
      else EvFree ptr :: EvMalloc sz r :: tr
  end.

(** The states a client reaches from a fresh arena at [buf]: through calls
    of the four entry points that return, and through writes of bytes
    inside the payloads it holds. *)
Inductive traced (buf : Z) : state -> list event -> Prop :=
| traced_init : traced buf (init_state buf) []
| traced_call (s : state) (tr : list event) (c : api_call) (fuel : nat)
    (r : Z) (s' : state) :
    traced buf s tr -> well_typed_call c -> run_call fuel c s = Ret r s' ->
    traced buf s' (call_events c r tr)
| traced_write (s : state) (tr : list event) (p sz a v : Z) :
    traced buf s tr -> allocated_size tr p = Some sz -> p <= a < p + sz ->
    traced buf (with_mem (upd (mem s) a v) s) tr.

(** Every pointer the trace holds as allocated has an [ALLOCATED] header. *)
Definition live_back (s : state) (tr : list event) : Prop :=
  forall p sz, allocated_size tr p = Some sz ->
    p_status (hdrs s (p - sizeof_header)) = ALLOCATED.

(** The end marker of an allocated block lies inside the block. *)
Definition payload_fits (s : state) : Prop :=
  forall x, p_status (hdrs s x) = ALLOCATED ->
    p_end_marker (hdrs s x) + sizeof_END_MARKER <= x + block_size (hdrs s x).

(** The end marker of every allocated block is intact. *)
Definition markers_ok (s : state) : Prop :=
  forall x, p_status (hdrs s x) = ALLOCATED ->
    check_marker (mem s) (p_end_marker (hdrs s x)) END_MARKER = true.

(** The heap range of the statistics covers every allocated payload. *)
Definition range_ok (s : state) : Prop :=
  0 <= heap_min (gstats s) /\
  forall x, p_status (hdrs s x) = ALLOCATED ->
    0 < heap_min (gstats s) <= x + sizeof_header /\
    p_end_marker (hdrs s x) <= heap_max (gstats s).

Record well_formed (s : state) (tr : list event) : Prop := mkWellFormed {
  wf_heap : heap_ok s tr;
  wf_back : live_back s tr;
  wf_fits : payload_fits s;
  wf_markers : markers_ok s;
  wf_range : range_ok s
}.

(** A small heap: blocks of 100, 24 and 8 bytes are allocated on a fresh
    arena at 4096 (payloads at 4160, 4336 and 4432), then the middle one is
    freed. *)
Definition sample_heap : state :=
  after (m61_free 1 4336 "test.cc" 8)
    (after (m61_malloc 1 8 "test.cc" 7)
       (after (m61_malloc 1 24 "test.cc" 6)
          (after (m61_malloc 1 100 "test.cc" 5) (init_state 4096)))).

Definition sample_trace : list event :=
  [EvFree 4336; EvMalloc 8 4432; EvMalloc 24 4336; EvMalloc 100 4160].

(** ** The leak report

    [m61_print_leak_report] writes one line per allocated block to standard
    output and changes nothing else.  A line is kept as the four arguments
    of its format string, and the operation returns the lines it printed,
    in order. *)
Record leak_line : Type := mkLeakLine {
  lk_file : string;
  lk_line : Z;
  lk_payload : Z;
  lk_size : Z
}.

(** The loop of [m61_print_leak_report]; one unit of fuel per iteration. *)
Fixpoint m61_print_leak_report_loop (fuel : nat) (p_header : Z) : M (list leak_line) :=
  match fuel with
  | O => out_of_fuel
  | S fuel' =>
      if p_header =? NULL then ret []
      else
        h <- load p_header ;;
        if p_status h =? ALLOCATED then
          payload_size <- get_payload_size p_header ;;
          rest <- m61_print_leak_report_loop fuel' (p_next h) ;;
          ret (mkLeakLine (p_file h) (line h) (p_payload h) payload_size :: rest)
        else m61_print_leak_report_loop fuel' (p_next h)
  end.

Definition m61_print_leak_report (fuel : nat) : M (list leak_line) :=
  hd <- get_head ;;
  m61_print_leak_report_loop fuel hd.

(** The line printed for the allocated block at [x]. *)
Definition leak_line_of (s : state) (x : Z) : leak_line :=
  mkLeakLine (p_file (hdrs s x)) (line (hdrs s x)) (p_payload (hdrs s x))
             (payload_size_of (hdrs s x)).


(** * Proof infrastructure *)

Arguments wrap : simpl never.
Arguments upd_hdr : simpl never.
Arguments upd : simpl never.
Arguments write_marker : simpl never.
Arguments check_marker : simpl never.

Ltac consts :=
  unfold MIN_BLOCK_SIZE in *;
  unfold NULL, sizeof_header, ALIGNMENT, sizeof_END_MARKER, FREE, ALLOCATED, SIZE_MAX in *.

Ltac mlia := consts; lia.

(** Arithmetic on addresses, which never needs the value of [SIZE_MAX]. *)
Ltac alia :=
  unfold MIN_BLOCK_SIZE in *;
  unfold NULL, sizeof_header, ALIGNMENT, sizeof_END_MARKER, FREE, ALLOCATED in *;
  lia.

Lemma wrap_small z : 0 <= z < 2 ^ 64 -> wrap z = z.
Proof. intros; unfold wrap; apply Z.mod_small; lia. Qed.

Lemma wrap_range z : 0 <= wrap z < 2 ^ 64.
Proof. unfold wrap; apply Z.mod_pos_bound; lia. Qed.

Lemma wrap_mod16 z : wrap z mod 16 = z mod 16.
Proof.
  unfold wrap. apply Z.mod_mod_divide. exists (2 ^ 60). reflexivity.
Qed.

Lemma wrap_add_l a b : wrap (wrap a + b) = wrap (a + b).
Proof. unfold wrap. apply Zplus_mod_idemp_l. Qed.

Lemma wrap_add_r a b : wrap (a + wrap b) = wrap (a + b).
Proof. unfold wrap. apply Zplus_mod_idemp_r. Qed.

Lemma wrap_sub_l a b : wrap (wrap a - b) = wrap (a - b).
Proof. unfold wrap. apply Zminus_mod_idemp_l. Qed.

Lemma tags_differ : FREE <> ALLOCATED.
Proof. unfold FREE, ALLOCATED; lia. Qed.

Lemma upd_hdr_same hs a f : upd_hdr hs a f a = f (hs a).
Proof. unfold upd_hdr. now rewrite Z.eqb_refl. Qed.

Lemma upd_hdr_eq hs a f x : x = a -> upd_hdr hs a f x = f (hs a).
Proof. intros ->. apply upd_hdr_same. Qed.

Lemma upd_hdr_other hs a f x : x <> a -> upd_hdr hs a f x = hs x.
Proof. unfold upd_hdr. intros H. apply Z.eqb_neq in H. now rewrite H. Qed.

Lemma upd_same {A} (f : Z -> A) a v : upd f a v a = v.
Proof. unfold upd. now rewrite Z.eqb_refl. Qed.

Lemma upd_other {A} (f : Z -> A) a v x : x <> a -> upd f a v x = f x.
Proof. unfold upd. intros H. apply Z.eqb_neq in H. now rewrite H. Qed.

(** A store through a setter leaves the other members of every record
    alone, whatever the addresses are. *)
Section FieldFrame.
Variables (hs : Z -> header) (a : Z) (f : header -> header) (x : Z).

Lemma upd_hdr_block_size :
  (forall h, block_size (f h) = block_size h) ->
  block_size (upd_hdr hs a f x) = block_size (hs x).
Proof. unfold upd_hdr; destruct (x =? a); auto. Qed.

Lemma upd_hdr_p_payload :
  (forall h, p_payload (f h) = p_payload h) ->
  p_payload (upd_hdr hs a f x) = p_payload (hs x).
Proof. unfold upd_hdr; destruct (x =? a); auto. Qed.

Lemma upd_hdr_p_end_marker :
  (forall h, p_end_marker (f h) = p_end_marker h) ->
  p_end_marker (upd_hdr hs a f x) = p_end_marker (hs x).
Proof. unfold upd_hdr; destruct (x =? a); auto. Qed.

Lemma upd_hdr_p_status :
  (forall h, p_status (f h) = p_status h) ->
  p_status (upd_hdr hs a f x) = p_status (hs x).
Proof. unfold upd_hdr; destruct (x =? a); auto. Qed.

Lemma upd_hdr_p_file :
  (forall h, p_file (f h) = p_file h) ->
  p_file (upd_hdr hs a f x) = p_file (hs x).
Proof. unfold upd_hdr; destruct (x =? a); auto. Qed.

Lemma upd_hdr_line :
  (forall h, line (f h) = line h) ->
  line (upd_hdr hs a f x) = line (hs x).
Proof. unfold upd_hdr; destruct (x =? a); auto. Qed.

Lemma upd_hdr_p_next :
  (forall h, p_next (f h) = p_next h) ->
  p_next (upd_hdr hs a f x) = p_next (hs x).
Proof. unfold upd_hdr; destruct (x =? a); auto. Qed.

Lemma upd_hdr_p_prev :
  (forall h, p_prev (f h) = p_prev h) ->
  p_prev (upd_hdr hs a f x) = p_prev (hs x).
Proof. unfold upd_hdr; destruct (x =? a); auto. Qed.
End FieldFrame.

(** ** Symbolic execution of monadic code *)

Lemma wp_intro {A} (m : M A) s (Q : outcome A -> Prop) : wp m s Q -> Q (m s).
Proof. auto. Qed.

Lemma wp_bind {A B} (m : M A) (k : A -> M B) s Q :
  wp m s (wp_k k Q) -> wp (bind m k) s Q.
Proof. unfold wp, wp_k, bind. destruct (m s); auto. Qed.

Lemma wp_ret {A} (a : A) s Q : Q (Ret a s) -> wp (ret a) s Q.
Proof. auto. Qed.

Lemma wp_modify f s Q : Q (Ret tt (f s)) -> wp (modify f) s Q.
Proof. auto. Qed.

Lemma wp_load a s Q : Q (Ret (hdrs s a) s) -> wp (load a) s Q.
Proof. auto. Qed.

Lemma wp_store_field a f s Q :
  Q (Ret tt (with_hdrs (upd_hdr (hdrs s) a f) s)) -> wp (store_field a f) s Q.
Proof. auto. Qed.

Lemma wp_get_head s Q : Q (Ret (head s) s) -> wp get_head s Q.
Proof. auto. Qed.

Lemma wp_get_state s Q : Q (Ret s s) -> wp get_state s Q.
Proof. auto. Qed.

Lemma wp_abort {A} s (Q : outcome A -> Prop) : Q (Abort s) -> wp abort s Q.
Proof. auto. Qed.

Lemma wp_out_of_fuel {A} s (Q : outcome A -> Prop) : Q OutOfFuel -> wp out_of_fuel s Q.
Proof. auto. Qed.

Lemma wp_is_end_marker_valid p s Q :
  Q (Ret (check_marker (mem s) p END_MARKER) s) -> wp (is_end_marker_valid p) s Q.
Proof. auto. Qed.

Lemma wp_k_ret {A B} (k : A -> M B) Q a s : wp (k a) s Q -> wp_k k Q (Ret a s).
Proof. auto. Qed.

Lemma wp_k_abort {A B} (k : A -> M B) Q s : Q (Abort s) -> wp_k k Q (@Abort A s).
Proof. auto. Qed.

Lemma wp_k_out_of_fuel {A B} (k : A -> M B) Q : Q OutOfFuel -> wp_k k Q (@OutOfFuel A).
Proof. auto. Qed.

(** Using an already proved fact about a call inside a larger program. *)
Lemma wp_conseq {A} (m : M A) s (Q Q' : outcome A -> Prop) :
  wp m s Q -> (forall o, Q o -> Q' o) -> wp m s Q'.
Proof. unfold wp; auto. Qed.

Lemma wp_eq {A} (m : M A) s o (Q : outcome A -> Prop) :
  m s = o -> Q o -> wp m s Q.
Proof. unfold wp; intros ->; auto. Qed.

Ltac proj_red :=
  unfold with_hdrs, with_mem, with_head, with_buffer, with_gstats, with_stderr;
  cbn [hdrs mem head default_buffer gstats stderr buffer pos size
       nactive active_size ntotal total_size nfail fail_size heap_min heap_max
       block_size p_payload p_end_marker p_status p_file line p_next p_prev
       set_block_size set_p_payload set_p_end_marker set_p_status set_p_file set_line
       set_p_next set_p_prev].

Ltac frame_side := intro; reflexivity.

Ltac lookup_simp :=
  repeat first
    [ rewrite upd_hdr_same
    | rewrite upd_hdr_eq by alia
    | rewrite upd_hdr_other by alia
    | rewrite upd_hdr_block_size by frame_side
    | rewrite upd_hdr_p_payload by frame_side
    | rewrite upd_hdr_p_end_marker by frame_side
    | rewrite upd_hdr_p_status by frame_side
    | rewrite upd_hdr_p_file by frame_side
    | rewrite upd_hdr_line by frame_side
    | rewrite upd_hdr_p_next by frame_side
    | rewrite upd_hdr_p_prev by frame_side ].

Ltac st_simp := cbv beta; proj_red; lookup_simp; proj_red.

Ltac head_of m :=
  lazymatch m with
  | ?f _ => head_of f
  | _ => m
  end.

Ltac bsolve :=
  repeat match goal with
  | |- negb _ = true => apply negb_true_iff
  | |- negb _ = false => apply negb_false_iff
  | |- (_ && _) = true => apply andb_true_iff; split
  | |- (_ || _) = false => apply orb_false_iff; split
  | |- (_ =? _) = true => apply Z.eqb_eq
  | |- (_ =? _) = false => apply Z.eqb_neq
  | |- (_ <=? _) = true => apply Z.leb_le
  | |- (_ <=? _) = false => apply Z.leb_gt
  | |- (_ <? _) = true => apply Z.ltb_lt
  | |- (_ <? _) = false => apply Z.ltb_ge
  end; try mlia.

(** One step of execution.  [simp] normalises the state and the loaded
    values, [dec] decides the tests it can, [stop h] succeeds on the
    functions that are to be left folded. *)
Ltac wp_step_gen simp dec stop :=
  lazymatch goal with
  | |- wp_k _ _ (Ret _ _) => simp; apply wp_k_ret; cbv beta; simp
  | |- wp_k _ _ (Abort _) => apply wp_k_abort
  | |- wp_k _ _ OutOfFuel => apply wp_k_out_of_fuel
  | |- wp (bind _ _) _ _ => apply wp_bind
  | |- wp (ret _) _ _ => apply wp_ret
  | |- wp (modify _) _ _ => apply wp_modify
  | |- wp (load _) _ _ => apply wp_load
  | |- wp (store_field _ _) _ _ => apply wp_store_field
  | |- wp get_head _ _ => apply wp_get_head
  | |- wp get_state _ _ => apply wp_get_state
  | |- wp abort _ _ => apply wp_abort
  | |- wp out_of_fuel _ _ => apply wp_out_of_fuel
  | |- wp (is_end_marker_valid _) _ _ => apply wp_is_end_marker_valid
  | |- wp (if ?b then _ else _) _ _ =>
      first [ replace b with true by (symmetry; dec)
            | replace b with false by (symmetry; dec) ]; cbv iota
  | |- wp (when_ _ _) _ _ => unfold when_ at 1
  | |- wp (assert_ _ _) _ _ => unfold assert_ at 1
  | |- wp (_ _) _ _ =>
      lazymatch goal with
      | |- wp ?m _ _ =>
          let h := head_of m in
          tryif stop h then fail else (unfold h at 1; cbv beta)
      end
  | |- wp ?m _ _ => tryif stop m then fail else unfold m at 1
  end.

(** The two loops are never unfolded by the stepper. *)
Ltac stop_loops h :=
  first [ constr_eq h find_freed_block_loop
        | constr_eq h report_ptr_inside_alloc_block_loop ].

Ltac wp_step simp := wp_step_gen simp ltac:(simp; bsolve) stop_loops.

(** Execution from a closed state: the tests are computed. *)
Ltac wp_step_closed := wp_step_gen idtac ltac:(vm_compute; reflexivity) stop_loops.

Ltac wp_run simp := repeat wp_step simp.

Ltac wp_split :=
  lazymatch goal with
  | |- wp (if ?b then _ else _) _ _ => destruct b eqn:?
  end.

(** All paths, splitting on the tests that cannot be decided. *)
Ltac wp_auto := repeat first [ wp_step st_simp | wp_split ].

(** Calling an operation whose effect is already known. *)
Ltac wp_call lem :=
  lazymatch goal with
  | |- wp (bind _ _) _ _ => apply wp_bind; wp_call lem
  | |- wp _ _ _ =>
      eapply wp_conseq;
      [ eapply lem
      | let o := fresh "o" in let Ho := fresh "Hcall" in
        intros o Ho; destruct o; cbn [returns] in Ho;
        [ | wp_run idtac; try exact I .. ] ]
  end.

Ltac wp_leaf tac :=
  lazymatch goal with
  | |- returns _ (Abort _) => exact I
  | |- returns _ OutOfFuel => exact I
  | |- returns _ (Ret _ _) => cbn [returns]; tac
  | |- _ => idtac
  end.

Lemma tags_frame_refl s : tags_frame s s.
Proof. unfold tags_frame; auto. Qed.

Lemma wp_any {A} (m : M A) s : wp m s (returns (fun _ _ => True)).
Proof. unfold wp, returns. destruct (m s); exact I. Qed.

Ltac frame_solve H :=
  let Hf := fresh "Hf" in
  let x := fresh "x" in
  unfold tags_frame in *; cbv beta; proj_red;
  destruct H as (Hf & ? & ? & ?);
  split; [ intro x; lookup_simp; apply Hf | auto ].

Lemma remove_block_frame p s0 s :
  tags_frame s0 s ->
  wp (remove_block p) s (returns (fun _ s' => tags_frame s0 s')).
Proof.
  intros H. unfold remove_block.
  wp_auto; wp_leaf ltac:(frame_solve H).
Qed.

Lemma coalesce_frame p s0 s :
  tags_frame s0 s ->
  wp (coalesce p) s (returns (fun _ s' => tags_frame s0 s')).
Proof.
  intros H. unfold coalesce.
  wp_auto; wp_leaf ltac:(frame_solve H).
Qed.

Lemma move_buffer_pos_frame s0 s :
  tags_frame s0 s ->
  wp move_buffer_pos s (returns (fun _ s' => tags_frame s0 s')).
Proof.
  intros H. unfold move_buffer_pos.
  wp_auto; wp_leaf ltac:(frame_solve H).
Qed.

Ltac st_simp_in H := revert H; st_simp; intro H.

Ltac stop_free h :=
  first [ stop_loops h | constr_eq h coalesce | constr_eq h move_buffer_pos
        | constr_eq h report_ptr_inside_alloc_block ].

Lemma free_returns fuel ptr file ln s :
  ptr <> NULL ->
  wp (m61_free fuel ptr file ln) s (returns (fun _ s1 => freed_by ptr s s1)).
Proof.
  intros Hp. unfold m61_free.
  repeat first [ wp_step_gen st_simp ltac:(st_simp; bsolve) stop_free | wp_split ];
    wp_leaf idtac.
  - wp_call (@wp_any unit); wp_run st_simp; wp_leaf idtac.
  - wp_call coalesce_frame; [apply tags_frame_refl|].
    wp_step st_simp.
    wp_call move_buffer_pos_frame; [exact Hcall|].
    clear Hcall. destruct Hcall0 as (Hf & Hm & Hg & He).
    revert Hf Hm Hg He. proj_red. intros Hf Hm Hg He.
    apply negb_false_iff, Z.eqb_eq in Heqb0, Heqb2.
    apply orb_false_iff in Heqb. destruct Heqb as [H1 H2]. apply Z.ltb_ge in H1, H2.
    destruct (Hf (ptr - sizeof_header)) as (Hs & Hpl & _).
    revert Hs Hpl. lookup_simp. proj_red. intros Hs Hpl.
    unfold freed_by. repeat split; try assumption; try lia.
Qed.

Lemma free_returns_inv fuel ptr file ln s s1 :
  ptr <> NULL -> m61_free fuel ptr file ln s = Ret tt s1 -> freed_by ptr s s1.
Proof.
  intros Hp E. pose proof (free_returns fuel ptr file ln s Hp) as H.
  unfold wp in H. rewrite E in H. exact H.
Qed.

Lemma padding_for_range sz : 8 <= padding_for sz <= 23.
Proof.
  unfold padding_for.
  assert (H := Z.mod_pos_bound (wrap (sizeof_header + sz)) ALIGNMENT ltac:(unfold ALIGNMENT; lia)).
  destruct (_ <? sizeof_END_MARKER) eqn:E.
  - apply Z.ltb_lt in E. rewrite wrap_small; mlia.
  - apply Z.ltb_ge in E. mlia.
Qed.

Lemma size_overflows_spec sz :
  size_overflows sz = true <-> SIZE_MAX < sizeof_header + sz + padding_for sz.
Proof.
  unfold size_overflows. pose proof (padding_for_range sz).
  rewrite (wrap_small (SIZE_MAX - _)) by mlia.
  rewrite wrap_small by mlia.
  rewrite Z.ltb_lt. mlia.
Qed.

Lemma is_overflowing_spec a b :
  0 <= a <= SIZE_MAX -> 0 <= b <= SIZE_MAX ->
  (is_overflowing a b = true <-> SIZE_MAX < a * b).
Proof.
  intros Ha Hb. unfold is_overflowing, SIZE_MAX in *.
  destruct (a =? 0) eqn:Ea; [apply Z.eqb_eq in Ea; subst; cbn; split; [discriminate|lia]|].
  destruct (b =? 0) eqn:Eb; [apply Z.eqb_eq in Eb; subst; cbn; split; [discriminate|lia]|].
  apply Z.eqb_neq in Ea, Eb. cbn [orb].
  assert (Hc := wrap_range (a * b)).
  destruct (Z_lt_ge_dec (a * b) (2 ^ 64)) as [Hlt|Hge].
  - rewrite wrap_small by nia.
    rewrite Z.div_mul by lia. rewrite Z.mod_mul by lia.
    rewrite !Z.eqb_refl. cbn. split; [discriminate|lia].
  - split; [lia|]. intros _.
    apply orb_true_iff.
    destruct (a =? wrap (a * b) / b) eqn:E1; [|now left].
    right. apply negb_true_iff, Z.eqb_neq. intros E2.
    apply Z.eqb_eq in E1.
    pose proof (Z.div_mod (wrap (a * b)) b Eb) as D.
    rewrite E2, <- E1 in D. nia.
Qed.

Lemma find_freed_block_loop_no_fit hs required_size p :
  no_fit hs required_size p ->
  exists n, forall fuel, (n <= fuel)%nat ->
    forall s payload_size file ln, hdrs s = hs ->
      find_freed_block_loop fuel p required_size payload_size file ln s = Ret NULL s.
Proof.
  induction 1 as [|p Hp Hfit _ [n IH]].
  - exists 1%nat. intros [|fuel] Hle; [lia|]. intros. reflexivity.
  - exists (S n). intros [|fuel] Hle; [lia|]. intros s payload_size file ln Hs.
    cbn [find_freed_block_loop].
    apply Z.eqb_neq in Hp. rewrite Hp.
    unfold bind at 1, load at 1. rewrite Hs, Hfit.
    apply IH; [lia|assumption].
Qed.

Lemma malloc_exhausted s sz file ln :
  size_overflows sz = false -> arena_exhausted s sz ->
  exists n, forall fuel, (n <= fuel)%nat ->
    m61_malloc fuel sz file ln s = Ret NULL (record_failure sz s).
Proof.
  intros Hov [Hroom Hnf].
  destruct (find_freed_block_loop_no_fit _ _ _ Hnf) as [n Hn].
  exists n. intros fuel Hle.
  unfold m61_malloc. rewrite Hov.
  unfold bind at 1, find_free_space.
  unfold bind at 1, get_state at 1.
  apply Z.leb_gt in Hroom. rewrite Hroom.
  unfold find_freed_block, bind at 1, get_head at 1.
  rewrite (Hn fuel Hle s sz file ln eq_refl).
  reflexivity.
Qed.

Lemma find_freed_block_loop_stats fuel required_size payload_size file ln :
  forall p s0 s, same_stats s0 s ->
    wp (find_freed_block_loop fuel p required_size payload_size file ln) s
       (returns (fun _ s' => same_stats s0 s')).
Proof.
  induction fuel as [|fuel IH]; intros p s0 s H; cbn [find_freed_block_loop].
  - wp_run st_simp. exact I.
  - wp_auto; wp_leaf ltac:(exact H).
    apply IH. exact H.
Qed.

Lemma find_free_space_stats fuel bsz payload_size file ln s :
  wp (find_free_space fuel bsz payload_size file ln) s
     (returns (fun _ s' => same_stats s s')).
Proof.
  unfold find_free_space.
  wp_run st_simp. wp_split.
  - wp_auto; wp_leaf ltac:(split; reflexivity).
  - unfold find_freed_block. wp_run st_simp.
    apply find_freed_block_loop_stats. split; reflexivity.
Qed.

Lemma malloc_returns fuel sz file ln s :
  wp (m61_malloc fuel sz file ln) s
     (returns (fun p s' =>
        stderr s' = stderr s /\
        ((p = NULL /\ gstats s' = gstats (record_failure sz s)) \/
         (p <> NULL /\ gstats s' = record_success sz p (gstats s))))).
Proof.
  unfold m61_malloc. wp_split.
  - wp_run st_simp. cbn [returns]. split; [reflexivity|]. left. split; reflexivity.
  - wp_call find_free_space_stats.
    destruct Hcall as [Hg He].
    wp_step st_simp. wp_split; wp_run ltac:(st_simp; rewrite ?Hg, ?He); cbn [returns].
    + apply Z.eqb_eq in Heqb0. split; [reflexivity|]. left. split; reflexivity.
    + apply Z.eqb_neq in Heqb0. split; [reflexivity|]. right. split; [exact Heqb0|reflexivity].
Qed.

Lemma malloc_returns_inv fuel sz file ln s p s' :
  m61_malloc fuel sz file ln s = Ret p s' ->
  stderr s' = stderr s /\
  ((p = NULL /\ gstats s' = gstats (record_failure sz s)) \/
   (p <> NULL /\ gstats s' = record_success sz p (gstats s))).
Proof.
  intros E. pose proof (malloc_returns fuel sz file ln s) as H.
  unfold wp in H. rewrite E in H. exact H.
Qed.

Lemma returned_eq {A} (m : M A) (s : state) (a : A) :
  returned (m s) = Some a -> m s = Ret a (after m s).
Proof. unfold after. destruct (m s); cbn; congruence. Qed.

(** ** Zero-size requests (claim C3) *)

(** C3, counterexample: on a fresh arena a request for 0 bytes does not
    return null; it returns the payload pointer of a new block. *)
Lemma malloc_zero_not_null :
  returned (m61_malloc 0 0 "test.cc" 1 (init_state 4096)) = Some 4160 /\ 4160 <> NULL.
Proof. split; [vm_compute; reflexivity | unfold NULL; lia]. Qed.

(** C3, as amended: a request for 0 bytes is served like any other request.
    Its block has the minimum size [sizeof(header) + ALIGNMENT]; whenever the
    arena frontier has that much room left the call returns the non-null
    payload pointer of a fresh allocated block with an empty payload, counts
    it as a successful allocation and records no failure. *)
Theorem malloc_zero_frontier (fuel : nat) (s : state) (file : string) (ln : Z) :
  0 < buffer (default_buffer s) + pos (default_buffer s) ->
  MIN_BLOCK_SIZE <= wrap (size (default_buffer s) - pos (default_buffer s)) ->
  exists s',
    m61_malloc fuel 0 file ln s
      = Ret (buffer (default_buffer s) + pos (default_buffer s) + sizeof_header) s' /\
    buffer (default_buffer s) + pos (default_buffer s) + sizeof_header <> NULL /\
    p_status (hdrs s' (buffer (default_buffer s) + pos (default_buffer s))) = ALLOCATED /\
    payload_size_of (hdrs s' (buffer (default_buffer s) + pos (default_buffer s))) = 0 /\
    block_size (hdrs s' (buffer (default_buffer s) + pos (default_buffer s))) = MIN_BLOCK_SIZE /\
    nactive (gstats s') = wrap (nactive (gstats s) + 1) /\
    ntotal (gstats s') = wrap (ntotal (gstats s) + 1) /\
    nfail (gstats s') = nfail (gstats s) /\
    fail_size (gstats s') = fail_size (gstats s).
Proof.
  intros Hpos Hroom.
  apply (wp_intro (m61_malloc fuel 0 file ln) s (fun o => exists s', o = Ret _ s' /\ _)).
  unfold m61_malloc.
  change (size_overflows 0) with false. cbv iota.
  change (block_size_for 0) with 80.
  wp_run st_simp.
  wp_split; wp_run st_simp.
  all: eexists; split; [reflexivity|]; st_simp.
  all: unfold payload_size_of; st_simp.
  all: repeat split; try reflexivity; try mlia.
  all: replace (_ + 0 - _) with 0 by mlia; reflexivity.
Qed.

Lemma malloc_zero_frontier_witness :
  exists s',
    m61_malloc 0 0 "test.cc" 1 (init_state 4096) = Ret 4160 s' /\
    p_status (hdrs s' 4096) = ALLOCATED /\
    payload_size_of (hdrs s' 4096) = 0 /\
    nactive (gstats s') = 1 /\ nfail (gstats s') = 0.
Proof.
  assert (H1 : 0 < buffer (default_buffer (init_state 4096)) + pos (default_buffer (init_state 4096)))
    by (vm_compute; reflexivity).
  assert (H2 : MIN_BLOCK_SIZE <= wrap (size (default_buffer (init_state 4096))
                                     - pos (default_buffer (init_state 4096))))
    by (vm_compute; discriminate).
  destruct (malloc_zero_frontier 0 (init_state 4096) "test.cc" 1 H1 H2)
    as (s' & E & _ & Hst & Hps & _ & Hna & _ & Hnf & _).
  exists s'. repeat split; assumption.
Defined.

(** ** Double free (claim C8) *)

(** C8: once [m61_free] has returned for a non-null pointer, a second
    [m61_free] of the same pointer, with nothing in between, prints the
    double-free diagnostic and aborts. *)
Theorem double_free_aborts (fuel fuel' : nat) (s s1 : state) (ptr : Z)
    (file file' : string) (ln ln' : Z) :
  ptr <> NULL ->
  m61_free fuel ptr file ln s = Ret tt s1 ->
  exists s2,
    m61_free fuel' ptr file' ln' s1 = Abort s2 /\
    stderr s2 = stderr s1 ++ [InvalidFreeDoubleFree file' ln' ptr].
Proof.
  intros Hp E.
  destruct (free_returns_inv _ _ _ _ _ _ Hp E) as (_ & Hst & Hpl & Hal & Hrange & _ & _ & Hg).
  apply (wp_intro (m61_free fuel' ptr file' ln') s1
           (fun o => exists s2, o = Abort s2 /\ _)).
  unfold m61_free.
  assert (Hmin : heap_min (gstats s1) = heap_min (gstats s)) by (rewrite Hg; reflexivity).
  assert (Hmax : heap_max (gstats s1) = heap_max (gstats s)) by (rewrite Hg; reflexivity).
  pose proof tags_differ.
  wp_run ltac:(st_simp; rewrite ?Hst, ?Hpl, ?Hmin, ?Hmax, ?Hal).
  eexists; split; reflexivity.
Qed.

Lemma double_free_aborts_witness :
  let s := after (m61_malloc 1 8 "test.cc" 5) (init_state 4096) in
  let s1 := after (m61_free 1 4160 "test.cc" 6) s in
  m61_malloc 1 8 "test.cc" 5 (init_state 4096) = Ret 4160 s /\
  m61_free 1 4160 "test.cc" 6 s = Ret tt s1 /\
  exists s2,
    m61_free 1 4160 "test.cc" 7 s1 = Abort s2 /\
    stderr s2 = stderr s1 ++ [InvalidFreeDoubleFree "test.cc" 7 4160].
Proof.
  intros s s1.
  assert (E1 : m61_malloc 1 8 "test.cc" 5 (init_state 4096) = Ret 4160 s)
    by (apply (returned_eq (m61_malloc 1 8 "test.cc" 5) (init_state 4096) 4160);
        vm_compute; reflexivity).
  assert (E2 : m61_free 1 4160 "test.cc" 6 s = Ret tt s1)
    by (apply (returned_eq (m61_free 1 4160 "test.cc" 6) s tt); vm_compute; reflexivity).
  split; [exact E1|]. split; [exact E2|].
  apply (double_free_aborts 1 1 s s1 4160 "test.cc" "test.cc" 6 7);
    [unfold NULL; lia | exact E2].
Defined.

(** ** Failed allocations (claim C9) *)

(** C9: every failed allocation returns null and is recorded with the
    requested size: an overflow of the size computation in [m61_malloc], an
    exhausted arena and block list, and an overflow of [count * sz] in
    [m61_calloc] (recorded with the element size [sz]).  The recorded state
    [record_failure sz s] differs from [s] in [nfail], which grows by one,
    and in [fail_size], which grows by [sz]; the block size never enters. *)
Theorem failed_allocation_statistics (s : state) (sz count : Z) (file : string) (ln : Z) :
  (SIZE_MAX < sizeof_header + sz + padding_for sz ->
     forall fuel, m61_malloc fuel sz file ln s = Ret NULL (record_failure sz s)) /\
  (sizeof_header + sz + padding_for sz <= SIZE_MAX -> arena_exhausted s sz ->
     exists n, forall fuel, (n <= fuel)%nat ->
       m61_malloc fuel sz file ln s = Ret NULL (record_failure sz s)) /\
  (0 <= count <= SIZE_MAX -> 0 <= sz <= SIZE_MAX -> SIZE_MAX < count * sz ->
     forall fuel, m61_calloc fuel count sz file ln s = Ret NULL (record_failure sz s)) /\
  (forall fuel s', m61_malloc fuel sz file ln s = Ret NULL s' ->
     gstats s' = gstats (record_failure sz s)) /\
  nfail (gstats (record_failure sz s)) = wrap (nfail (gstats s) + 1) /\
  fail_size (gstats (record_failure sz s)) = wrap (fail_size (gstats s) + sz) /\
  nactive (gstats (record_failure sz s)) = nactive (gstats s) /\
  active_size (gstats (record_failure sz s)) = active_size (gstats s) /\
  ntotal (gstats (record_failure sz s)) = ntotal (gstats s) /\
  total_size (gstats (record_failure sz s)) = total_size (gstats s).
Proof.
  repeat split.
  - intros Hov fuel. apply size_overflows_spec in Hov.
    unfold m61_malloc. rewrite Hov. reflexivity.
  - intros Hov Hex. apply malloc_exhausted; [|exact Hex].
    destruct (size_overflows sz) eqn:E; [|reflexivity].
    apply size_overflows_spec in E. lia.
  - intros Hc Hs Hov fuel. apply (is_overflowing_spec count sz Hc Hs) in Hov.
    unfold m61_calloc. rewrite Hov. reflexivity.
  - intros fuel s' E. apply malloc_returns_inv in E.
    destruct E as [_ [[_ Hg]|[Hp _]]]; [exact Hg|congruence].
Qed.

Lemma failed_allocation_statistics_witness :
  let s := init_state 4096 in
  m61_malloc 0 (SIZE_MAX - 1) "test.cc" 11 s = Ret NULL (record_failure (SIZE_MAX - 1) s) /\
  (exists n, forall fuel, (n <= fuel)%nat ->
     m61_malloc fuel (2 ^ 23) "test.cc" 12 s = Ret NULL (record_failure (2 ^ 23) s)) /\
  m61_calloc 0 (2 ^ 63) 4 "test.cc" 13 s = Ret NULL (record_failure 4 s) /\
  fail_size (gstats (record_failure 4 s)) = 4.
Proof.
  intros s. split; [|split; [|split]].
  - apply (proj1 (failed_allocation_statistics s (SIZE_MAX - 1) 0 "test.cc" 11)).
    vm_compute; reflexivity.
  - apply (proj1 (proj2 (failed_allocation_statistics s (2 ^ 23) 0 "test.cc" 12))).
    + vm_compute; discriminate.
    + split; [vm_compute; reflexivity | apply no_fit_end].
  - apply (proj1 (proj2 (proj2 (failed_allocation_statistics s 4 (2 ^ 63) "test.cc" 13)))).
    + vm_compute; split; discriminate.
    + vm_compute; split; discriminate.
    + vm_compute; reflexivity.
  - reflexivity.
Defined.

(** ** Failed resize (claim C2) *)

(** C2: when [sz] is zero, or the allocation of the new block fails (the
    size computation overflows, or neither the frontier nor the list has
    room), [m61_realloc] returns null and touches nothing but the failure
    counters: every header (so the block at [ptr] keeps its status), every
    byte, the list, the arena and the active and total statistics are the
    same after the call as before. *)
Theorem realloc_failure_leaves_block (s : state) (ptr sz : Z) (file : string) (ln : Z) :
  sz = 0 \/ SIZE_MAX < sizeof_header + sz + padding_for sz \/ arena_exhausted s sz ->
  exists n, forall fuel, (n <= fuel)%nat ->
    exists s',
      m61_realloc fuel ptr sz file ln s = Ret NULL s' /\
      hdrs s' = hdrs s /\ mem s' = mem s /\ head s' = head s /\
      default_buffer s' = default_buffer s /\ stderr s' = stderr s /\
      nactive (gstats s') = nactive (gstats s) /\
      active_size (gstats s') = active_size (gstats s) /\
      ntotal (gstats s') = ntotal (gstats s) /\
      total_size (gstats s') = total_size (gstats s) /\
      heap_min (gstats s') = heap_min (gstats s) /\
      heap_max (gstats s') = heap_max (gstats s).
Proof.
  intros H.
  destruct (Z.eq_dec sz 0) as [->|Hsz].
  { exists 0%nat. intros fuel _. exists s. repeat split; reflexivity. }
  assert (Hfail : exists n, forall fuel, (n <= fuel)%nat ->
            m61_malloc fuel sz file ln s = Ret NULL (record_failure sz s)).
  { destruct (size_overflows sz) eqn:Hov.
    - exists 0%nat. intros fuel _. unfold m61_malloc. rewrite Hov. reflexivity.
    - destruct H as [H|[H|H]]; [contradiction| |].
      + apply size_overflows_spec in H. congruence.
      + apply malloc_exhausted; assumption. }
  destruct Hfail as [n Hn]. exists n. intros fuel Hle.
  exists (record_failure sz s). split; [|repeat split; reflexivity].
  unfold m61_realloc. apply Z.eqb_neq in Hsz. rewrite Hsz.
  unfold bind at 1. rewrite (Hn fuel Hle).
  rewrite Z.eqb_refl, orb_true_r. reflexivity.
Qed.

Lemma realloc_failure_leaves_block_witness :
  let s := after (m61_malloc 1 10000 "test.cc" 6) (init_state 4096) in
  exists s',
    m61_realloc 1 4160 0 "test.cc" 7 s = Ret NULL s' /\
    p_status (hdrs s' 4096) = ALLOCATED /\
    nactive (gstats s') = 1 /\ active_size (gstats s') = 10000.
Proof.
  intros s.
  destruct (realloc_failure_leaves_block s 4160 0 "test.cc" 7 (or_introl eq_refl))
    as (n & Hn).
  destruct (Hn (n + 1)%nat ltac:(lia)) as (s' & E & Hh & _ & _ & _ & _ & Hna & Has & _).
  exists s'. split; [|split; [|split]].
  - unfold m61_realloc in *. exact E.
  - rewrite Hh. vm_compute. reflexivity.
  - rewrite Hna. vm_compute. reflexivity.
  - rewrite Has. vm_compute. reflexivity.
Defined.

(** ** The scan for the enclosing block (claim C4) *)

(** The loop of [report_ptr_inside_alloc_block] never leaves a block whose
    status is not [ALLOCATED]: [continue] skips the advance to [p_next]. *)
Lemma report_loop_stuck (fuel : nat) (p ptr : Z) (s : state) :
  p <> NULL -> p_status (hdrs s p) <> ALLOCATED ->
  report_ptr_inside_alloc_block_loop fuel p ptr s = OutOfFuel.
Proof.
  intros Hp Hst. induction fuel as [|fuel IH]; [reflexivity|].
  cbn [report_ptr_inside_alloc_block_loop].
  apply Z.eqb_neq in Hp. rewrite Hp.
  unfold bind at 1, load at 1.
  apply Z.eqb_neq in Hst. rewrite Hst. cbn [negb]. exact IH.
Qed.

(** C4, evaluation at the failing input: the pointer 64 bytes inside the
    payload of block A passes the range and header checks with a recovered
    status that is neither tag; the scan then visits C, moves to the free
    block B and stays there whatever fuel it is given, so the call neither
    reports the enclosing block nor reaches [abort]. *)
Theorem inside_pointer_scan_diverges :
  p_status (hdrs three_blocks_middle_freed (4224 - sizeof_header)) <> ALLOCATED /\
  p_status (hdrs three_blocks_middle_freed (4224 - sizeof_header)) <> FREE /\
  p_status (hdrs three_blocks_middle_freed 4096) = ALLOCATED /\
  p_payload (hdrs three_blocks_middle_freed 4096) <= 4224
    < p_end_marker (hdrs three_blocks_middle_freed 4096) /\
  forall fuel, m61_free fuel 4224 "test.cc" 9 three_blocks_middle_freed = OutOfFuel.
Proof.
  split; [vm_compute; discriminate|].
  split; [vm_compute; discriminate|].
  split; [vm_compute; reflexivity|].
  split; [vm_compute; split; [discriminate|reflexivity]|].
  intros fuel.
  apply (wp_intro (m61_free fuel 4224 "test.cc" 9) three_blocks_middle_freed
           (fun o => o = OutOfFuel)).
  unfold m61_free.
  repeat wp_step_closed.
  destruct fuel as [|fuel]; [reflexivity|].
  cbn [report_ptr_inside_alloc_block_loop].
  repeat wp_step_closed.
  unfold wp. rewrite report_loop_stuck; [reflexivity| |]; vm_compute; discriminate.
Qed.

(** ** The copy made by resize (claim C1) *)

(** After a successful [m61_malloc] of [sz] bytes the header in front of the
    returned pointer describes a payload of exactly [sz] bytes. *)
Lemma find_freed_block_loop_payload fuel required_size payload_size file ln :
  required_size <> 0 ->
  forall p s,
    wp (find_freed_block_loop fuel p required_size payload_size file ln) s
       (returns (fun q s' =>
          q = NULL \/
          (p_payload (hdrs s' (q - sizeof_header)) = q /\
           p_end_marker (hdrs s' (q - sizeof_header)) = q + payload_size))).
Proof.
  intros Hreq. induction fuel as [|fuel IH]; intros p s; cbn [find_freed_block_loop].
  - wp_run st_simp. exact I.
  - wp_auto; wp_leaf ltac:(st_simp; first [left; reflexivity | right; st_simp; split; mlia]).
    apply IH.
Qed.

Lemma find_free_space_payload fuel bsz payload_size file ln s :
  bsz <> 0 ->
  wp (find_free_space fuel bsz payload_size file ln) s
     (returns (fun q s' =>
        q = NULL \/
        (p_payload (hdrs s' (q - sizeof_header)) = q /\
         p_end_marker (hdrs s' (q - sizeof_header)) = q + payload_size))).
Proof.
  intros Hb. unfold find_free_space.
  wp_run st_simp. wp_split.
  - wp_auto; wp_leaf ltac:(st_simp; right; st_simp; split; mlia).
  - unfold find_freed_block. wp_run st_simp.
    apply find_freed_block_loop_payload. exact Hb.
Qed.

Lemma block_size_for_positive sz :
  0 <= sz -> size_overflows sz = false -> block_size_for sz <> 0.
Proof.
  intros Hsz Hov.
  assert (Hno : ~ SIZE_MAX < sizeof_header + sz + padding_for sz)
    by (rewrite <- size_overflows_spec; congruence).
  pose proof (padding_for_range sz).
  unfold block_size_for.
  rewrite (wrap_small (sizeof_header + sz)) by mlia.
  rewrite wrap_small by mlia. mlia.
Qed.

(** Whatever the old block was, the number of bytes [m61_realloc] copies
    into a fresh block of [sz] bytes is [sz]. *)
Lemma realloc_copy_size_fresh fuel sz file ln s q s' :
  0 <= sz <= SIZE_MAX ->
  m61_malloc fuel sz file ln s = Ret q s' -> q <> NULL ->
  realloc_copy_size q sz s' = Ret sz s'.
Proof.
  intros Hsz E Hq.
  assert (H : wp (m61_malloc fuel sz file ln) s
                (returns (fun q s' => q = NULL \/
                   (p_payload (hdrs s' (q - sizeof_header)) = q /\
                    p_end_marker (hdrs s' (q - sizeof_header)) = q + sz)))).
  { unfold m61_malloc. wp_split.
    - wp_run st_simp. left; reflexivity.
    - wp_call find_free_space_payload.
      { apply block_size_for_positive; [lia|assumption]. }
      wp_step st_simp. wp_split; wp_run st_simp; cbn [returns]; st_simp.
      + left; reflexivity.
      + destruct Hcall as [->|Hcall]; [discriminate|]. right. exact Hcall. }
  unfold wp in H. rewrite E in H. cbn [returns] in H.
  destruct H as [H|[Hp He]]; [contradiction|].
  unfold realloc_copy_size, get_payload_size, bind, load, ret, payload_size_of.
  rewrite Hp, He. replace (q + sz - q) with sz by lia.
  rewrite wrap_small by (unfold SIZE_MAX in Hsz; lia).
  rewrite Z.ltb_irrefl. reflexivity.
Qed.

(** C1, evaluation at the failing input: an 8-byte block is resized to 24
    bytes.  The old payload holds 8 bytes, so 8 bytes should be copied; the
    size handed to [memcpy] is 24, and bytes 8 to 15 of the new region are a
    copy of the old block's end marker. *)
Theorem realloc_grow_copies_past_old_payload :
  m61_malloc 1 8 "test.cc" 5 (init_state 4096) = Ret 4160 one_small_block /\
  payload_size_of (hdrs one_small_block (4160 - sizeof_header)) = 8 /\
  Z.min 24 8 = 8 /\
  returned (m61_realloc 1 4160 24 "test.cc" 6 one_small_block) = Some 4240 /\
  returned (realloc_copy_size 4240 24
              (after (m61_malloc 1 24 "test.cc" 6) one_small_block)) = Some 24 /\
  map (mem (after (m61_realloc 1 4160 24 "test.cc" 6) one_small_block))
      [4248; 4249; 4250; 4251; 4252; 4253; 4254; 4255] = END_MARKER.
Proof.
  split; [apply (returned_eq (m61_malloc 1 8 "test.cc" 5) (init_state 4096) 4160);
          vm_compute; reflexivity|].
  repeat split; vm_compute; reflexivity.
Qed.

(** ** Placement policy (claim C7) *)

Lemma find_freed_block_loop_first_fit hs required_size p q :
  first_fit hs required_size p q ->
  exists n, forall fuel, (n <= fuel)%nat ->
    forall s payload_size file ln, hdrs s = hs ->
      find_freed_block_loop fuel p required_size payload_size file ln s
      = find_freed_block_loop 1 q required_size payload_size file ln s.
Proof.
  induction 1 as [p Hp Hst Hsz|p q Hp Hfit _ [n IH]].
  - exists 1%nat. intros [|fuel] Hle; [lia|]. intros s payload_size file ln Hs.
    cbn [find_freed_block_loop].
    apply Z.eqb_neq in Hp. rewrite Hp.
    apply Z.leb_le in Hsz.
    unfold bind, load. rewrite Hs, Hst, Hsz, Z.eqb_refl.
    reflexivity.
  - exists (S n). intros [|fuel] Hle; [lia|]. intros s payload_size file ln Hs.
    cbn [find_freed_block_loop].
    apply Z.eqb_neq in Hp. rewrite Hp.
    unfold bind at 1, load at 1. rewrite Hs, Hfit.
    apply IH; [lia|assumption].
Qed.

Lemma write_marker_cons m ptr c mk :
  write_marker m ptr (c :: mk) = write_marker (upd m ptr c) (ptr + 1) mk.
Proof. reflexivity. Qed.

Lemma check_marker_cons m ptr c mk :
  check_marker m ptr (c :: mk)
  = if negb (m ptr =? c) then false else check_marker m (ptr + 1) mk.
Proof. reflexivity. Qed.

Lemma write_marker_frame m ptr mk a :
  a < ptr -> write_marker m ptr mk a = m a.
Proof.
  revert m ptr. induction mk as [|c mk IH]; intros m ptr Hlt; [reflexivity|].
  rewrite write_marker_cons, IH by lia. apply upd_other. lia.
Qed.

Lemma check_write_marker m ptr mk :
  check_marker (write_marker m ptr mk) ptr mk = true.
Proof.
  revert m ptr. induction mk as [|c mk IH]; intros m ptr; [reflexivity|].
  rewrite write_marker_cons, check_marker_cons.
  rewrite write_marker_frame by lia. rewrite upd_same, Z.eqb_refl. cbn [negb].
  apply IH.
Qed.

Lemma find_free_space_frontier fuel bsz payload_size file ln s :
  bsz <= wrap (size (default_buffer s) - pos (default_buffer s)) ->
  let p := buffer (default_buffer s) + pos (default_buffer s) in
  exists s',
    find_free_space fuel bsz payload_size file ln s = Ret (p + sizeof_header) s' /\
    head s' = p /\
    pos (default_buffer s') = wrap (pos (default_buffer s) + bsz) /\
    p_status (hdrs s' p) = ALLOCATED /\
    block_size (hdrs s' p) = bsz /\
    p_payload (hdrs s' p) = p + sizeof_header /\
    p_end_marker (hdrs s' p) = p + sizeof_header + payload_size /\
    p_next (hdrs s' p) = head s /\
    check_marker (mem s') (p + sizeof_header + payload_size) END_MARKER = true.
Proof.
  intros Hroom p. subst p.
  apply (wp_intro (find_free_space fuel bsz payload_size file ln) s
           (fun o => exists s', o = Ret _ s' /\ _)).
  unfold find_free_space.
  wp_run st_simp. wp_split; wp_run st_simp.
  all: st_simp; eexists; split; [reflexivity|]; st_simp.
  all: repeat split; try reflexivity; try apply check_write_marker.
Qed.

Lemma find_freed_block_split bsz payload_size file ln s q :
  q <> NULL -> p_status (hdrs s q) = FREE -> bsz <= block_size (hdrs s q) ->
  0 < bsz ->
  MIN_BLOCK_SIZE <= wrap (block_size (hdrs s q) - bsz) ->
  p_prev (hdrs s q) <> q -> p_prev (hdrs s q) <> q + bsz ->
  exists s',
    find_freed_block_loop 1 q bsz payload_size file ln s = Ret (q + sizeof_header) s' /\
    hdrs s' (q + bsz)
      = mkHeader (wrap (block_size (hdrs s q) - bsz)) (q + bsz + sizeof_header) NULL FREE
                 file ln q (p_prev (hdrs s q)) /\
    hdrs s' q
      = mkHeader bsz (q + sizeof_header) (q + sizeof_header + payload_size) ALLOCATED
                 file ln (p_next (hdrs s q)) (q + bsz) /\
    (p_prev (hdrs s q) <> NULL -> p_next (hdrs s' (p_prev (hdrs s q))) = q + bsz) /\
    check_marker (mem s') (q + sizeof_header + payload_size) END_MARKER = true /\
    head s' = head s /\ default_buffer s' = default_buffer s /\ gstats s' = gstats s.
Proof.
  intros Hq Hst Hsz Hb Hres Hp1 Hp2.
  apply (wp_intro (find_freed_block_loop 1 q bsz payload_size file ln) s
           (fun o => exists s', o = Ret _ s' /\ _)).
  cbn [find_freed_block_loop].
  wp_run ltac:(st_simp; rewrite ?Hst).
  wp_split; wp_run st_simp.
  all: st_simp; eexists; split; [reflexivity|]; st_simp.
  all: repeat split; try reflexivity; try apply check_write_marker.
  intros Hn. apply negb_false_iff, Z.eqb_eq in Heqb. contradiction.
Qed.

Lemma find_freed_block_whole bsz payload_size file ln s q :
  q <> NULL -> p_status (hdrs s q) = FREE -> bsz <= block_size (hdrs s q) ->
  wrap (block_size (hdrs s q) - bsz) < MIN_BLOCK_SIZE ->
  exists s',
    find_freed_block_loop 1 q bsz payload_size file ln s = Ret (q + sizeof_header) s' /\
    hdrs s' q
      = mkHeader (block_size (hdrs s q)) (q + sizeof_header)
                 (q + sizeof_header + payload_size) ALLOCATED
                 file ln (p_next (hdrs s q)) (p_prev (hdrs s q)) /\
    (forall x, x <> q -> hdrs s' x = hdrs s x) /\
    check_marker (mem s') (q + sizeof_header + payload_size) END_MARKER = true /\
    head s' = head s /\ default_buffer s' = default_buffer s /\ gstats s' = gstats s.
Proof.
  intros Hq Hst Hsz Hres.
  apply (wp_intro (find_freed_block_loop 1 q bsz payload_size file ln) s
           (fun o => exists s', o = Ret _ s' /\ _)).
  cbn [find_freed_block_loop].
  wp_run ltac:(st_simp; rewrite ?Hst).
  st_simp; eexists; split; [reflexivity|]; st_simp.
  repeat split; try reflexivity; try apply check_write_marker.
  intros x Hx. lookup_simp. reflexivity.
Qed.

(** C7: [find_free_space] carves at the arena frontier whenever the
    remaining capacity is at least the block size, and only otherwise runs
    [find_freed_block].  That scan stops at the first [FREE] block [q] of at
    least the required size and allocates it; when the leftover is at least
    [MIN_BLOCK_SIZE] a [FREE] block of the leftover size is written at
    [q + bsz] and linked directly before [q] ([p_next] is [q], [p_prev] is
    the old predecessor of [q], whose [p_next] now is the new block), and [q]
    shrinks to [bsz]; when the leftover is smaller [q] keeps its size and
    nothing else changes. *)
Theorem find_free_space_policy (s : state) (bsz payload_size : Z) (file : string) (ln : Z)
    (q : Z) :
  (bsz <= wrap (size (default_buffer s) - pos (default_buffer s)) ->
   forall fuel,
   let p := buffer (default_buffer s) + pos (default_buffer s) in
   exists s',
     find_free_space fuel bsz payload_size file ln s = Ret (p + sizeof_header) s' /\
     head s' = p /\
     pos (default_buffer s') = wrap (pos (default_buffer s) + bsz) /\
     p_status (hdrs s' p) = ALLOCATED /\
     block_size (hdrs s' p) = bsz /\
     p_payload (hdrs s' p) = p + sizeof_header /\
     p_end_marker (hdrs s' p) = p + sizeof_header + payload_size /\
     p_next (hdrs s' p) = head s /\
     check_marker (mem s') (p + sizeof_header + payload_size) END_MARKER = true) /\
  (wrap (size (default_buffer s) - pos (default_buffer s)) < bsz ->
   forall fuel,
     find_free_space fuel bsz payload_size file ln s
     = find_freed_block fuel bsz payload_size file ln s) /\
  (first_fit (hdrs s) bsz (head s) q -> 0 < bsz ->
   MIN_BLOCK_SIZE <= wrap (block_size (hdrs s q) - bsz) ->
   p_prev (hdrs s q) <> q -> p_prev (hdrs s q) <> q + bsz ->
   exists n, forall fuel, (n <= fuel)%nat ->
   exists s',
     find_freed_block fuel bsz payload_size file ln s = Ret (q + sizeof_header) s' /\
     hdrs s' (q + bsz)
       = mkHeader (wrap (block_size (hdrs s q) - bsz)) (q + bsz + sizeof_header) NULL FREE
                  file ln q (p_prev (hdrs s q)) /\
     hdrs s' q
       = mkHeader bsz (q + sizeof_header) (q + sizeof_header + payload_size) ALLOCATED
                  file ln (p_next (hdrs s q)) (q + bsz) /\
     (p_prev (hdrs s q) <> NULL -> p_next (hdrs s' (p_prev (hdrs s q))) = q + bsz) /\
     check_marker (mem s') (q + sizeof_header + payload_size) END_MARKER = true /\
     head s' = head s /\ default_buffer s' = default_buffer s /\ gstats s' = gstats s) /\
  (first_fit (hdrs s) bsz (head s) q ->
   wrap (block_size (hdrs s q) - bsz) < MIN_BLOCK_SIZE ->
   exists n, forall fuel, (n <= fuel)%nat ->
   exists s',
     find_freed_block fuel bsz payload_size file ln s = Ret (q + sizeof_header) s' /\
     hdrs s' q
       = mkHeader (block_size (hdrs s q)) (q + sizeof_header)
                  (q + sizeof_header + payload_size) ALLOCATED
                  file ln (p_next (hdrs s q)) (p_prev (hdrs s q)) /\
     (forall x, x <> q -> hdrs s' x = hdrs s x) /\
     check_marker (mem s') (q + sizeof_header + payload_size) END_MARKER = true /\
     head s' = head s /\ default_buffer s' = default_buffer s /\ gstats s' = gstats s).
Proof.
  assert (Hfound : forall hs p, first_fit hs bsz p q ->
            q <> NULL /\ p_status (hs q) = FREE /\ bsz <= block_size (hs q)).
  { induction 1; auto. }
  split; [|split; [|split]].
  - intros Hroom fuel. apply find_free_space_frontier. exact Hroom.
  - intros Hroom fuel. unfold find_free_space.
    unfold bind at 1, get_state at 1.
    apply Z.leb_gt in Hroom. rewrite Hroom. reflexivity.
  - intros Hff Hb Hres Hp1 Hp2.
    destruct (Hfound _ _ Hff) as (Hq & Hst & Hsz).
    destruct (find_freed_block_loop_first_fit _ _ _ _ Hff) as [n Hn].
    exists n. intros fuel Hle.
    unfold find_freed_block, bind at 1, get_head at 1.
    rewrite (Hn fuel Hle s payload_size file ln eq_refl).
    apply find_freed_block_split; assumption.
  - intros Hff Hres.
    destruct (Hfound _ _ Hff) as (Hq & Hst & Hsz).
    destruct (find_freed_block_loop_first_fit _ _ _ _ Hff) as [n Hn].
    exists n. intros fuel Hle.
    unfold find_freed_block, bind at 1, get_head at 1.
    rewrite (Hn fuel Hle s payload_size file ln eq_refl).
    apply find_freed_block_whole; assumption.
Qed.



Lemma find_free_space_policy_witness :
  (exists s',
     find_free_space 0 176 100 "test.cc" 8 (init_state 4096) = Ret 4160 s' /\
     head s' = 4096 /\ p_status (hdrs s' 4096) = ALLOCATED) /\
  (forall fuel,
     find_free_space fuel 176 100 "test.cc" 8 full_arena_big_hole
     = find_freed_block fuel 176 100 "test.cc" 8 full_arena_big_hole) /\
  (exists n, forall fuel, (n <= fuel)%nat ->
   exists s',
     find_freed_block fuel 176 100 "test.cc" 8 full_arena_big_hole = Ret 4160 s' /\
     hdrs s' 4272 = mkHeader 4194128 4336 NULL FREE "test.cc" 8 4096 4198400 /\
     block_size (hdrs s' 4096) = 176 /\
     p_next (hdrs s' 4198400) = 4272) /\
  (exists n, forall fuel, (n <= fuel)%nat ->
   exists s',
     find_freed_block fuel 176 100 "test.cc" 8 full_arena_small_hole = Ret 4160 s' /\
     p_status (hdrs s' 4096) = ALLOCATED /\ block_size (hdrs s' 4096) = 176).
Proof.
  assert (Hbig : first_fit (hdrs full_arena_big_hole) 176 (head full_arena_big_hole) 4096).
  { apply first_fit_skip; [vm_compute; discriminate | vm_compute; reflexivity |].
    replace (p_next _) with 4096 by (vm_compute; reflexivity).
    apply first_fit_here; [vm_compute; discriminate | vm_compute; reflexivity
                          | vm_compute; discriminate]. }
  assert (Hsmall : first_fit (hdrs full_arena_small_hole) 176 (head full_arena_small_hole) 4096).
  { apply first_fit_skip; [vm_compute; discriminate | vm_compute; reflexivity |].
    replace (p_next _) with 4096 by (vm_compute; reflexivity).
    apply first_fit_here; [vm_compute; discriminate | vm_compute; reflexivity
                          | vm_compute; discriminate]. }
  split; [|split; [|split]].
  - destruct (proj1 (find_free_space_policy (init_state 4096) 176 100 "test.cc" 8 0)
                ltac:(vm_compute; discriminate) 0%nat)
      as (s' & E & Hh & _ & Hst & _).
    exists s'. split; [exact E|]. split; [exact Hh|exact Hst].
  - apply (proj1 (proj2 (find_free_space_policy full_arena_big_hole 176 100 "test.cc" 8 0))).
    vm_compute; reflexivity.
  - destruct (proj1 (proj2 (proj2
                (find_free_space_policy full_arena_big_hole 176 100 "test.cc" 8 4096)))
              Hbig ltac:(lia) ltac:(vm_compute; discriminate)
              ltac:(vm_compute; discriminate) ltac:(vm_compute; discriminate))
      as (n & Hn).
    exists n. intros fuel Hle. destruct (Hn fuel Hle) as (s' & E & Hnew & Hq & Hprev & _).
    exists s'. split; [exact E|]. split; [|split].
    + change (hdrs s' 4272) with (hdrs s' (4096 + 176)).
      rewrite Hnew. vm_compute. reflexivity.
    + rewrite Hq. reflexivity.
    + replace 4198400 with (p_prev (hdrs full_arena_big_hole 4096))
        by (vm_compute; reflexivity).
      rewrite Hprev; [reflexivity | vm_compute; discriminate].
  - destruct (proj2 (proj2 (proj2
                (find_free_space_policy full_arena_small_hole 176 100 "test.cc" 8 4096)))
              Hsmall ltac:(vm_compute; reflexivity))
      as (n & Hn).
    exists n. intros fuel Hle. destruct (Hn fuel Hle) as (s' & E & Hq & _).
    exists s'. split; [exact E|]. rewrite Hq. split; [reflexivity | vm_compute; reflexivity].
Defined.

(** ** Alignment of blocks (claim C10) *)

Lemma mod16_add a b : a mod 16 = 0 -> b mod 16 = 0 -> (a + b) mod 16 = 0.
Proof. intros Ha Hb. rewrite Z.add_mod, Ha, Hb by lia. reflexivity. Qed.

Lemma mod16_sub a b : a mod 16 = 0 -> b mod 16 = 0 -> (a - b) mod 16 = 0.
Proof. intros Ha Hb. rewrite Zminus_mod, Ha, Hb. reflexivity. Qed.

Lemma wrap_aligned z : z mod ALIGNMENT = 0 -> wrap z mod ALIGNMENT = 0.
Proof. unfold ALIGNMENT. rewrite wrap_mod16. auto. Qed.

Lemma block_size_for_aligned sz : block_size_for sz mod ALIGNMENT = 0.
Proof.
  unfold block_size_for, ALIGNMENT. rewrite wrap_mod16.
  unfold padding_for, ALIGNMENT, sizeof_END_MARKER.
  set (w := wrap (sizeof_header + sz)).
  assert (Hw := Z.mod_pos_bound w 16 ltac:(lia)).
  assert (E : (w + (16 - w mod 16)) mod 16 = 0).
  { rewrite (Z.div_mod w 16) at 1 by lia.
    replace (16 * (w / 16) + w mod 16 + (16 - w mod 16)) with ((w / 16 + 1) * 16) by lia.
    apply Z.mod_mul. lia. }
  destruct (16 - w mod 16 <? 8).
  - rewrite wrap_small by lia.
    replace (w + (16 - w mod 16 + 16)) with ((w + (16 - w mod 16)) + 16) by lia.
    apply mod16_add; [exact E|reflexivity].
  - exact E.
Qed.

Lemma tagged_upd_hdr hs a f x :
  (forall h, tagged h -> tagged (f h)) -> tagged (hs x) -> tagged (upd_hdr hs a f x).
Proof. intros Hf Hx. unfold upd_hdr. destruct (x =? a); auto. Qed.

Lemma hdrs_aligned_weaken (ex ex' : Z -> Prop) hs :
  (forall a, ex a -> ex' a) -> hdrs_aligned ex hs -> hdrs_aligned ex' hs.
Proof.
  intros Hex H a Ha. destruct (H a Ha) as (H1 & H2 & H3).
  repeat split; auto. destruct H3 as [H3|H3]; auto.
Qed.

(** Stores that touch neither the status, the block size nor [p_next]. *)
Lemma peel_neutral ex hs a f :
  (forall h, p_status (f h) = p_status h /\ block_size (f h) = block_size h /\
             p_next (f h) = p_next h) ->
  hdrs_aligned ex hs -> hdrs_aligned ex (upd_hdr hs a f).
Proof.
  intros Hf H x Hx.
  assert (Hst : forall y, p_status (upd_hdr hs a f y) = p_status (hs y))
    by (intros y; apply upd_hdr_p_status; intro h; apply Hf).
  assert (Hx' : tagged (hs x)) by (unfold tagged in *; rewrite Hst in Hx; exact Hx).
  destruct (H x Hx') as (H1 & H2 & H3).
  rewrite upd_hdr_block_size by (intro h; apply Hf).
  rewrite upd_hdr_p_next by (intro h; apply Hf).
  repeat split; auto.
  destruct H3 as [H3|[H3|H3]]; auto.
  right; right. unfold tagged. rewrite Hst. exact H3.
Qed.

Lemma peel_block_size ex hs a v :
  v mod ALIGNMENT = 0 ->
  hdrs_aligned ex hs -> hdrs_aligned ex (upd_hdr hs a (set_block_size v)).
Proof.
  intros Hv H x Hx.
  assert (Hst : forall y, p_status (upd_hdr hs a (set_block_size v) y) = p_status (hs y))
    by (intros y; apply upd_hdr_p_status; intro h; reflexivity).
  assert (Hx' : tagged (hs x)) by (unfold tagged in *; rewrite Hst in Hx; exact Hx).
  destruct (H x Hx') as (H1 & H2 & H3).
  rewrite upd_hdr_p_next by (intro h; reflexivity).
  split; [exact H1|]. split.
  - unfold upd_hdr. destruct (x =? a); [exact Hv|exact H2].
  - destruct H3 as [H3|[H3|H3]]; auto.
    right; right. unfold tagged. rewrite Hst. exact H3.
Qed.

(** Setting [p_next] of [a] settles the exemption of [a]. *)
Lemma peel_next ex hs a v :
  v = NULL \/ tagged (hs v) ->
  hdrs_aligned (fun x => ex x \/ x = a) hs ->
  hdrs_aligned ex (upd_hdr hs a (set_p_next v)).
Proof.
  intros Hv H x Hx.
  assert (Hst : forall y, p_status (upd_hdr hs a (set_p_next v) y) = p_status (hs y))
    by (intros y; apply upd_hdr_p_status; intro h; reflexivity).
  assert (Hx' : tagged (hs x)) by (unfold tagged in *; rewrite Hst in Hx; exact Hx).
  destruct (H x Hx') as (H1 & H2 & H3).
  rewrite upd_hdr_block_size by (intro h; reflexivity).
  split; [exact H1|]. split; [exact H2|].
  assert (Hnx : p_next (upd_hdr hs a (set_p_next v) x) = if x =? a then v else p_next (hs x))
    by (unfold upd_hdr; destruct (x =? a); reflexivity).
  rewrite Hnx. unfold tagged. rewrite Hst.
  destruct (x =? a) eqn:E.
  - right. exact Hv.
  - destruct H3 as [[H3|H3]|H3]; auto.
    apply Z.eqb_neq in E. contradiction.
Qed.

(** Tagging the header at [a]. *)
Lemma peel_status ex hs a t :
  t = FREE \/ t = ALLOCATED ->
  a mod ALIGNMENT = 0 -> block_size (hs a) mod ALIGNMENT = 0 ->
  ex a \/ tagged (hs a) ->
  hdrs_aligned ex hs -> hdrs_aligned ex (upd_hdr hs a (set_p_status t)).
Proof.
  intros Ht Ha Hb Hex H x Hx.
  assert (Htag : forall y, tagged (hs y) -> tagged (upd_hdr hs a (set_p_status t) y)).
  { intros y Hy. apply tagged_upd_hdr; [|exact Hy]. intros h _. exact Ht. }
  rewrite upd_hdr_block_size by (intro h; reflexivity).
  rewrite upd_hdr_p_next by (intro h; reflexivity).
  destruct (Z.eq_dec x a) as [->|Hne].
  - split; [exact Ha|]. split; [exact Hb|].
    destruct Hex as [Hex|Hex]; [left; exact Hex|].
    destruct (H a Hex) as (_ & _ & [H3|[H3|H3]]); auto.
  - rewrite upd_hdr_other in Hx by exact Hne.
    destruct (H x Hx) as (H1 & H2 & H3).
    repeat split; auto. destruct H3 as [H3|[H3|H3]]; auto.
Qed.

Ltac setter_ok := let h := fresh "h" in intro h; repeat split; reflexivity.

Ltac tag_mono :=
  repeat (apply tagged_upd_hdr;
          [ let h := fresh "h" in let Ht := fresh "Ht" in
            intros h Ht; unfold tagged in *; cbn [p_status set_block_size set_p_payload
              set_p_end_marker set_p_status set_p_file set_line set_p_next set_p_prev];
            auto | ]).

(** Peeling the stores of a symbolic header store, outermost first. *)
Ltac peel side :=
  repeat lazymatch goal with
  | |- hdrs_aligned _ (upd_hdr _ _ (set_p_prev _)) => apply peel_neutral; [setter_ok|]
  | |- hdrs_aligned _ (upd_hdr _ _ (set_p_payload _)) => apply peel_neutral; [setter_ok|]
  | |- hdrs_aligned _ (upd_hdr _ _ (set_p_file _)) => apply peel_neutral; [setter_ok|]
  | |- hdrs_aligned _ (upd_hdr _ _ (set_line _)) => apply peel_neutral; [setter_ok|]
  | |- hdrs_aligned _ (upd_hdr _ _ (set_p_end_marker _)) => apply peel_neutral; [setter_ok|]
  | |- hdrs_aligned _ (upd_hdr _ _ (set_block_size _)) => apply peel_block_size; [side|]
  | |- hdrs_aligned _ (upd_hdr _ _ (set_p_next _)) => apply peel_next; [side|]
  | |- hdrs_aligned _ (upd_hdr _ _ (set_p_status _)) => apply peel_status; [side ..|]
  end.

Ltac peel_base Ha :=
  eapply hdrs_aligned_weaken; [|exact Ha];
  let x := fresh "x" in let Hx := fresh "Hx" in
  intros x Hx; unfold no_exemption in *; tauto.

Ltac tag_or F :=
  let E := fresh "E" in let T := fresh "T" in
  destruct F as [E|T]; [left; exact E | right; tag_mono; exact T].

Lemma wp_and {A} (m : M A) s (Q1 Q2 : outcome A -> Prop) :
  wp m s Q1 -> wp m s Q2 -> wp m s (fun o => Q1 o /\ Q2 o).
Proof. unfold wp; auto. Qed.

Lemma returns_and {A} (R1 R2 : A -> state -> Prop) (o : outcome A) :
  returns R1 o /\ returns R2 o -> returns (fun a s => R1 a s /\ R2 a s) o.
Proof. destruct o; cbn; tauto. Qed.

Lemma remove_block_aligned p s :
  aligned_heap s -> p = NULL \/ tagged (hdrs s p) ->
  wp (remove_block p) s (returns (fun _ s' => aligned_heap s' /\ tags_frame s s')).
Proof.
  intros Hinv Htag.
  eapply wp_conseq; [|intros o; apply returns_and].
  apply wp_and; [|apply remove_block_frame, tags_frame_refl].
  destruct Hinv as (Hb & Hp & Hh & Ha).
  unfold remove_block.
  wp_auto; wp_leaf idtac.
  all: unfold aligned_heap; proj_red.
  all: split; [exact Hb|]; split; [exact Hp|].
  all: try (split; assumption).
  all: apply orb_false_iff in Heqb; destruct Heqb as [_ Hpn]; apply Z.eqb_neq in Hpn.
  all: destruct Htag as [Htag|Htag]; [contradiction|].
  all: destruct (Ha p Htag) as (_ & _ & [[]|Hcl]).
  all: split; [first [tag_or Hcl | tag_or Hh]|].
  all: peel ltac:(first [assumption | tag_or Hcl]); try peel_base Ha.
Qed.

Ltac stop_rb h := first [ stop_loops h | constr_eq h remove_block ].

Ltac wp_auto_rb :=
  repeat first [ wp_step_gen st_simp ltac:(st_simp; bsolve) stop_rb | wp_split ].

Lemma tagged_free h : (p_status h =? FREE) = true -> tagged h.
Proof. intros H. apply Z.eqb_eq in H. left. exact H. Qed.

Lemma tags_frame_tagged s0 s x : tags_frame s0 s -> tagged (hdrs s0 x) -> tagged (hdrs s x).
Proof. intros (Hf & _) H. unfold tagged in *. destruct (Hf x) as (-> & _). exact H. Qed.

Lemma tags_frame_trans s0 s1 s2 : tags_frame s0 s1 -> tags_frame s1 s2 -> tags_frame s0 s2.
Proof.
  intros (Hf1 & Hm1 & Hg1 & He1) (Hf2 & Hm2 & Hg2 & He2).
  split; [|repeat split; congruence].
  intros x. destruct (Hf1 x) as (A1 & A2 & A3), (Hf2 x) as (B1 & B2 & B3).
  repeat split; congruence.
Qed.

Ltac bool_hyps :=
  repeat match goal with
  | H : negb _ = false |- _ => apply negb_false_iff in H
  | H : negb _ = true |- _ => apply negb_true_iff in H
  end.

Ltac tagged_now :=
  first [ assumption | apply tagged_free; assumption
        | eapply tags_frame_tagged; [eassumption|]; first [assumption | apply tagged_free; assumption] ].

Ltac size_aligned Ha :=
  apply wrap_aligned; unfold ALIGNMENT;
  first [ apply mod16_add | apply mod16_sub ];
  (refine (proj1 (proj2 (Ha _ _))); tagged_now).

Lemma coalesce_down_aligned p s :
  aligned_heap s -> tagged (hdrs s p) ->
  wp (down <- can_coalesce_down p;;
      when_ down
        (h <- load p;;
         hn <- load (p_next h);;
         store_field (p_next h) (set_block_size (wrap (block_size hn + block_size h)));;;
         remove_block p))%m61 s
     (returns (fun _ s' => aligned_heap s' /\ tags_frame s s')).
Proof.
  intros Hinv Htag.
  wp_auto_rb; wp_leaf ltac:(split; [exact Hinv|apply tags_frame_refl]).
  all: destruct Hinv as (Hb & Hp & Hh & Ha); bool_hyps.
  all: eapply wp_conseq;
    [ apply remove_block_aligned;
      [ unfold aligned_heap; proj_red;
        split; [exact Hb|]; split; [exact Hp|];
        split; [tag_or Hh|]; peel ltac:(size_aligned Ha); exact Ha
      | right; tag_mono; exact Htag ]
    | intros [[] s'|s'|] Hr; cbn [returns] in *; auto ].
  all: destruct Hr as [Hi Hf]; split; [exact Hi|].
  all: eapply tags_frame_trans; [|exact Hf].
  all: split; [|repeat split; reflexivity].
  all: intro x; proj_red; lookup_simp; auto.
Qed.

Lemma wp_unbind {A B} (m : M A) (k : A -> M B) s Q :
  wp (bind m k) s Q -> wp m s (wp_k k Q).
Proof. unfold wp, wp_k, bind. destruct (m s); auto. Qed.

Ltac stop_up h := first [ stop_rb h | constr_eq h can_coalesce_down ].

Lemma coalesce_aligned p s :
  aligned_heap s -> tagged (hdrs s p) ->
  wp (coalesce p) s (returns (fun _ s' => aligned_heap s' /\ tags_frame s s')).
Proof.
  intros Hinv Htag. unfold coalesce.
  repeat first [ wp_step_gen st_simp ltac:(st_simp; bsolve) stop_up | wp_split ];
    wp_leaf idtac.
  1-2: apply wp_unbind, coalesce_down_aligned; assumption.
  destruct Hinv as (Hb & Hp & Hh & Ha); bool_hyps.
  eapply wp_conseq;
    [ apply remove_block_aligned;
      [ unfold aligned_heap; proj_red;
        split; [exact Hb|]; split; [exact Hp|];
        split; [tag_or Hh|]; peel ltac:(size_aligned Ha); exact Ha
      | right; tag_mono; tagged_now ]
    | intros [[] s'|s'|] Hr; cbn [returns] in *; [|wp_run idtac; exact I ..] ].
  destruct Hr as [Hi Hf].
  apply wp_k_ret. cbv beta.
  assert (Hf0 : tags_frame s s').
  { eapply tags_frame_trans; [|exact Hf].
    split; [|repeat split; reflexivity].
    intro x; proj_red; lookup_simp; auto. }
  eapply wp_conseq; [apply coalesce_down_aligned;
                     [exact Hi | eapply tags_frame_tagged; [exact Hf0|exact Htag]]|].
  intros [[] s2|s2|] Hr; cbn [returns] in *; auto.
  destruct Hr as [Hi2 Hf2]. split; [exact Hi2|].
  eapply tags_frame_trans; eassumption.
Qed.

Lemma move_buffer_pos_aligned s :
  aligned_heap s ->
  wp move_buffer_pos s (returns (fun _ s' => aligned_heap s' /\ tags_frame s s')).
Proof.
  intros Hinv. unfold move_buffer_pos.
  wp_auto_rb; wp_leaf ltac:(split; [exact Hinv|apply tags_frame_refl]).
  destruct Hinv as (Hb & Hp & Hh & Ha); bool_hyps.
  apply Z.eqb_neq in Heqb, Heqb0.
  destruct Hh as [Hh|Hh]; [contradiction|].
  assert (Hfree : p_status (hdrs s (head s)) = FREE)
    by (destruct Hh; [assumption|contradiction]).
  eapply wp_conseq;
    [ apply remove_block_aligned;
      [ unfold aligned_heap; proj_red;
        split; [exact Hb|]; split;
        [ apply wrap_aligned; unfold ALIGNMENT; apply mod16_sub;
          [exact Hp | exact (proj1 (proj2 (Ha _ Hh)))]
        | split; [right; exact Hh | exact Ha] ]
      | right; exact Hh ]
    | intros [[] s'|s'|] Hr; cbn [returns] in *; auto ].
Qed.

Lemma tagged_allocated h : (p_status h =? ALLOCATED) = true -> tagged h.
Proof. intros H. apply Z.eqb_eq in H. right. exact H. Qed.

Lemma free_aligned fuel ptr file ln s :
  aligned_heap s ->
  wp (m61_free fuel ptr file ln) s (returns (fun _ s' => aligned_heap s')).
Proof.
  intros Hinv. unfold m61_free.
  repeat first [ wp_step_gen st_simp ltac:(st_simp; bsolve) stop_free | wp_split ];
    wp_leaf ltac:(try exact Hinv).
  - wp_call (@wp_any unit); wp_run st_simp; wp_leaf idtac.
  - destruct Hinv as (Hb & Hp & Hh & Ha); bool_hyps.
    assert (Htag : tagged (hdrs s (ptr - sizeof_header)))
      by (apply tagged_allocated; assumption).
    destruct (Ha _ Htag) as (Hal & Hbs & _).
    wp_call coalesce_aligned.
    + unfold aligned_heap; proj_red.
      split; [exact Hb|]; split; [exact Hp|]; split; [tag_or Hh|].
      peel ltac:(first [ exact Hal | exact Hbs | left; reflexivity
                       | right; tag_mono; exact Htag
                       | lookup_simp; proj_red; exact Hbs ]).
      exact Ha.
    + proj_red. tag_mono. exact Htag.
    + wp_step st_simp. destruct Hcall as [Hi _].
      eapply wp_conseq; [apply move_buffer_pos_aligned; exact Hi|].
      intros [[] s'|s'|] Hr; cbn [returns] in *; auto. apply Hr.
Qed.

Ltac tagged_solve :=
  st_simp;
  first [ tagged_now
        | unfold tagged; st_simp; solve [auto]
        | tag_mono; tagged_now ].

Ltac aligned_side Hh Ha :=
  bool_hyps;
  first
    [ assumption
    | left; reflexivity
    | right; reflexivity
    | left; cbv beta; unfold no_exemption; tauto
    | tag_or Hh
    | right; tag_mono; tagged_now
    | right; unfold tagged; lookup_simp; proj_red; solve [auto]
    | refine (proj1 (Ha _ _)); tagged_now
    | lookup_simp; proj_red;
      first [ assumption
            | refine (proj1 (proj2 (Ha _ _))); tagged_now
            | size_aligned Ha
            | apply wrap_aligned; unfold ALIGNMENT; apply mod16_sub;
              [ refine (proj1 (proj2 (Ha _ _))); tagged_now | assumption ] ]
    | unfold ALIGNMENT in *; apply mod16_add;
      first [ assumption | refine (proj1 (Ha _ _)); tagged_now ] ].

Lemma find_freed_block_loop_aligned fuel required_size payload_size file ln :
  required_size mod ALIGNMENT = 0 -> required_size <> 0 ->
  forall p s, aligned_heap s ->
    wp (find_freed_block_loop fuel p required_size payload_size file ln) s
       (returns (fun q s' =>
          aligned_heap s' /\ (q = NULL \/ tagged (hdrs s' (q - sizeof_header))))).
Proof.
  intros Hreq Hreq0.
  induction fuel as [|fuel IH]; intros p s Hinv; cbn [find_freed_block_loop].
  - wp_run st_simp. exact I.
  - wp_auto; wp_leaf ltac:(st_simp).
    all: try (apply IH; exact Hinv).
    all: try (split; [exact Hinv | left; reflexivity]).
    all: destruct Hinv as (Hb & Hp & Hh & Ha).
    all: apply andb_true_iff in Heqb0; destruct Heqb0 as [Hst Hsz].
    all: split; [|right; tagged_solve].
    all: unfold aligned_heap; proj_red.
    all: split; [exact Hb|]; split; [exact Hp|]; split; [tag_or Hh|].
    all: peel ltac:(aligned_side Hh Ha); peel_base Ha.
Qed.

Lemma find_free_space_aligned fuel bsz payload_size file ln s :
  bsz mod ALIGNMENT = 0 -> bsz <> 0 -> aligned_heap s ->
  wp (find_free_space fuel bsz payload_size file ln) s
     (returns (fun q s' =>
        aligned_heap s' /\ (q = NULL \/ tagged (hdrs s' (q - sizeof_header))))).
Proof.
  intros Hbsz Hbsz0 Hinv. unfold find_free_space.
  wp_run st_simp. wp_split.
  - destruct Hinv as (Hb & Hp & Hh & Ha).
    assert (Hnew : (buffer (default_buffer s) + pos (default_buffer s)) mod ALIGNMENT = 0)
      by (unfold ALIGNMENT in *; apply mod16_add; assumption).
    wp_auto; wp_leaf ltac:(st_simp).
    all: split; [|right; tagged_solve].
    all: unfold aligned_heap; proj_red.
    all: split; [exact Hb|]; split;
           [apply wrap_aligned; unfold ALIGNMENT in *; apply mod16_add; assumption|].
    all: split; [right; tagged_solve|].
    all: peel ltac:(aligned_side Hh Ha); peel_base Ha.
  - unfold find_freed_block. wp_run st_simp.
    apply find_freed_block_loop_aligned; assumption.
Qed.

Lemma malloc_aligned fuel sz file ln s :
  0 <= sz -> aligned_heap s ->
  wp (m61_malloc fuel sz file ln) s
     (returns (fun q s' =>
        aligned_heap s' /\ (q = NULL \/ tagged (hdrs s' (q - sizeof_header))))).
Proof.
  intros Hsz Hinv. unfold m61_malloc. wp_split.
  - wp_run st_simp. cbn [returns]. split; [exact Hinv | left; reflexivity].
  - wp_call find_free_space_aligned;
      [apply block_size_for_aligned | apply block_size_for_positive; assumption
      | exact Hinv |].
    destruct Hcall as [Hi Ht].
    wp_step st_simp. wp_split; wp_run st_simp; cbn [returns]; proj_red.
    + split; [exact Hi | left; reflexivity].
    + split; [exact Hi | exact Ht].
Qed.

Lemma calloc_aligned fuel count sz file ln s :
  aligned_heap s ->
  wp (m61_calloc fuel count sz file ln) s
     (returns (fun q s' =>
        aligned_heap s' /\ (q = NULL \/ tagged (hdrs s' (q - sizeof_header))))).
Proof.
  intros Hinv. unfold m61_calloc. wp_split.
  - wp_run st_simp. cbn [returns]. split; [exact Hinv | left; reflexivity].
  - wp_call malloc_aligned; [apply wrap_range | exact Hinv |].
    destruct Hcall as [Hi Ht].
    unfold memset. wp_auto; cbn [returns]; proj_red.
    all: split; [exact Hi | exact Ht].
Qed.

Ltac stop_mf h := first [ stop_loops h | constr_eq h m61_free ].

Lemma realloc_aligned fuel ptr sz file ln s :
  0 <= sz -> aligned_heap s ->
  wp (m61_realloc fuel ptr sz file ln) s
     (returns (fun q s' =>
        aligned_heap s' /\ (q = NULL \/ (q - sizeof_header) mod ALIGNMENT = 0))).
Proof.
  intros Hsz Hinv. unfold m61_realloc. wp_split.
  - wp_run st_simp. cbn [returns]. split; [exact Hinv | left; reflexivity].
  - wp_call malloc_aligned; [exact Hsz | exact Hinv |].
    destruct Hcall as [Hi Ht].
    assert (Hq : a = NULL \/ (a - sizeof_header) mod ALIGNMENT = 0).
    { destruct Ht as [Ht|Ht]; [left; exact Ht|right].
      destruct Hi as (_ & _ & _ & Ha). exact (proj1 (Ha _ Ht)). }
    unfold realloc_copy_size, get_payload_size, memcpy.
    repeat first [ wp_step_gen st_simp ltac:(st_simp; bsolve) stop_mf | wp_split ];
      wp_leaf ltac:(split; [exact Hi | exact Hq]).
    all: wp_call free_aligned; [exact Hi|].
    all: wp_run st_simp; cbn [returns]; split; [exact Hcall | exact Hq].
Qed.

Lemma run_call_aligned fuel c s :
  well_typed_call c -> aligned_heap s ->
  wp (run_call fuel c) s
     (returns (fun q s' =>
        aligned_heap s' /\ (q = NULL \/ (q - sizeof_header) mod ALIGNMENT = 0))).
Proof.
  intros Hc Hinv.
  assert (Hweak : forall o : outcome Z,
            returns (fun q s' => aligned_heap s' /\
                                 (q = NULL \/ tagged (hdrs s' (q - sizeof_header)))) o ->
            returns (fun q s' => aligned_heap s' /\
                                 (q = NULL \/ (q - sizeof_header) mod ALIGNMENT = 0)) o).
  { intros [q s'| |]; cbn [returns]; auto. intros [Hi [Hq|Hq]]; split; auto.
    right. destruct Hi as (_ & _ & _ & Ha). exact (proj1 (Ha _ Hq)). }
  destruct c as [sz file ln|ptr file ln|count sz file ln|ptr sz file ln];
    cbn [run_call well_typed_call] in *.
  - eapply wp_conseq; [apply malloc_aligned; [lia|exact Hinv]|exact Hweak].
  - wp_call free_aligned; [exact Hinv|].
    wp_run st_simp. cbn [returns]. split; [exact Hcall | left; reflexivity].
  - eapply wp_conseq; [apply calloc_aligned; exact Hinv|exact Hweak].
  - apply realloc_aligned; [lia|exact Hinv].
Qed.

Lemma init_state_aligned buf : buf mod ALIGNMENT = 0 -> aligned_heap (init_state buf).
Proof.
  intros Hbuf. unfold aligned_heap, init_state; proj_red.
  split; [exact Hbuf|]. split; [reflexivity|]. split; [left; reflexivity|].
  intros a [H|H]; cbn in H; unfold FREE, ALLOCATED in H; lia.
Qed.

Lemma reachable_aligned buf s :
  buf mod ALIGNMENT = 0 -> reachable buf s -> aligned_heap s.
Proof.
  intros Hbuf. induction 1 as [|s c fuel r s' _ IH Hc E].
  - apply init_state_aligned, Hbuf.
  - pose proof (run_call_aligned fuel c s Hc IH) as H.
    unfold wp in H. rewrite E in H. apply H.
Qed.

(** C10: in every state reached from a fresh arena at an aligned address,
    every header the allocator has written (carved at the frontier or split
    off a free block) sits at an aligned address and has a block size that
    is a multiple of [ALIGNMENT]; the block size computed for any request
    and the leftover of any split are such multiples; and every non-null
    pointer returned by a call is aligned, as is the header address in front
    of it, so the misalignment test of [is_header_valid] is false for it. *)
Theorem blocks_and_pointers_aligned (buf : Z) (s : state) :
  buf mod ALIGNMENT = 0 -> reachable buf s ->
  (forall sz, block_size_for sz mod ALIGNMENT = 0) /\
  (forall bs required_size, bs mod ALIGNMENT = 0 -> required_size mod ALIGNMENT = 0 ->
     wrap (bs - required_size) mod ALIGNMENT = 0) /\
  (forall a, tagged (hdrs s a) ->
     a mod ALIGNMENT = 0 /\ block_size (hdrs s a) mod ALIGNMENT = 0) /\
  (forall c fuel q s', well_typed_call c -> run_call fuel c s = Ret q s' -> q <> NULL ->
     (q - sizeof_header) mod ALIGNMENT = 0 /\ q mod ALIGNMENT = 0 /\
     negb ((q - sizeof_header) mod ALIGNMENT =? 0) = false).
Proof.
  intros Hbuf Hreach.
  pose proof (reachable_aligned buf s Hbuf Hreach) as Hinv.
  split; [exact block_size_for_aligned|]. split; [|split].
  - intros bs required_size H1 H2. apply wrap_aligned.
    unfold ALIGNMENT in *. apply mod16_sub; assumption.
  - intros a Ha. destruct Hinv as (_ & _ & _ & Hall).
    destruct (Hall a Ha) as (H1 & H2 & _). split; assumption.
  - intros c fuel q s' Hc E Hq.
    pose proof (run_call_aligned fuel c s Hc Hinv) as H.
    unfold wp in H. rewrite E in H. cbn [returns] in H.
    destruct H as [_ [H|H]]; [contradiction|].
    split; [exact H|]. split.
    + replace q with ((q - sizeof_header) + 64) by (unfold sizeof_header; lia).
      unfold ALIGNMENT in *. apply mod16_add; [exact H|reflexivity].
    + rewrite H. reflexivity.
Qed.

Lemma blocks_and_pointers_aligned_witness :
  let s := after (m61_malloc 1 8 "test.cc" 5) (init_state 4096) in
  reachable 4096 s /\
  (tagged (hdrs s 4096) -> 4096 mod ALIGNMENT = 0 /\ block_size (hdrs s 4096) mod ALIGNMENT = 0) /\
  (4240 - sizeof_header) mod ALIGNMENT = 0 /\ 4240 mod ALIGNMENT = 0.
Proof.
  intros s.
  assert (Hreach : reachable 4096 s).
  { apply (reachable_step 4096 (init_state 4096) (CallMalloc 8 "test.cc" 5) 1 4160 s).
    - apply reachable_init.
    - cbn. unfold SIZE_MAX. lia.
    - apply (returned_eq (m61_malloc 1 8 "test.cc" 5) (init_state 4096) 4160).
      vm_compute. reflexivity. }
  destruct (blocks_and_pointers_aligned 4096 s eq_refl Hreach) as (_ & _ & Hall & Hret).
  split; [exact Hreach|]. split; [apply Hall|].
  destruct (Hret (CallMalloc 24 "test.cc" 6) 1%nat 4240 (after (m61_malloc 1 24 "test.cc" 6) s))
    as (H1 & H2 & _).
  - cbn. unfold SIZE_MAX. lia.
  - apply (returned_eq (m61_malloc 1 24 "test.cc" 6) s 4240). vm_compute. reflexivity.
  - unfold NULL. lia.
  - split; assumption.
Defined.

(** ** Coalescing of three neighbours (claim C5) *)

Lemma hdr_of_payload p : p + sizeof_header - sizeof_header = p.
Proof. lia. Qed.

Ltac three_frees_run extra :=
  lazymatch goal with
  | Ha1 : p_status (hdrs ?s ?a) = ALLOCATED, Ha2 : p_payload (hdrs ?s ?a) = _,
    Ha3 : ?a mod ALIGNMENT = 0, Ha5 : check_marker _ (p_end_marker (hdrs ?s ?a)) _ = true,
    Hb1 : p_status (hdrs ?s ?b) = ALLOCATED, Hb2 : p_payload (hdrs ?s ?b) = _,
    Hb3 : ?b mod ALIGNMENT = 0, Hb5 : check_marker _ (p_end_marker (hdrs ?s ?b)) _ = true,
    Hc1 : p_status (hdrs ?s ?c) = ALLOCATED, Hc2 : p_payload (hdrs ?s ?c) = _,
    Hc3 : ?c mod ALIGNMENT = 0, Hc5 : check_marker _ (p_end_marker (hdrs ?s ?c)) _ = true,
    Hd1 : p_status (hdrs ?s ?d) = ALLOCATED, Hdnx : p_next (hdrs ?s ?d) = ?c,
    Hcp : p_prev (hdrs ?s ?c) = ?d, Hcn : p_next (hdrs ?s ?c) = ?b,
    Hbp : p_prev (hdrs ?s ?b) = ?c, Hbn : p_next (hdrs ?s ?b) = ?a,
    Hap : p_prev (hdrs ?s ?a) = ?b, Hanx : p_next (hdrs ?s ?a) = ?e,
    Hh1 : p_status (hdrs ?s (head ?s)) = ALLOCATED |- _ =>
      wp_run ltac:(st_simp; rewrite ?hdr_of_payload; extra;
                   rewrite ?Ha1, ?Ha2, ?Ha3, ?Ha5, ?Hb1, ?Hb2, ?Hb3, ?Hb5,
                     ?Hc1, ?Hc2, ?Hc3, ?Hc5, ?Hd1, ?Hdnx, ?Hcp, ?Hcn, ?Hbp, ?Hbn,
                     ?Hap, ?Hanx, ?Hh1);
      eexists; split; [reflexivity|];
      unfold merged_into; st_simp; extra;
      rewrite ?Ha1, ?Hb1, ?Hc1, ?Hdnx, ?Hcp, ?Hcn, ?Hbp, ?Hbn, ?Hap, ?Hanx
  end.

Lemma wrap_sum3 x y z :
  0 < x -> 0 < y -> 0 < z -> x + y + z <= SIZE_MAX ->
  wrap (wrap (x + y) + z) = x + y + z /\
  wrap (wrap (y + z) + x) = x + y + z /\
  wrap (x + wrap (y + z)) = x + y + z /\
  wrap (wrap (y + x) + z) = x + y + z /\
  wrap (wrap (z + y) + x) = x + y + z /\
  wrap (z + wrap (y + x)) = x + y + z.
Proof.
  intros Hx Hy Hz H. unfold SIZE_MAX in H.
  rewrite !(wrap_small (x + y)), !(wrap_small (y + z)), !(wrap_small (y + x)),
          !(wrap_small (z + y)) by lia.
  rewrite !wrap_small by lia. repeat split; lia.
Qed.

(** C5, as amended: three allocated blocks that are adjacent in memory and
    in the list, with an allocated block above them and an older neighbour
    that is absent or allocated, are freed in any of the six orders; each
    order leaves the lowest block as one free block whose size is the sum of
    the three block sizes, linked between the two neighbours, with the list
    head and the arena frontier unchanged. *)
Theorem three_adjacent_blocks_coalesce (fuel : nat) (s : state) (a b c d e : Z)
    (file : string) (ln : Z) (order : list Z) :
  three_adjacent s a b c d e ->
  In order [ [a + sizeof_header; b + sizeof_header; c + sizeof_header];
             [a + sizeof_header; c + sizeof_header; b + sizeof_header];
             [b + sizeof_header; a + sizeof_header; c + sizeof_header];
             [b + sizeof_header; c + sizeof_header; a + sizeof_header];
             [c + sizeof_header; a + sizeof_header; b + sizeof_header];
             [c + sizeof_header; b + sizeof_header; a + sizeof_header] ] ->
  exists s', free_all fuel order file ln s = Ret tt s' /\ merged_into s s' a b c d e.
Proof.
  intros [Hap0 Hsa Hsb Hsc Hnw Hab Hbc Hcd (Ha1 & Ha2 & Ha3 & Ha4 & Ha5)
          (Hb1 & Hb2 & Hb3 & Hb4 & Hb5) (Hc1 & Hc2 & Hc3 & Hc4 & Hc5)
          Hd1 Hdnx Hcp Hcn Hbp Hbn Hap Hanx He Hhd Hh1] Hin.
  destruct (wrap_sum3 _ _ _ Hsa Hsb Hsc Hnw) as (W1 & W2 & W3 & W4 & W5 & W6).
  clear Hnw.
  apply (wp_intro (free_all fuel order file ln) s
           (fun o => exists s', o = Ret tt s' /\ _)).
  cbn [In] in Hin.
  destruct He as [He|(Hea & Hest & Hep)].
  - destruct Hin as [<-|[<-|[<-|[<-|[<-|[<-|[]]]]]]]; cbn [free_all].
    all: three_frees_run idtac.
    all: repeat split; try assumption; try reflexivity.
    all: intros Hne; contradiction.
  - destruct Hin as [<-|[<-|[<-|[<-|[<-|[<-|[]]]]]]]; cbn [free_all].
    all: three_frees_run ltac:(rewrite ?Hest, ?Hep).
    all: repeat split; try assumption; try reflexivity.
Qed.

(** C5, counterexample: three adjacent allocated blocks that end at the
    arena frontier.  After the three frees the list is empty and the
    frontier is back at 0: no free block with the summed size exists, the
    space has returned to the arena. *)
Lemma three_blocks_at_frontier_leave_no_block :
  p_status (hdrs three_blocks_alone 4096) = ALLOCATED /\
  p_status (hdrs three_blocks_alone 4368) = ALLOCATED /\
  p_status (hdrs three_blocks_alone 4640) = ALLOCATED /\
  4368 = 4096 + block_size (hdrs three_blocks_alone 4096) /\
  4640 = 4368 + block_size (hdrs three_blocks_alone 4368) /\
  returned (free_all 1 [4160; 4432; 4704] "test.cc" 9 three_blocks_alone) = Some tt /\
  head (after (free_all 1 [4160; 4432; 4704] "test.cc" 9) three_blocks_alone) = NULL /\
  pos (default_buffer
         (after (free_all 1 [4160; 4432; 4704] "test.cc" 9) three_blocks_alone)) = 0.
Proof. repeat split; vm_compute; reflexivity. Qed.

Lemma three_adjacent_blocks_coalesce_witness :
  exists s',
    free_all 1 [4432; 4704; 4160] "test.cc" 9 four_blocks = Ret tt s' /\
    p_status (hdrs s' 4096) = FREE /\
    block_size (hdrs s' 4096) = 816 /\
    p_next (hdrs s' 4912) = 4096.
Proof.
  assert (Hfree : forall p, In p [4096; 4368; 4640] -> freeable four_blocks p).
  { intros p [<-|[<-|[<-|[]]]]; unfold freeable; repeat split;
      vm_compute; try reflexivity; discriminate. }
  assert (H : three_adjacent four_blocks 4096 4368 4640 4912 NULL).
  { constructor;
      lazymatch goal with
      | |- freeable _ _ => apply Hfree; cbn [In]; tauto
      | |- _ \/ _ => left; reflexivity
      | |- _ => vm_compute; first [reflexivity | discriminate]
      end. }
  destruct (three_adjacent_blocks_coalesce 1 four_blocks 4096 4368 4640 4912 NULL
              "test.cc" 9 [4432; 4704; 4160] H
              (or_intror (or_intror (or_intror (or_introl eq_refl)))))
    as (s' & E & Hst & Hbs & Hdn & _).
  exists s'. split; [exact E|]. split; [exact Hst|]. split; [|exact Hdn].
  rewrite Hbs. vm_compute. reflexivity.
Defined.

(** ** The heap invariant *)

Arguments unlink : simpl never.

Lemma remove_block_unlink y s :
  head s <> NULL -> y <> NULL ->
  (p_next (hdrs s y) <> NULL -> p_prev (hdrs s (p_next (hdrs s y))) = y) ->
  (p_prev (hdrs s y) <> NULL -> p_next (hdrs s (p_prev (hdrs s y))) = y) ->
  remove_block y s
  = Ret tt (with_head (if y =? head s then p_next (hdrs s y) else head s)
             (with_hdrs (unlink (hdrs s) y) s)).
Proof.
  intros Hh Hy Hn Hp. destruct s as [hs m hd b g e]. cbn [hdrs head] in *.
  apply (wp_intro (remove_block y) _ (fun o => o = Ret tt _)).
  unfold remove_block, unlink.
  wp_run st_simp.
  destruct (y =? hd) eqn:Eh;
  destruct (p_next (hs y) =? NULL) eqn:En;
  destruct (p_prev (hs y) =? NULL) eqn:Ep;
  cbn [negb]; wp_run st_simp;
  try apply Z.eqb_neq in En; try apply Z.eqb_neq in Ep;
  try specialize (Hn En); try specialize (Hp Ep);
  wp_run ltac:(st_simp; rewrite ?Hn, ?Hp); reflexivity.
Qed.

Section UnlinkFields.
Variables (hs : Z -> header) (y z : Z).

Lemma unlink_block_size : block_size (unlink hs y z) = block_size (hs z).
Proof. unfold unlink. destruct (_ =? NULL), (_ =? NULL); st_simp; reflexivity. Qed.

Lemma unlink_p_status : p_status (unlink hs y z) = p_status (hs z).
Proof. unfold unlink. destruct (_ =? NULL), (_ =? NULL); st_simp; reflexivity. Qed.

Lemma unlink_p_payload : p_payload (unlink hs y z) = p_payload (hs z).
Proof. unfold unlink. destruct (_ =? NULL), (_ =? NULL); st_simp; reflexivity. Qed.

Lemma unlink_p_end_marker : p_end_marker (unlink hs y z) = p_end_marker (hs z).
Proof. unfold unlink. destruct (_ =? NULL), (_ =? NULL); st_simp; reflexivity. Qed.

Lemma unlink_p_prev :
  z <> NULL ->
  p_prev (unlink hs y z) = if z =? p_next (hs y) then p_prev (hs y) else p_prev (hs z).
Proof.
  intros Hz. unfold unlink.
  destruct (Z.eqb_spec (p_next (hs y)) NULL) as [En|En],
           (Z.eqb_spec (p_prev (hs y)) NULL) as [Ep|Ep],
           (Z.eqb_spec z (p_next (hs y))) as [E|E];
    st_simp; try reflexivity; congruence.
Qed.

Lemma unlink_p_next :
  z <> NULL ->
  p_next (unlink hs y z) = if z =? p_prev (hs y) then p_next (hs y) else p_next (hs z).
Proof.
  intros Hz. unfold unlink.
  destruct (Z.eqb_spec (p_next (hs y)) NULL) as [En|En],
           (Z.eqb_spec (p_prev (hs y)) NULL) as [Ep|Ep],
           (Z.eqb_spec z (p_prev (hs y))) as [E|E];
    st_simp; try reflexivity; congruence.
Qed.
End UnlinkFields.

(** What the geometry says about one node. *)
Lemma node_pos s N x : heap_geometry s N -> N x -> 0 < x.
Proof. intros G Hx. pose proof (hg_buffer _ _ G). destruct (hg_node _ _ G x Hx). lia. Qed.

Lemma node_above s N x :
  heap_geometry s N -> N x -> p_prev (hdrs s x) <> NULL ->
  N (p_prev (hdrs s x)) /\ p_next (hdrs s (p_prev (hdrs s x))) = x /\
  x + block_size (hdrs s x) = p_prev (hdrs s x).
Proof. intros G Hx Hp. destruct (hg_up _ _ G x Hx) as [[? _]|?]; [contradiction|assumption]. Qed.

Lemma node_below s N x :
  heap_geometry s N -> N x -> p_next (hdrs s x) <> NULL ->
  N (p_next (hdrs s x)) /\ p_prev (hdrs s (p_next (hdrs s x))) = x /\
  p_next (hdrs s x) + block_size (hdrs s (p_next (hdrs s x))) = x.
Proof.
  intros G Hx Hn. destruct (hg_down _ _ G x Hx) as [?|[Hy Hp]]; [contradiction|].
  split; [assumption|]. split; [assumption|].
  pose proof (node_pos _ _ _ G Hx).
  destruct (hg_up _ _ G _ Hy) as [[E _]|(_ & _ & E)]; rewrite Hp in E; [unfold NULL in E; lia|exact E].
Qed.

Lemma node_top s N x :
  heap_geometry s N -> N x -> p_prev (hdrs s x) = NULL ->
  x = head s /\
  x + block_size (hdrs s x) = buffer (default_buffer s) + pos (default_buffer s).
Proof.
  intros G Hx Hp. destruct (hg_up _ _ G x Hx) as [(_ & ? & ?)|(Hy & _)]; [auto|].
  apply (node_pos _ _ _ G) in Hy. rewrite Hp in Hy. unfold NULL in Hy. lia.
Qed.

Lemma head_node s N x : heap_geometry s N -> N x -> head s <> NULL /\ N (head s) /\ p_prev (hdrs s (head s)) = NULL.
Proof.
  intros G Hx. destruct (hg_head _ _ G) as [E|[? ?]]; [|repeat split; try assumption].
  - destruct (hg_empty _ _ G E) as [Hn _]. destruct (Hn x Hx).
  - intros E. destruct (hg_empty _ _ G E) as [Hn _]. destruct (Hn x Hx).
Qed.

Lemma absorb_fields s N x y :
  heap_geometry s N -> N x -> N y -> p_prev (hdrs s x) = y ->
  (forall z, block_size (hdrs (absorb x y s) z)
             = if z =? x then block_size (hdrs s x) + block_size (hdrs s y)
               else block_size (hdrs s z)) /\
  (forall z, p_status (hdrs (absorb x y s) z) = p_status (hdrs s z)) /\
  (forall z, p_payload (hdrs (absorb x y s) z) = p_payload (hdrs s z)) /\
  (forall z, p_end_marker (hdrs (absorb x y s) z) = p_end_marker (hdrs s z)) /\
  (forall z, z <> NULL ->
     p_prev (hdrs (absorb x y s) z) = if z =? x then p_prev (hdrs s y) else p_prev (hdrs s z)) /\
  (forall z, z <> NULL ->
     p_next (hdrs (absorb x y s) z) = if z =? p_prev (hdrs s y) then x else p_next (hdrs s z)) /\
  head (absorb x y s) = (if y =? head s then x else head s) /\
  default_buffer (absorb x y s) = default_buffer s /\
  mem (absorb x y s) = mem s /\ gstats (absorb x y s) = gstats s /\
  stderr (absorb x y s) = stderr s.
Proof.
  intros G Hx Hy Hxy.
  assert (Hy0 : p_prev (hdrs s x) <> NULL)
    by (rewrite Hxy; pose proof (node_pos _ _ _ G Hy); unfold NULL; lia).
  destruct (node_above _ _ _ G Hx Hy0) as (_ & Hn & _). rewrite Hxy in Hn.
  unfold absorb. proj_red.
  repeat split; try reflexivity; intros z.
  - rewrite unlink_block_size. destruct (Z.eqb_spec z x); st_simp; reflexivity.
  - rewrite unlink_p_status. st_simp. reflexivity.
  - rewrite unlink_p_payload. st_simp. reflexivity.
  - rewrite unlink_p_end_marker. st_simp. reflexivity.
  - intros Hz. rewrite unlink_p_prev by assumption. st_simp. rewrite Hn. reflexivity.
  - intros Hz. rewrite unlink_p_next by assumption. st_simp. rewrite Hn. reflexivity.
Qed.

Lemma absorb_geometry s N x y :
  heap_geometry s N -> N x -> N y -> p_prev (hdrs s x) = y ->
  heap_geometry (absorb x y s) (fun z => N z /\ z <> y).
Proof.
  intros G Hx Hy Hxy.
  destruct (absorb_fields _ _ _ _ G Hx Hy Hxy) as (Fbs & Fst & _ & _ & Fpp & Fpn & Fh & Fb & _).
  pose proof (node_pos _ _ _ G Hx) as Hx0.
  pose proof (node_pos _ _ _ G Hy) as Hy0.
  assert (Hpx : p_prev (hdrs s x) <> NULL) by (rewrite Hxy; unfold NULL; lia).
  destruct (node_above _ _ _ G Hx Hpx) as (_ & Hny & Hadj). rewrite Hxy in Hny, Hadj.
  destruct (hg_node _ _ G x Hx) as (Hxb & Hxs & Hxt & Hxg).
  destruct (hg_node _ _ G y Hy) as (Hyb & Hys & Hyt & Hyg).
  destruct (head_node _ _ _ G Hx) as (Hh0 & Hhn & Hhp).
  constructor; rewrite ?Fb, ?Fh.
  - apply (hg_buffer _ _ G).
  - apply (hg_pos _ _ G).
  - apply (hg_size _ _ G).
  - intros z [Hz Hzy]. rewrite Fbs. unfold tagged. rewrite Fst.
    destruct (Z.eqb_spec z x) as [->|Hzx].
    + repeat split; try assumption; lia.
    + apply (hg_node _ _ G z Hz).
  - intros z w [Hz Hzy] [Hw Hwy] Hlt. rewrite Fbs.
    destruct (Z.eqb_spec z x) as [->|Hzx].
    + pose proof (hg_disjoint _ _ G x w Hx Hw Hlt).
      assert (y < w) by lia.
      pose proof (hg_disjoint _ _ G y w Hy Hw ltac:(assumption)). lia.
    + apply (hg_disjoint _ _ G z w Hz Hw Hlt).
  - intros z [Hz Hzy]. pose proof (node_pos _ _ _ G Hz) as Hz0.
    rewrite Fbs. rewrite (Fpp z) by (unfold NULL; lia).
    destruct (Z.eqb_spec z x) as [->|Hzx].
    + destruct (Z.eq_dec (p_prev (hdrs s y)) NULL) as [E|E].
      * destruct (node_top _ _ _ G Hy E) as [Eh Et].
        left. split; [exact E|]. split; [|lia].
        rewrite <- Eh, Z.eqb_refl. reflexivity.
      * destruct (node_above _ _ _ G Hy E) as (Ha & Han & Hat).
        right. split; [split; [exact Ha|lia]|].
        rewrite Fpn by exact E. rewrite Z.eqb_refl. split; [reflexivity|lia].
    + destruct (hg_up _ _ G z Hz) as [(E & Eh & Et)|(Hw & Hwn & Hwt)].
      * left. split; [exact E|]. split; [|exact Et].
        destruct (Z.eqb_spec y (head s)); [congruence|exact Eh].
      * right. pose proof (node_pos _ _ _ G Hw) as Hw0.
        split; [split; [exact Hw|congruence]|].
        rewrite Fpn by (unfold NULL; lia).
        destruct (Z.eqb_spec (p_prev (hdrs s z)) (p_prev (hdrs s y))) as [E|E].
        -- assert (Ey : p_prev (hdrs s y) <> NULL) by (rewrite <- E; unfold NULL; lia).
           destruct (node_above _ _ _ G Hy Ey) as (_ & Han & _).
           rewrite <- E in Han. congruence.
        -- split; assumption.
  - intros z [Hz Hzy]. pose proof (node_pos _ _ _ G Hz) as Hz0.
    rewrite (Fpn z) by (unfold NULL; lia).
    destruct (Z.eqb_spec z (p_prev (hdrs s y))) as [E|E].
    + right. split; [split; [exact Hx|lia]|].
      rewrite Fpp by (unfold NULL; lia). rewrite Z.eqb_refl. congruence.
    + destruct (hg_down _ _ G z Hz) as [En|(Hw & Hwp)]; [left; exact En|].
      right. pose proof (node_pos _ _ _ G Hw) as Hw0.
      split; [split; [exact Hw|congruence]|].
      rewrite Fpp by (unfold NULL; lia).
      destruct (Z.eqb_spec (p_next (hdrs s z)) x) as [Ex|Ex]; [|exact Hwp].
      rewrite Ex in Hwp. congruence.
  - right. destruct (Z.eqb_spec y (head s)) as [E|E].
    + split; [split; [exact Hx|lia]|].
      rewrite Fpp by (unfold NULL; lia). rewrite Z.eqb_refl, E. exact Hhp.
    + split; [split; [exact Hhn|congruence]|].
      rewrite Fpp by exact Hh0.
      destruct (Z.eqb_spec (head s) x) as [Ex|Ex]; [|exact Hhp].
      rewrite Ex in Hhp. congruence.
  - intros E. exfalso. destruct (Z.eqb_spec y (head s)); [unfold NULL in E; lia|contradiction].
  - intros z [Hz Hzy] En. pose proof (node_pos _ _ _ G Hz) as Hz0.
    rewrite (Fpn z) in En by (unfold NULL; lia).
    destruct (Z.eqb_spec z (p_prev (hdrs s y))) as [E|E]; [unfold NULL in En; lia|].
    apply (hg_bottom _ _ G z Hz En).
Qed.

Lemma retract_fields s N :
  heap_geometry s N -> head s <> NULL ->
  (forall z, block_size (hdrs (retract s) z) = block_size (hdrs s z)) /\
  (forall z, p_status (hdrs (retract s) z) = p_status (hdrs s z)) /\
  (forall z, p_payload (hdrs (retract s) z) = p_payload (hdrs s z)) /\
  (forall z, p_end_marker (hdrs (retract s) z) = p_end_marker (hdrs s z)) /\
  (forall z, z <> NULL ->
     p_prev (hdrs (retract s) z)
     = if z =? p_next (hdrs s (head s)) then NULL else p_prev (hdrs s z)) /\
  (forall z, z <> NULL -> p_next (hdrs (retract s) z) = p_next (hdrs s z)) /\
  head (retract s) = p_next (hdrs s (head s)) /\
  buffer (default_buffer (retract s)) = buffer (default_buffer s) /\
  size (default_buffer (retract s)) = size (default_buffer s) /\
  pos (default_buffer (retract s))
    = pos (default_buffer s) - block_size (hdrs s (head s)) /\
  mem (retract s) = mem s /\ gstats (retract s) = gstats s /\
  stderr (retract s) = stderr s.
Proof.
  intros G Hh.
  destruct (hg_head _ _ G) as [?|[Hn Hp]]; [contradiction|].
  unfold retract. proj_red.
  repeat split; try reflexivity; intros z.
  - apply unlink_block_size.
  - apply unlink_p_status.
  - apply unlink_p_payload.
  - apply unlink_p_end_marker.
  - intros Hz. rewrite unlink_p_prev by assumption. rewrite Hp. reflexivity.
  - intros Hz. rewrite unlink_p_next by assumption. rewrite Hp.
    destruct (Z.eqb_spec z NULL); [contradiction|reflexivity].
Qed.

Lemma retract_geometry s N :
  heap_geometry s N -> head s <> NULL ->
  heap_geometry (retract s) (fun z => N z /\ z <> head s).
Proof.
  intros G Hh.
  destruct (retract_fields _ _ G Hh)
    as (Fbs & Fst & _ & _ & Fpp & Fpn & Fh & Fb & Fsz & Fpos & _).
  destruct (hg_head _ _ G) as [?|[Hn Hp]]; [contradiction|].
  destruct (node_top _ _ _ G Hn Hp) as [_ Htop].
  destruct (hg_node _ _ G _ Hn) as (Hhb & Hhs & Hht & Hhg).
  pose proof (hg_pos _ _ G) as Hpos. pose proof (hg_buffer _ _ G) as Hbuf.
  assert (Hbelow : forall z, N z -> z <> head s -> z + block_size (hdrs s z) <= head s).
  { intros z Hz Hzh. destruct (hg_node _ _ G z Hz) as (_ & Hzs & Hzt & _).
    destruct (Z_lt_ge_dec z (head s)) as [Hlt|Hge].
    - apply (hg_disjoint _ _ G z (head s) Hz Hn Hlt).
    - pose proof (hg_disjoint _ _ G (head s) z Hn Hz ltac:(lia)). lia. }
  constructor; rewrite ?Fb, ?Fsz, ?Fpos, ?Fh.
  - exact Hbuf.
  - lia.
  - apply (hg_size _ _ G).
  - intros z [Hz Hzh]. rewrite Fbs. unfold tagged. rewrite Fst.
    destruct (hg_node _ _ G z Hz) as (? & ? & ? & ?).
    pose proof (Hbelow z Hz Hzh). repeat split; try assumption; lia.
  - intros z w [Hz _] [Hw _] Hlt. rewrite Fbs. apply (hg_disjoint _ _ G z w Hz Hw Hlt).
  - intros z [Hz Hzh]. pose proof (node_pos _ _ _ G Hz) as Hz0.
    rewrite Fbs. rewrite (Fpp z) by (unfold NULL; lia).
    destruct (Z.eqb_spec z (p_next (hdrs s (head s)))) as [E|E].
    + assert (Hne : p_next (hdrs s (head s)) <> NULL) by (rewrite <- E; unfold NULL; lia).
      destruct (node_below _ _ _ G Hn Hne) as (_ & _ & Hadj).
      left. split; [reflexivity|]. split; [exact E|]. rewrite <- E in Hadj. lia.
    + destruct (hg_up _ _ G z Hz) as [(_ & Eh & _)|(Hw & Hwn & Hwt)]; [contradiction|].
      right. pose proof (node_pos _ _ _ G Hw) as Hw0.
      split; [split; [exact Hw|congruence]|].
      rewrite Fpn by (unfold NULL; lia). split; assumption.
  - intros z [Hz Hzh]. pose proof (node_pos _ _ _ G Hz) as Hz0.
    rewrite (Fpn z) by (unfold NULL; lia).
    destruct (hg_down _ _ G z Hz) as [En|(Hw & Hwp)]; [left; exact En|].
    right. pose proof (node_pos _ _ _ G Hw) as Hw0.
    assert (Hwh : p_next (hdrs s z) <> head s)
      by (intros E; rewrite E, Hp in Hwp; unfold NULL in Hwp; lia).
    split; [split; assumption|].
    rewrite Fpp by (unfold NULL; lia).
    destruct (Z.eqb_spec (p_next (hdrs s z)) (p_next (hdrs s (head s)))) as [E|E]; [|exact Hwp].
    assert (Hne : p_next (hdrs s (head s)) <> NULL) by (rewrite <- E; unfold NULL; lia).
    destruct (node_below _ _ _ G Hn Hne) as (_ & Hq & _).
    rewrite <- E in Hq. congruence.
  - destruct (Z.eq_dec (p_next (hdrs s (head s))) NULL) as [E|E]; [left; exact E|].
    destruct (node_below _ _ _ G Hn E) as (Ho & _ & Hadj).
    destruct (hg_node _ _ G _ Ho) as (_ & Hos & _).
    right. split; [split; [exact Ho|lia]|].
    rewrite Fpp by exact E. rewrite Z.eqb_refl. reflexivity.
  - intros E. pose proof (hg_bottom _ _ G _ Hn E) as Eb.
    split; [|lia].
    intros z [Hz Hzh]. destruct (hg_node _ _ G z Hz) as (? & ? & _).
    pose proof (Hbelow z Hz Hzh). lia.
  - intros z [Hz Hzh] En. pose proof (node_pos _ _ _ G Hz) as Hz0.
    rewrite (Fpn z) in En by (unfold NULL; lia).
    apply (hg_bottom _ _ G z Hz En).
Qed.

Lemma absorb_run s N x y :
  heap_geometry s N -> N x -> N y -> p_prev (hdrs s x) = y ->
  remove_block y
    (with_hdrs (upd_hdr (hdrs s) x
       (set_block_size (wrap (block_size (hdrs s x) + block_size (hdrs s y))))) s)
  = Ret tt (absorb x y s).
Proof.
  intros G Hx Hy Hxy.
  pose proof (node_pos _ _ _ G Hx) as Hx0.
  pose proof (node_pos _ _ _ G Hy) as Hy0.
  assert (Hpx : p_prev (hdrs s x) <> NULL) by (rewrite Hxy; unfold NULL; lia).
  destruct (node_above _ _ _ G Hx Hpx) as (_ & Hny & Hadj). rewrite Hxy in Hny, Hadj.
  destruct (hg_node _ _ G x Hx) as (Hxb & Hxs & Hxt & _).
  destruct (hg_node _ _ G y Hy) as (Hyb & Hys & Hyt & _).
  destruct (head_node _ _ _ G Hx) as (Hh0 & _ & _).
  pose proof (hg_pos _ _ G). pose proof (hg_size _ _ G).
  rewrite wrap_small by (unfold SIZE_MAX in *; lia).
  rewrite remove_block_unlink.
  - unfold absorb. proj_red. lookup_simp. rewrite Hny. reflexivity.
  - exact Hh0.
  - unfold NULL; lia.
  - proj_red. lookup_simp. rewrite Hny. intros _. exact Hxy.
  - proj_red. lookup_simp. intros E. apply (node_above _ _ _ G Hy E).
Qed.

Lemma can_coalesce_up_run s N p :
  heap_geometry s N -> N p ->
  can_coalesce_up p s = Ret (is_free s (p_prev (hdrs s p))) s.
Proof.
  intros G Hp. unfold can_coalesce_up, is_free, is_block_free.
  unfold bind at 1, load at 1. unfold bind at 1.
  destruct (Z.eqb_spec (p_prev (hdrs s p)) NULL) as [E|E]; cbn [negb andb]; [reflexivity|].
  unfold bind at 1, load at 1, ret at 1.
  destruct (p_status (hdrs s (p_prev (hdrs s p))) =? FREE); cbn [negb]; [|reflexivity].
  destruct (node_above _ _ _ G Hp E) as (_ & Hn & _).
  unfold bind at 1, load at 1. rewrite Hn, Z.eqb_refl. reflexivity.
Qed.

Lemma can_coalesce_down_run s N p :
  heap_geometry s N -> N p ->
  can_coalesce_down p s = Ret (is_free s (p_next (hdrs s p))) s.
Proof.
  intros G Hp. unfold can_coalesce_down, is_free, is_block_free.
  unfold bind at 1, load at 1. unfold bind at 1.
  destruct (Z.eqb_spec (p_next (hdrs s p)) NULL) as [E|E]; cbn [negb andb]; [reflexivity|].
  unfold bind at 1, load at 1, ret at 1.
  destruct (p_status (hdrs s (p_next (hdrs s p))) =? FREE); cbn [negb]; [|reflexivity].
  destruct (node_below _ _ _ G Hp E) as (_ & Hn & _).
  unfold bind at 1, load at 1. rewrite Hn, Z.eqb_refl. reflexivity.
Qed.

Lemma heap_geometry_equiv s N N' :
  (forall z, N' z <-> N z) -> heap_geometry s N -> heap_geometry s N'.
Proof.
  intros E G. constructor.
  - apply (hg_buffer _ _ G).
  - apply (hg_pos _ _ G).
  - apply (hg_size _ _ G).
  - intros x Hx. apply E in Hx. apply (hg_node _ _ G x Hx).
  - intros x y Hx Hy. apply E in Hx, Hy. apply (hg_disjoint _ _ G x y Hx Hy).
  - intros x Hx. apply E in Hx.
    destruct (hg_up _ _ G x Hx) as [?|(H1 & H2)]; [left; assumption|].
    right. split; [apply E; exact H1|exact H2].
  - intros x Hx. apply E in Hx.
    destruct (hg_down _ _ G x Hx) as [?|(H1 & H2)]; [left; assumption|].
    right. split; [apply E; exact H1|exact H2].
  - destruct (hg_head _ _ G) as [?|(H1 & H2)]; [left; assumption|].
    right. split; [apply E; exact H1|exact H2].
  - intros Eh. destruct (hg_empty _ _ G Eh) as [Hn Hpos]. split; [|exact Hpos].
    intros x Hx. apply E in Hx. exact (Hn x Hx).
  - intros x Hx. apply E in Hx. apply (hg_bottom _ _ G x Hx).
Qed.

Lemma tagged_not_allocated h : tagged h -> p_status h <> ALLOCATED -> p_status h = FREE.
Proof. intros [?|?] ?; [assumption|contradiction]. Qed.

Lemma tagged_not_free h : tagged h -> p_status h <> FREE -> p_status h = ALLOCATED.
Proof. intros [?|?] ?; [contradiction|assumption]. Qed.

Lemma is_free_true s x :
  is_free s x = true <-> x <> NULL /\ p_status (hdrs s x) = FREE.
Proof.
  unfold is_free. rewrite andb_true_iff, negb_true_iff, Z.eqb_neq, Z.eqb_eq. tauto.
Qed.

Lemma absorb_tags s N x y :
  heap_geometry s N -> N x -> N y -> p_prev (hdrs s x) = y ->
  tags_frame s (absorb x y s).
Proof.
  intros G Hx Hy Hxy.
  destruct (absorb_fields _ _ _ _ G Hx Hy Hxy)
    as (_ & Fst & Fpl & Fem & _ & _ & _ & _ & Fm & Fg & Fe).
  unfold tags_frame. repeat split; auto.
Qed.

Lemma retract_tags s N :
  heap_geometry s N -> head s <> NULL -> tags_frame s (retract s).
Proof.
  intros G Hh.
  destruct (retract_fields _ _ G Hh)
    as (_ & Fst & Fpl & Fem & _ & _ & _ & _ & _ & _ & Fm & Fg & Fe).
  unfold tags_frame. repeat split; auto.
Qed.

Lemma kept_refl s N : kept s N N.
Proof. split; auto. Qed.

Lemma kept_trans s s1 N N1 N2 :
  kept s N N1 -> tags_frame s s1 -> kept s1 N1 N2 -> kept s N N2.
Proof.
  intros [A1 A2] (F & _) [B1 B2]. split.
  - auto.
  - intros z Hz Hst. apply B2; [apply A2; assumption|].
    destruct (F z) as (-> & _). exact Hst.
Qed.

Lemma kept_without s N y :
  p_status (hdrs s y) = FREE -> kept s N (fun z => N z /\ z <> y).
Proof.
  intros Hy. split.
  - intros z [Hz _]. exact Hz.
  - intros z Hz Hst. split; [exact Hz|]. intros ->. rewrite Hy in Hst.
    exact (tags_differ Hst).
Qed.

Lemma coalesce_up_ok s N p :
  heap_geometry s N -> N p -> p_status (hdrs s p) = FREE ->
  no_free_pair_but p s N ->
  (head s = p \/ p_status (hdrs s (head s)) = ALLOCATED) ->
  exists N',
    heap_geometry (coalesce_up p s) N' /\ N' p /\ kept s N N' /\
    tags_frame s (coalesce_up p s) /\
    no_free_pair_but p (coalesce_up p s) N' /\
    (p_prev (hdrs (coalesce_up p s) p) = NULL \/
     p_status (hdrs (coalesce_up p s) (p_prev (hdrs (coalesce_up p s) p))) = ALLOCATED).
Proof.
  intros G Hp Hfree Hpairs Hhead. unfold coalesce_up.
  pose proof (node_pos _ _ _ G Hp) as Hp0.
  destruct (is_free s (p_prev (hdrs s p))) eqn:E.
  - apply is_free_true in E. destruct E as [En Ens].
    destruct (node_above _ _ _ G Hp En) as (Hn & Hnn & Hadj).
    set (n := p_prev (hdrs s p)) in *.
    pose proof (node_pos _ _ _ G Hn) as Hn0.
    destruct (hg_node _ _ G p Hp) as (_ & Hps & _).
    assert (Hnp : n <> p) by lia.
    destruct (absorb_fields _ _ _ _ G Hp Hn eq_refl)
      as (Fbs & Fst & _ & _ & Fpp & Fpn & Fh & _).
    exists (fun z => N z /\ z <> n).
    split; [apply (absorb_geometry _ _ _ _ G Hp Hn eq_refl)|].
    split; [split; [exact Hp|lia]|].
    split; [apply kept_without; exact Ens|].
    split; [apply (absorb_tags _ _ _ _ G Hp Hn eq_refl)|].
    split.
    + intros x [Hx Hxn] Hxp Hxf. pose proof (node_pos _ _ _ G Hx) as Hx0.
      rewrite Fst in Hxf. rewrite (Fpn x) by (unfold NULL; lia).
      destruct (Z.eqb_spec x (p_prev (hdrs s n))); [right; left; reflexivity|].
      rewrite Fst. apply (Hpairs x Hx Hxp Hxf).
    + rewrite Fpp by (unfold NULL; lia). rewrite Z.eqb_refl. rewrite Fst.
      destruct (Z.eq_dec (p_prev (hdrs s n)) NULL) as [E|E]; [left; exact E|].
      right. destruct (node_above _ _ _ G Hn E) as (Hnn' & Hnnn & _).
      destruct (hg_node _ _ G _ Hnn') as (_ & _ & _ & Htag).
      apply tagged_not_free; [exact Htag|]. intros Hff.
      assert (Hne : p_prev (hdrs s n) <> p).
      { pose proof (node_above _ _ _ G Hn E) as (_ & _ & Ha).
        destruct (hg_node _ _ G n Hn) as (_ & Hns & _). lia. }
      destruct (Hpairs _ Hnn' Hne Hff) as [H|[H|H]]; rewrite Hnnn in H.
      * unfold NULL in H; lia.
      * contradiction.
      * rewrite Ens in H. exact (tags_differ H).
  - exists N.
    split; [exact G|]. split; [exact Hp|]. split; [apply kept_refl|].
    split; [apply tags_frame_refl|]. split; [exact Hpairs|].
    destruct (Z.eq_dec (p_prev (hdrs s p)) NULL) as [En|En]; [left; exact En|].
    right. destruct (node_above _ _ _ G Hp En) as (Hn & _).
    destruct (hg_node _ _ G _ Hn) as (_ & _ & _ & Htag).
    apply tagged_not_free; [exact Htag|]. intros Hff.
    assert (is_free s (p_prev (hdrs s p)) = true) by (apply is_free_true; auto).
    congruence.
Qed.

Lemma coalesce_down_ok s N p :
  heap_geometry s N -> N p -> p_status (hdrs s p) = FREE ->
  no_free_pair_but p s N ->
  (p_prev (hdrs s p) = NULL \/ p_status (hdrs s (p_prev (hdrs s p))) = ALLOCATED) ->
  exists N',
    heap_geometry (coalesce_down p s) N' /\ kept s N N' /\
    tags_frame s (coalesce_down p s) /\
    no_free_pair (coalesce_down p s) N' /\
    head (coalesce_down p s) <> NULL.
Proof.
  intros G Hp Hfree Hpairs Hup. unfold coalesce_down.
  pose proof (node_pos _ _ _ G Hp) as Hp0.
  assert (Hprev : forall x, N x -> p_status (hdrs s x) = FREE ->
                            p_next (hdrs s x) = p -> False).
  { intros x Hx Hxf Hxn.
    assert (Hne : p_next (hdrs s x) <> NULL) by (rewrite Hxn; unfold NULL; lia).
    destruct (node_below _ _ _ G Hx Hne) as (_ & Hpp & _). rewrite Hxn in Hpp.
    rewrite Hpp in Hup. destruct Hup as [H|H].
    - pose proof (node_pos _ _ _ G Hx). unfold NULL in H. lia.
    - rewrite Hxf in H. exact (tags_differ H). }
  destruct (is_free s (p_next (hdrs s p))) eqn:E.
  - apply is_free_true in E. destruct E as [En Ens].
    destruct (node_below _ _ _ G Hp En) as (Ho & Hop & Hadj).
    set (o := p_next (hdrs s p)) in *.
    pose proof (node_pos _ _ _ G Ho) as Ho0.
    destruct (hg_node _ _ G o Ho) as (_ & Hos & _).
    assert (Hnp : o <> p) by lia.
    destruct (absorb_fields _ _ _ _ G Ho Hp Hop)
      as (Fbs & Fst & _ & _ & Fpp & Fpn & Fh & _).
    pose proof (absorb_geometry _ _ _ _ G Ho Hp Hop) as G'.
    exists (fun z => N z /\ z <> p).
    split; [exact G'|].
    split; [apply kept_without; exact Hfree|].
    split; [apply (absorb_tags _ _ _ _ G Ho Hp Hop)|].
    split.
    + intros x [Hx Hxp] Hxf. pose proof (node_pos _ _ _ G Hx) as Hx0.
      rewrite Fst in Hxf. rewrite (Fpn x) by (unfold NULL; lia). rewrite Fst.
      destruct (Z.eqb_spec x (p_prev (hdrs s p))) as [Ex|Ex].
      * exfalso. destruct Hup as [H|H]; rewrite <- Ex in H.
        -- unfold NULL in H; lia.
        -- rewrite Hxf in H. exact (tags_differ H).
      * destruct (Hpairs x Hx Hxp Hxf) as [H|[H|H]]; [left; exact H| |right; exact H].
        destruct (Hprev x Hx Hxf H).
    + apply (head_node _ _ o G'). split; [exact Ho|exact Hnp].
  - exists N.
    split; [exact G|]. split; [apply kept_refl|]. split; [apply tags_frame_refl|].
    split; [|apply (head_node _ _ p G Hp)].
    intros x Hx Hxf.
    destruct (Z.eq_dec x p) as [->|Hxp].
    + destruct (Z.eq_dec (p_next (hdrs s p)) NULL) as [En|En]; [left; exact En|].
      right. destruct (node_below _ _ _ G Hp En) as (Ho & _).
      destruct (hg_node _ _ G _ Ho) as (_ & _ & _ & Htag).
      apply tagged_not_free; [exact Htag|]. intros Hff.
      assert (is_free s (p_next (hdrs s p)) = true) by (apply is_free_true; auto).
      congruence.
    + destruct (Hpairs x Hx Hxp Hxf) as [H|[H|H]]; [left; exact H| |right; exact H].
      destruct (Hprev x Hx Hxf H).
Qed.

Lemma move_pos_ok s N :
  heap_geometry s N -> no_free_pair s N ->
  exists N',
    heap_geometry (move_pos s) N' /\ kept s N N' /\
    tags_frame s (move_pos s) /\ tidy (move_pos s) N'.
Proof.
  intros G Hpairs. unfold move_pos.
  destruct (Z.eqb_spec (head s) NULL) as [Eh|Eh]; cbn [orb].
  { exists N. split; [exact G|]. split; [apply kept_refl|].
    split; [apply tags_frame_refl|]. split; [exact Hpairs|left; exact Eh]. }
  destruct (Z.eqb_spec (p_status (hdrs s (head s))) ALLOCATED) as [Ea|Ea].
  { exists N. split; [exact G|]. split; [apply kept_refl|].
    split; [apply tags_frame_refl|]. split; [exact Hpairs|right; exact Ea]. }
  destruct (hg_head _ _ G) as [?|[Hn Hp]]; [contradiction|].
  destruct (hg_node _ _ G _ Hn) as (_ & _ & _ & Htag).
  pose proof (tagged_not_allocated _ Htag Ea) as Hf.
  destruct (retract_fields _ _ G Eh)
    as (_ & Fst & _ & _ & _ & Fpn & Fh & _).
  exists (fun z => N z /\ z <> head s).
  split; [apply (retract_geometry _ _ G Eh)|].
  split; [apply kept_without; exact Hf|].
  split; [apply (retract_tags _ _ G Eh)|].
  split.
  - intros x [Hx Hxh] Hxf. pose proof (node_pos _ _ _ G Hx) as Hx0.
    rewrite Fst in Hxf. rewrite (Fpn x) by (unfold NULL; lia). rewrite Fst.
    apply (Hpairs x Hx Hxf).
  - rewrite Fh, Fst. apply (Hpairs _ Hn Hf).
Qed.

Lemma move_buffer_pos_run s N :
  heap_geometry s N -> move_buffer_pos s = Ret tt (move_pos s).
Proof.
  intros G. unfold move_buffer_pos, move_pos.
  unfold bind at 1, get_head at 1.
  destruct (Z.eqb_spec (head s) NULL) as [Eh|Eh]; cbn [orb]; [reflexivity|].
  unfold bind at 1, load at 1.
  destruct (p_status (hdrs s (head s)) =? ALLOCATED); [reflexivity|].
  destruct (hg_head _ _ G) as [?|[Hn Hp]]; [contradiction|].
  destruct (node_top _ _ _ G Hn Hp) as [_ Htop].
  destruct (hg_node _ _ G _ Hn) as (Hhb & Hhs & _).
  pose proof (hg_pos _ _ G). pose proof (hg_size _ _ G). pose proof (hg_buffer _ _ G).
  unfold bind at 1, get_state at 1. unfold bind at 1, set_pos at 1, modify at 1.
  unfold bind at 1, get_head at 1. proj_red.
  rewrite wrap_small by (unfold SIZE_MAX in *; lia).
  rewrite remove_block_unlink.
  - proj_red. rewrite Z.eqb_refl. reflexivity.
  - exact Eh.
  - exact Eh.
  - proj_red. intros E. apply (node_below _ _ _ G Hn E).
  - proj_red. intros E. contradiction.
Qed.

Lemma coalesce_run s N p :
  heap_geometry s N -> N p ->
  coalesce p s = Ret tt (coalesce_down p (coalesce_up p s)).
Proof.
  intros G Hp. unfold coalesce.
  unfold bind at 1. rewrite (can_coalesce_up_run _ _ _ G Hp).
  assert (Hup : (when_ (is_free s (p_prev (hdrs s p)))
                   (h <- load p ;;
                    hp <- load (p_prev h) ;;
                    store_field p (set_block_size (wrap (block_size h + block_size hp))) ;;;
                    h' <- load p ;; remove_block (p_prev h'))) s
                = Ret tt (coalesce_up p s)).
  { unfold coalesce_up, when_.
    destruct (is_free s (p_prev (hdrs s p))) eqn:E; [|reflexivity].
    apply is_free_true in E. destruct E as [En _].
    destruct (node_above _ _ _ G Hp En) as (Hn & _).
    unfold bind at 1, load at 1. unfold bind at 1, load at 1.
    unfold bind at 1, store_field at 1, modify at 1.
    unfold bind at 1, load at 1. proj_red. lookup_simp.
    apply (absorb_run _ _ _ _ G Hp Hn eq_refl). }
  unfold bind at 1. rewrite Hup.
  assert (exists N', heap_geometry (coalesce_up p s) N' /\ N' p) as (N' & G' & Hp').
  { unfold coalesce_up. destruct (is_free s (p_prev (hdrs s p))) eqn:E.
    - apply is_free_true in E. destruct E as [En _].
      destruct (node_above _ _ _ G Hp En) as (Hn & _ & Hadj).
      destruct (hg_node _ _ G p Hp) as (_ & Hps & _).
      eexists. split; [apply (absorb_geometry _ _ _ _ G Hp Hn eq_refl)|].
      split; [exact Hp|lia].
    - exists N. split; assumption. }
  set (s2 := coalesce_up p s) in *.
  unfold bind at 1. rewrite (can_coalesce_down_run _ _ _ G' Hp').
  unfold coalesce_down, when_.
  destruct (is_free s2 (p_next (hdrs s2 p))) eqn:E; [|reflexivity].
  apply is_free_true in E. destruct E as [En _].
  destruct (node_below _ _ _ G' Hp' En) as (Ho & Hop & _).
  unfold bind at 1, load at 1. unfold bind at 1, load at 1.
  unfold bind at 1, store_field at 1, modify at 1.
  apply (absorb_run _ _ _ _ G' Ho Hp' Hop).
Qed.

Lemma heap_geometry_ext s s' N :
  heap_geometry s N ->
  head s' = head s -> default_buffer s' = default_buffer s ->
  (forall z, block_size (hdrs s' z) = block_size (hdrs s z)) ->
  (forall z, p_prev (hdrs s' z) = p_prev (hdrs s z)) ->
  (forall z, p_next (hdrs s' z) = p_next (hdrs s z)) ->
  (forall z, N z -> tagged (hdrs s z) -> tagged (hdrs s' z)) ->
  heap_geometry s' N.
Proof.
  intros G Eh Eb Fbs Fpp Fpn Ftag.
  constructor; rewrite ?Eh, ?Eb.
  - apply (hg_buffer _ _ G).
  - apply (hg_pos _ _ G).
  - apply (hg_size _ _ G).
  - intros x Hx. rewrite Fbs. destruct (hg_node _ _ G x Hx) as (? & ? & ? & ?).
    repeat split; auto.
  - intros x y Hx Hy. rewrite Fbs. apply (hg_disjoint _ _ G x y Hx Hy).
  - intros x Hx. rewrite Fbs, Fpp, Fpn. apply (hg_up _ _ G x Hx).
  - intros x Hx. rewrite Fpn, Fpp. apply (hg_down _ _ G x Hx).
  - rewrite Fpp. apply (hg_head _ _ G).
  - apply (hg_empty _ _ G).
  - intros x Hx. rewrite Fpn. apply (hg_bottom _ _ G x Hx).
Qed.

Lemma free_tail_ok s s1 N tr p :
  heap_geometry s N -> tidy s N -> live_ok s N tr ->
  p_status (hdrs s p) = ALLOCATED -> marked_free s s1 p ->
  (coalesce p ;;; move_buffer_pos) s1
    = Ret tt (move_pos (coalesce_down p (coalesce_up p s1))) /\
  heap_ok (move_pos (coalesce_down p (coalesce_up p s1))) (EvFree (p + sizeof_header) :: tr).
Proof.
  intros G [Hpairs Hhead] L Hpa M.
  destruct (L p Hpa) as (Hp & _).
  assert (G1 : heap_geometry s1 N).
  { apply (heap_geometry_ext s s1 N G (mf_head _ _ _ M) (mf_buffer _ _ _ M)
             (mf_block_size _ _ _ M) (mf_p_prev _ _ _ M) (mf_p_next _ _ _ M)).
    intros z _ Hz. unfold tagged. rewrite (mf_p_status _ _ _ M).
    destruct (z =? p); [left; reflexivity|exact Hz]. }
  assert (Hf1 : p_status (hdrs s1 p) = FREE)
    by (rewrite (mf_p_status _ _ _ M), Z.eqb_refl; reflexivity).
  assert (Hpairs1 : no_free_pair_but p s1 N).
  { intros x Hx Hxp Hxf. rewrite (mf_p_status _ _ _ M) in Hxf.
    destruct (Z.eqb_spec x p); [contradiction|].
    rewrite (mf_p_next _ _ _ M), (mf_p_status _ _ _ M).
    destruct (Z.eqb_spec (p_next (hdrs s x)) p); [right; left; assumption|].
    destruct (Hpairs x Hx Hxf); [left|right; right]; assumption. }
  assert (Hhead1 : head s1 = p \/ p_status (hdrs s1 (head s1)) = ALLOCATED).
  { rewrite (mf_head _ _ _ M), (mf_p_status _ _ _ M).
    destruct (Z.eqb_spec (head s) p); [left; assumption|right].
    destruct Hhead as [E|E]; [|exact E].
    destruct (head_node _ _ _ G Hp) as (? & _). contradiction. }
  destruct (coalesce_up_ok _ _ _ G1 Hp Hf1 Hpairs1 Hhead1)
    as (N2 & G2 & Hp2 & K2 & T2 & Hpairs2 & Hup2).
  set (s2 := coalesce_up p s1) in *.
  assert (Hf2 : p_status (hdrs s2 p) = FREE)
    by (destruct T2 as (F & _); destruct (F p) as (-> & _); exact Hf1).
  destruct (coalesce_down_ok _ _ _ G2 Hp2 Hf2 Hpairs2 Hup2)
    as (N3 & G3 & K3 & T3 & Hpairs3 & Hh3).
  set (s3 := coalesce_down p s2) in *.
  destruct (move_pos_ok _ _ G3 Hpairs3) as (N4 & G4 & K4 & T4 & Tidy4).
  set (s4 := move_pos s3) in *.
  pose proof (kept_trans _ _ _ _ _ (kept_trans _ _ _ _ _ K2 T2 K3)
                (tags_frame_trans _ _ _ T2 T3) K4) as K.
  pose proof (tags_frame_trans _ _ _ (tags_frame_trans _ _ _ T2 T3) T4) as T.
  split.
  { unfold bind. rewrite (coalesce_run _ _ _ G1 Hp).
    apply (move_buffer_pos_run _ _ G3). }
  exists N4. split; [exact G4|]. split; [exact Tidy4|].
  intros x Hxa. destruct T as (F & _). destruct (F x) as (Fs & Fp & Fe).
  rewrite Fs in Hxa. rewrite Fp, Fe.
  assert (Hxa1 := Hxa). rewrite (mf_p_status _ _ _ M) in Hxa.
  destruct (Z.eqb_spec x p) as [E|E]; [exfalso; exact (tags_differ Hxa)|].
  destruct (L x Hxa) as (Hx & Hpl & sz & Hsz & Hem & Hrange).
  split; [destruct K as [_ K]; apply (K x Hx Hxa1)|].
  rewrite (mf_p_payload _ _ _ M) by exact E.
  rewrite (mf_p_end_marker _ _ _ M) by exact E.
  split; [exact Hpl|]. exists sz. split; [|split; assumption].
  cbn [allocated_size].
  destruct (Z.eqb_spec (p + sizeof_header) (x + sizeof_header)); [lia|exact Hsz].
Qed.

Lemma free_heap_ok fuel ptr file ln s tr :
  heap_ok s tr -> ptr <> NULL ->
  wp (m61_free fuel ptr file ln) s
     (returns (fun _ s' =>
        heap_ok s' (EvFree ptr :: tr) /\
        exists sz, allocated_size tr ptr = Some sz /\
                   payload_size_of (hdrs s (ptr - sizeof_header)) = sz)).
Proof.
  intros (N & G & Tidy & L) Hptr. unfold m61_free.
  repeat first [ wp_step_gen st_simp ltac:(st_simp; bsolve) stop_free | wp_split ];
    wp_leaf idtac.
  - wp_call (@wp_any unit); wp_run st_simp; wp_leaf idtac.
  - apply negb_false_iff, Z.eqb_eq in Heqb2.
    destruct (L _ Heqb2) as (Hp & Hpl & sz & Hsz & Hem & Hrange).
    replace (ptr - sizeof_header + sizeof_header) with ptr in * by lia.
    apply wp_unbind.
    lazymatch goal with
    | |- wp _ ?s1 _ =>
        assert (M : marked_free s s1 (ptr - sizeof_header))
    end.
    { constructor; proj_red; try reflexivity; intros z;
        destruct (Z.eqb_spec z (ptr - sizeof_header)) as [->|E];
        lookup_simp; proj_red; try reflexivity; intros; congruence. }
    destruct (free_tail_ok _ _ _ _ _ G Tidy L Heqb2 M) as [Hrun Hok].
    replace (ptr - sizeof_header + sizeof_header) with ptr in * by lia.
    eapply wp_eq; [exact Hrun|]. cbn [returns].
    split; [exact Hok|]. exists sz. split; [exact Hsz|].
    unfold payload_size_of. rewrite Hem, Hpl.
    replace (ptr + sz - ptr) with sz by lia.
    apply wrap_small. unfold SIZE_MAX in Hrange. lia.
Qed.

Lemma free_heap_ok_inv fuel ptr file ln s s' tr :
  heap_ok s tr -> ptr <> NULL -> m61_free fuel ptr file ln s = Ret tt s' ->
  heap_ok s' (EvFree ptr :: tr) /\
  exists sz, allocated_size tr ptr = Some sz /\
             payload_size_of (hdrs s (ptr - sizeof_header)) = sz.
Proof.
  intros H Hp E. pose proof (free_heap_ok fuel ptr file ln s tr H Hp) as W.
  unfold wp in W. rewrite E in W. exact W.
Qed.

Lemma pushed_ok s s' N tr f bsz sz :
  heap_geometry s N -> tidy s N -> live_ok s N tr ->
  f = buffer (default_buffer s) + pos (default_buffer s) ->
  0 < bsz -> pos (default_buffer s) + bsz <= size (default_buffer s) ->
  0 <= sz <= SIZE_MAX ->
  pushed s s' f bsz sz ->
  heap_ok s' (EvMalloc sz (f + sizeof_header) :: tr).
Proof.
  intros G [Hpairs Hhead] L Hf Hbsz Hroom Hsz P.
  pose proof (hg_buffer _ _ G) as Hbuf. pose proof (hg_pos _ _ G) as Hpos.
  assert (Hf0 : f <> NULL) by (unfold NULL; lia).
  assert (Hlow : forall z, N z -> z < f).
  { intros z Hz. destruct (hg_node _ _ G z Hz) as (_ & ? & ? & _). lia. }
  assert (Hnf : ~ N f) by (intros H; apply Hlow in H; lia).
  exists (fun z => N z \/ z = f).
  split; [|split].
  - constructor;
      rewrite ?(pu_buffer _ _ _ _ _ P), ?(pu_size _ _ _ _ _ P),
              ?(pu_pos _ _ _ _ _ P), ?(pu_head _ _ _ _ _ P).
    + exact Hbuf.
    + lia.
    + apply (hg_size _ _ G).
    + intros z Hz. rewrite (pu_block_size _ _ _ _ _ P). unfold tagged.
      rewrite (pu_p_status _ _ _ _ _ P).
      destruct (Z.eqb_spec z f) as [->|E].
      * repeat split; try lia; right; reflexivity.
      * destruct Hz as [Hz|Hz]; [|contradiction].
        destruct (hg_node _ _ G z Hz) as (? & ? & ? & ?).
        repeat split; try assumption; lia.
    + intros z w Hz Hw Hlt. rewrite (pu_block_size _ _ _ _ _ P).
      destruct (Z.eqb_spec z f) as [->|E].
      * destruct Hw as [Hw|Hw]; [apply Hlow in Hw|]; lia.
      * destruct Hz as [Hz|Hz]; [|contradiction].
        destruct Hw as [Hw| ->].
        -- apply (hg_disjoint _ _ G z w Hz Hw Hlt).
        -- destruct (hg_node _ _ G z Hz) as (_ & _ & ? & _). lia.
    + intros z Hz.
      assert (Hz0 : z <> NULL)
        by (destruct Hz as [Hz| ->]; [apply (node_pos _ _ _ G) in Hz; unfold NULL; lia|exact Hf0]).
      rewrite (pu_block_size _ _ _ _ _ P). rewrite (pu_p_prev _ _ _ _ _ P z Hz0).
      destruct (Z.eqb_spec z f) as [->|E].
      * left. repeat split; lia.
      * destruct Hz as [Hz|Hz]; [|contradiction].
        destruct (Z.eqb_spec z (head s)) as [Eh|Eh].
        -- right. split; [right; reflexivity|].
           rewrite (pu_p_next _ _ _ _ _ P), Z.eqb_refl. split; [auto|].
           destruct (head_node _ _ _ G Hz) as (_ & Hn & Hp).
           destruct (node_top _ _ _ G Hn Hp) as [_ Ht]. rewrite Eh. lia.
        -- destruct (hg_up _ _ G z Hz) as [(_ & ? & _)|(Hw & Hwn & Hwt)]; [contradiction|].
           right. split; [left; exact Hw|].
           rewrite (pu_p_next _ _ _ _ _ P).
           destruct (Z.eqb_spec (p_prev (hdrs s z)) f) as [Ef|Ef]; [|split; assumption].
           rewrite Ef in Hw. contradiction.
    + intros z Hz. rewrite (pu_p_next _ _ _ _ _ P z).
      destruct (Z.eqb_spec z f) as [->|E].
      * destruct (hg_head _ _ G) as [Eh|[Hn Hp]]; [left; exact Eh|].
        right. split; [left; exact Hn|].
        pose proof (node_pos _ _ _ G Hn) as Hh0.
        rewrite (pu_p_prev _ _ _ _ _ P) by (unfold NULL; lia).
        destruct (Z.eqb_spec (head s) f) as [Ef|Ef]; [rewrite Ef in Hn; contradiction|].
        rewrite Z.eqb_refl. reflexivity.
      * destruct Hz as [Hz|Hz]; [|contradiction].
        destruct (hg_down _ _ G z Hz) as [En|(Hw & Hwp)]; [left; exact En|].
        right. split; [left; exact Hw|].
        pose proof (node_pos _ _ _ G Hw) as Hw0. pose proof (node_pos _ _ _ G Hz) as Hz0.
        rewrite (pu_p_prev _ _ _ _ _ P) by (unfold NULL; lia).
        destruct (Z.eqb_spec (p_next (hdrs s z)) f) as [Ef|Ef]; [rewrite Ef in Hw; contradiction|].
        destruct (Z.eqb_spec (p_next (hdrs s z)) (head s)) as [Eh|Eh]; [|exact Hwp].
        destruct (head_node _ _ _ G Hz) as (_ & _ & Hp).
        rewrite Eh, Hp in Hwp. unfold NULL in Hwp. lia.
    + right. split; [right; reflexivity|].
      rewrite (pu_p_prev _ _ _ _ _ P) by exact Hf0. rewrite Z.eqb_refl. reflexivity.
    + intros E. contradiction.
    + intros z Hz. rewrite (pu_p_next _ _ _ _ _ P z).
      destruct (Z.eqb_spec z f) as [->|E].
      * intros Eh. destruct (hg_empty _ _ G Eh) as [_ E0]. lia.
      * destruct Hz as [Hz|Hz]; [|contradiction]. apply (hg_bottom _ _ G z Hz).
  - split.
    + intros x Hx. rewrite (pu_p_status _ _ _ _ _ P x), (pu_p_next _ _ _ _ _ P x).
      destruct (Z.eqb_spec x f) as [->|E]; [intros Hc; symmetry in Hc; destruct (tags_differ Hc)|].
      destruct Hx as [Hx|Hx]; [|contradiction].
      intros Hxf. rewrite (pu_p_status _ _ _ _ _ P).
      destruct (Z.eqb_spec (p_next (hdrs s x)) f); [right; reflexivity|].
      apply (Hpairs x Hx Hxf).
    + right. rewrite (pu_head _ _ _ _ _ P), (pu_p_status _ _ _ _ _ P), Z.eqb_refl. reflexivity.
  - intros x. rewrite (pu_p_status _ _ _ _ _ P x), (pu_p_payload _ _ _ _ _ P x),
      (pu_p_end_marker _ _ _ _ _ P x). cbn [allocated_size].
    destruct (Z.eqb_spec x f) as [->|E].
    + intros _. split; [right; reflexivity|]. split; [reflexivity|].
      exists sz. rewrite Z.eqb_refl. repeat split; try reflexivity; lia.
    + intros Hxa. destruct (L x Hxa) as (Hx & Hpl & sz' & Hsz' & Hem & Hr).
      split; [left; exact Hx|]. split; [exact Hpl|]. exists sz'.
      destruct (Z.eqb_spec (f + sizeof_header) (x + sizeof_header)); [lia|].
      split; [exact Hsz'|split; [exact Hem|exact Hr]].
Qed.

(** A free block on the list has an allocated newer neighbour. *)
Lemma free_block_above s N p :
  heap_geometry s N -> tidy s N -> N p -> p_status (hdrs s p) = FREE ->
  p <> head s /\ p_prev (hdrs s p) <> NULL /\ N (p_prev (hdrs s p)) /\
  p_next (hdrs s (p_prev (hdrs s p))) = p /\
  p + block_size (hdrs s p) = p_prev (hdrs s p) /\
  p_status (hdrs s (p_prev (hdrs s p))) = ALLOCATED.
Proof.
  intros G [Hpairs Hhead] Hp Hf.
  assert (Hph : p <> head s).
  { intros E. destruct Hhead as [H|H].
    - destruct (head_node _ _ _ G Hp) as (? & _). contradiction.
    - rewrite <- E, Hf in H. exact (tags_differ H). }
  destruct (hg_up _ _ G p Hp) as [(_ & ? & _)|(Hn & Hnn & Hadj)]; [contradiction|].
  pose proof (node_pos _ _ _ G Hn) as Hn0.
  split; [exact Hph|]. split; [unfold NULL; lia|].
  split; [exact Hn|]. split; [exact Hnn|]. split; [exact Hadj|].
  destruct (hg_node _ _ G _ Hn) as (_ & _ & _ & Htag).
  apply tagged_not_free; [exact Htag|]. intros Hnf.
  destruct (Hpairs _ Hn Hnf) as [H|H]; rewrite Hnn in H.
  - apply (node_pos _ _ _ G) in Hp. unfold NULL in H. lia.
  - rewrite Hf in H. exact (tags_differ H).
Qed.

Lemma claimed_ok s s' N tr p sz :
  heap_geometry s N -> tidy s N -> live_ok s N tr ->
  N p -> p_status (hdrs s p) = FREE -> 0 <= sz <= SIZE_MAX ->
  claimed s s' p sz ->
  heap_ok s' (EvMalloc sz (p + sizeof_header) :: tr).
Proof.
  intros G T L Hp Hf Hsz C.
  destruct (free_block_above _ _ _ G T Hp Hf) as (Hph & _).
  destruct T as [Hpairs Hhead].
  exists N. split; [|split].
  - apply (heap_geometry_ext s s' N G (cl_head _ _ _ _ C) (cl_buffer _ _ _ _ C)
             (cl_block_size _ _ _ _ C) (cl_p_prev _ _ _ _ C) (cl_p_next _ _ _ _ C)).
    intros z _ Hz. unfold tagged. rewrite (cl_p_status _ _ _ _ C).
    destruct (z =? p); [right; reflexivity|exact Hz].
  - split.
    + intros x Hx. rewrite (cl_p_status _ _ _ _ C x), (cl_p_next _ _ _ _ C x).
      destruct (Z.eqb_spec x p) as [->|E]; [intros Hc; symmetry in Hc; destruct (tags_differ Hc)|].
      intros Hxf. rewrite (cl_p_status _ _ _ _ C).
      destruct (Z.eqb_spec (p_next (hdrs s x)) p); [right; reflexivity|].
      apply (Hpairs x Hx Hxf).
    + rewrite (cl_head _ _ _ _ C), (cl_p_status _ _ _ _ C).
      destruct (Z.eqb_spec (head s) p); [right; reflexivity|exact Hhead].
  - intros x. rewrite (cl_p_status _ _ _ _ C x), (cl_p_payload _ _ _ _ C x),
      (cl_p_end_marker _ _ _ _ C x). cbn [allocated_size].
    destruct (Z.eqb_spec x p) as [->|E].
    + intros _. split; [exact Hp|]. split; [reflexivity|].
      exists sz. rewrite Z.eqb_refl. split; [reflexivity|split; [reflexivity|exact Hsz]].
    + intros Hxa. destruct (L x Hxa) as (Hx & Hpl & sz' & Hsz' & Hem & Hr).
      split; [exact Hx|]. split; [exact Hpl|]. exists sz'.
      destruct (Z.eqb_spec (p + sizeof_header) (x + sizeof_header)); [lia|].
      split; [exact Hsz'|split; [exact Hem|exact Hr]].
Qed.

Lemma carved_ok s s' N tr p q req res sz :
  heap_geometry s N -> tidy s N -> live_ok s N tr ->
  N p -> p_status (hdrs s p) = FREE -> 0 <= sz <= SIZE_MAX ->
  q = p + req -> 0 < req -> 0 < res -> req + res = block_size (hdrs s p) ->
  carved s s' p q req res sz ->
  heap_ok s' (EvMalloc sz (p + sizeof_header) :: tr).
Proof.
  intros G T L Hp Hf Hsz Hq Hreq Hres Hsum C.
  destruct (free_block_above _ _ _ G T Hp Hf) as (Hph & Hn0 & Hn & Hnn & Hadj & Hna).
  destruct T as [Hpairs Hhead].
  set (n := p_prev (hdrs s p)) in *.
  pose proof (node_pos _ _ _ G Hp) as Hp0.
  destruct (hg_node _ _ G p Hp) as (Hpb & Hps & Hpt & _).
  assert (Hnq : ~ N q).
  { intros Hc. pose proof (hg_disjoint _ _ G p q Hp Hc ltac:(lia)). lia. }
  assert (Hqp : q <> p) by lia.
  assert (Hqn : q <> n) by lia.
  assert (Hpn : p <> n) by lia.
  destruct (head_node _ _ _ G Hp) as (Hh0 & Hhn & Hhp).
  exists (fun z => N z \/ z = q).
  split; [|split].
  - constructor; rewrite ?(cv_buffer _ _ _ _ _ _ _ C), ?(cv_head _ _ _ _ _ _ _ C).
    + apply (hg_buffer _ _ G).
    + apply (hg_pos _ _ G).
    + apply (hg_size _ _ G).
    + intros z Hz. rewrite (cv_block_size _ _ _ _ _ _ _ C). unfold tagged.
      rewrite (cv_p_status _ _ _ _ _ _ _ C).
      destruct (Z.eqb_spec z q) as [->|Eq]; [repeat split; try lia; left; reflexivity|].
      destruct Hz as [Hz|Hz]; [|contradiction].
      destruct (Z.eqb_spec z p) as [->|Ep]; [repeat split; try lia; right; reflexivity|].
      apply (hg_node _ _ G z Hz).
    + intros z w Hz Hw Hlt. rewrite (cv_block_size _ _ _ _ _ _ _ C).
      destruct (Z.eqb_spec z q) as [->|Eq].
      * destruct Hw as [Hw|Hw]; [|lia].
        pose proof (hg_disjoint _ _ G p w Hp Hw ltac:(lia)). lia.
      * destruct Hz as [Hz|Hz]; [|contradiction].
        destruct (Z.eqb_spec z p) as [->|Ep].
        -- destruct Hw as [Hw|Hw]; [|lia].
           pose proof (hg_disjoint _ _ G p w Hp Hw Hlt). lia.
        -- destruct Hw as [Hw| ->]; [apply (hg_disjoint _ _ G z w Hz Hw Hlt)|].
           destruct (Z_lt_ge_dec z p) as [Hlt'|Hge].
           ++ pose proof (hg_disjoint _ _ G z p Hz Hp Hlt'). lia.
           ++ pose proof (hg_disjoint _ _ G p z Hp Hz ltac:(lia)). lia.
    + intros z Hz. rewrite (cv_block_size _ _ _ _ _ _ _ C), (cv_p_prev _ _ _ _ _ _ _ C z).
      destruct (Z.eqb_spec z q) as [->|Eq].
      * right. split; [left; exact Hn|]. rewrite (cv_p_next _ _ _ _ _ _ _ C).
        fold n. destruct (Z.eqb_spec n q); [lia|]. rewrite Z.eqb_refl. split; [reflexivity|lia].
      * destruct Hz as [Hz|Hz]; [|contradiction].
        destruct (Z.eqb_spec z p) as [->|Ep].
        -- right. split; [right; reflexivity|]. rewrite (cv_p_next _ _ _ _ _ _ _ C).
           rewrite Z.eqb_refl. split; [reflexivity|lia].
        -- destruct (hg_up _ _ G z Hz) as [?|(Hw & Hwn & Hwt)]; [left; assumption|].
           right. split; [left; exact Hw|]. rewrite (cv_p_next _ _ _ _ _ _ _ C).
           destruct (Z.eqb_spec (p_prev (hdrs s z)) q) as [E|E]; [rewrite E in Hw; contradiction|].
           fold n. destruct (Z.eqb_spec (p_prev (hdrs s z)) n) as [E'|E']; [|split; assumption].
           rewrite E' in Hwn. congruence.
    + intros z Hz. rewrite (cv_p_next _ _ _ _ _ _ _ C z). fold n.
      destruct (Z.eqb_spec z q) as [->|Eq].
      * right. split; [left; exact Hp|]. rewrite (cv_p_prev _ _ _ _ _ _ _ C).
        destruct (Z.eqb_spec p q); [lia|]. rewrite Z.eqb_refl. reflexivity.
      * destruct Hz as [Hz|Hz]; [|contradiction].
        destruct (Z.eqb_spec z n) as [->|En].
        -- right. split; [right; reflexivity|]. rewrite (cv_p_prev _ _ _ _ _ _ _ C).
           rewrite Z.eqb_refl. reflexivity.
        -- destruct (hg_down _ _ G z Hz) as [?|(Hw & Hwp)]; [left; assumption|].
           right. split; [left; exact Hw|]. rewrite (cv_p_prev _ _ _ _ _ _ _ C).
           destruct (Z.eqb_spec (p_next (hdrs s z)) q) as [E|E]; [rewrite E in Hw; contradiction|].
           destruct (Z.eqb_spec (p_next (hdrs s z)) p) as [E'|E']; [|exact Hwp].
           rewrite E' in Hwp. subst n. congruence.
    + right. split; [left; exact Hhn|]. rewrite (cv_p_prev _ _ _ _ _ _ _ C).
      destruct (Z.eqb_spec (head s) q) as [E|E]; [rewrite E in Hhn; contradiction|].
      destruct (Z.eqb_spec (head s) p) as [E'|E']; [congruence|exact Hhp].
    + intros E. contradiction.
    + intros z Hz. rewrite (cv_p_next _ _ _ _ _ _ _ C z). fold n.
      destruct (Z.eqb_spec z q) as [->|Eq]; [unfold NULL; lia|].
      destruct Hz as [Hz|Hz]; [|contradiction].
      destruct (Z.eqb_spec z n) as [->|En]; [unfold NULL; lia|].
      apply (hg_bottom _ _ G z Hz).
  - split.
    + intros x Hx. rewrite (cv_p_status _ _ _ _ _ _ _ C x), (cv_p_next _ _ _ _ _ _ _ C x).
      fold n.
      destruct (Z.eqb_spec x q) as [->|Eq].
      * intros _. right. rewrite (cv_p_status _ _ _ _ _ _ _ C).
        destruct (Z.eqb_spec p q); [lia|]. rewrite Z.eqb_refl. reflexivity.
      * destruct Hx as [Hx|Hx]; [|contradiction].
        destruct (Z.eqb_spec x p) as [->|Ep]; [intros Hc; symmetry in Hc; destruct (tags_differ Hc)|].
        intros Hxf.
        destruct (Z.eqb_spec x n) as [->|En]; [rewrite Hna in Hxf; symmetry in Hxf; destruct (tags_differ Hxf)|].
        destruct (Hpairs x Hx Hxf) as [H|H]; [left; exact H|].
        right. rewrite (cv_p_status _ _ _ _ _ _ _ C).
        destruct (Z.eqb_spec (p_next (hdrs s x)) q) as [E|E].
        -- rewrite E in H. destruct (L q H) as (Hc & _). contradiction.
        -- destruct (Z.eqb_spec (p_next (hdrs s x)) p); [reflexivity|exact H].
    + right. rewrite (cv_head _ _ _ _ _ _ _ C), (cv_p_status _ _ _ _ _ _ _ C).
      destruct (Z.eqb_spec (head s) q) as [E|E]; [rewrite E in Hhn; contradiction|].
      destruct (Z.eqb_spec (head s) p) as [E'|E']; [congruence|].
      destruct Hhead; [contradiction|assumption].
  - intros x. rewrite (cv_p_status _ _ _ _ _ _ _ C x). cbn [allocated_size].
    destruct (Z.eqb_spec x q) as [->|Eq]; [intros Hc; destruct (tags_differ Hc)|].
    rewrite (cv_p_payload _ _ _ _ _ _ _ C x Eq), (cv_p_end_marker _ _ _ _ _ _ _ C x Eq).
    destruct (Z.eqb_spec x p) as [->|E].
    + intros _. split; [left; exact Hp|]. split; [reflexivity|].
      exists sz. rewrite Z.eqb_refl. split; [reflexivity|split; [reflexivity|exact Hsz]].
    + intros Hxa. destruct (L x Hxa) as (Hx & Hpl & sz' & Hsz' & Hem & Hr).
      split; [left; exact Hx|]. split; [exact Hpl|]. exists sz'.
      destruct (Z.eqb_spec (p + sizeof_header) (x + sizeof_header)); [lia|].
      split; [exact Hsz'|split; [exact Hem|exact Hr]].
Qed.

(** Reading a member of a header through a stack of stores, one address
    comparison at a time. *)
Ltac fields_solve :=
  intros;
  repeat match goal with
         | |- context [?a =? ?b] => destruct (Z.eqb_spec a b)
         end;
  lookup_simp; proj_red;
  repeat match goal with
         | |- context [upd_hdr _ ?a _ ?z] =>
             destruct (Z.eq_dec z a); lookup_simp; proj_red
         end;
  try reflexivity; try congruence; try alia.
Lemma find_freed_block_loop_ok fuel req sz file ln :
  0 < req -> 0 <= sz <= SIZE_MAX ->
  forall cur s N tr,
    heap_geometry s N -> tidy s N -> live_ok s N tr -> cur = NULL \/ N cur ->
    wp (find_freed_block_loop fuel cur req sz file ln) s
       (returns (fun q s' =>
          (q = NULL /\ s' = s) \/
          (q <> NULL /\ heap_ok s' (EvMalloc sz q :: tr)))).
Proof.
  intros Hreq Hsz. induction fuel as [|fuel IH]; intros cur s N tr G T L Hcur;
    cbn [find_freed_block_loop].
  - wp_run st_simp. exact I.
  - wp_split; [wp_run st_simp; left; split; reflexivity|].
    apply Z.eqb_neq in Heqb. destruct Hcur as [?|Hp]; [contradiction|].
    wp_step st_simp. wp_step st_simp. wp_step st_simp. wp_split.
    + apply andb_true_iff in Heqb0. destruct Heqb0 as [Hf Hfit].
      apply Z.eqb_eq in Hf. apply Z.leb_le in Hfit.
      destruct (free_block_above _ _ _ G T Hp Hf) as (Hph & Hn0 & Hn & Hnn & Hadj & Hna).
      pose proof (node_pos _ _ _ G Hp) as Hp0.
      destruct (hg_node _ _ G cur Hp) as (Hpb & Hps & Hpt & _).
      pose proof (hg_pos _ _ G). pose proof (hg_size _ _ G). pose proof (hg_buffer _ _ G).
      assert (Hw : wrap (block_size (hdrs s cur) - req) = block_size (hdrs s cur) - req)
        by (apply wrap_small; unfold SIZE_MAX in *; lia).
      wp_auto.
      all: wp_leaf idtac.
      * right. split; [unfold NULL, sizeof_header; lia|].
        eapply (claimed_ok s _ N tr cur sz G T L Hp Hf Hsz).
        constructor; proj_red; try reflexivity; fields_solve.
      * apply Z.ltb_ge in Heqb0. rewrite Hw in *.
        right. split; [unfold NULL, sizeof_header; lia|].
        eapply (carved_ok s _ N tr cur (cur + req) req (block_size (hdrs s cur) - req) sz
                  G T L Hp Hf Hsz eq_refl Hreq); [unfold MIN_BLOCK_SIZE, sizeof_header, ALIGNMENT in Heqb0; lia|lia|].
        constructor; proj_red; try reflexivity; fields_solve.
    + apply IH with (N := N); try assumption.
      destruct (hg_down _ _ G cur Hp) as [?|[? _]]; [left|right]; assumption.
Qed.

Lemma heap_ok_ext s s' tr :
  heap_ok s tr -> hdrs s' = hdrs s -> head s' = head s ->
  default_buffer s' = default_buffer s -> heap_ok s' tr.
Proof.
  destruct s as [hs m hd b g e], s' as [hs' m' hd' b' g' e'].
  cbn [hdrs head default_buffer]. intros H -> -> ->.
  destruct H as (N & G & T & L). exists N. split; [|split].
  - destruct G; constructor; assumption.
  - exact T.
  - exact L.
Qed.

Lemma find_free_space_ok fuel bsz sz file ln s tr :
  heap_ok s tr -> 0 < bsz -> 0 <= sz <= SIZE_MAX ->
  wp (find_free_space fuel bsz sz file ln) s
     (returns (fun q s' =>
        (q = NULL /\ s' = s) \/
        (q <> NULL /\ heap_ok s' (EvMalloc sz q :: tr)))).
Proof.
  intros (N & G & T & L) Hbsz Hsz. unfold find_free_space.
  pose proof (hg_pos _ _ G) as Hpos. pose proof (hg_size _ _ G) as Hsize.
  pose proof (hg_buffer _ _ G) as Hbuf.
  assert (Hw : wrap (size (default_buffer s) - pos (default_buffer s))
               = size (default_buffer s) - pos (default_buffer s))
    by (apply wrap_small; unfold SIZE_MAX in *; lia).
  wp_run st_simp. rewrite Hw. wp_split.
  - apply Z.leb_le in Heqb.
    assert (Hw' : wrap (pos (default_buffer s) + bsz) = pos (default_buffer s) + bsz)
      by (apply wrap_small; unfold SIZE_MAX in *; lia).
    destruct (Z.eq_dec (head s) NULL) as [Eh|Eh].
    + wp_run ltac:(st_simp; rewrite ?Eh). cbn [returns].
      right. split; [unfold NULL, sizeof_header; lia|].
      eapply (pushed_ok s _ N tr _ bsz sz G T L eq_refl Hbsz ltac:(lia) Hsz).
      constructor; proj_red; rewrite ?Hw'; try reflexivity; fields_solve.
    + assert (Hhf : head s < buffer (default_buffer s) + pos (default_buffer s)).
      { destruct (hg_head _ _ G) as [?|[Hn _]]; [contradiction|].
        destruct (hg_node _ _ G _ Hn) as (_ & ? & ? & _). lia. }
      wp_run st_simp. cbn [returns].
      right. split; [unfold NULL, sizeof_header; lia|].
      eapply (pushed_ok s _ N tr _ bsz sz G T L eq_refl Hbsz ltac:(lia) Hsz).
      constructor; proj_red; rewrite ?Hw'; try reflexivity; fields_solve.
  - unfold find_freed_block. wp_run st_simp.
    apply (find_freed_block_loop_ok fuel bsz sz file ln Hbsz Hsz _ s N tr G T L).
    destruct (hg_head _ _ G) as [?|[? _]]; [left|right]; assumption.
Qed.

Lemma block_size_for_pos sz :
  0 <= sz -> size_overflows sz = false -> 0 < block_size_for sz.
Proof.
  intros Hsz Hov. pose proof (block_size_for_positive sz Hsz Hov).
  unfold block_size_for in *. pose proof (wrap_range (wrap (sizeof_header + sz) + padding_for sz)).
  lia.
Qed.

Lemma malloc_heap_ok fuel sz file ln s tr :
  heap_ok s tr -> 0 <= sz <= SIZE_MAX ->
  wp (m61_malloc fuel sz file ln) s
     (returns (fun q s' =>
        (q = NULL /\ heap_ok s' tr) \/
        (q <> NULL /\ heap_ok s' (EvMalloc sz q :: tr)))).
Proof.
  intros H Hsz. unfold m61_malloc. wp_split.
  - wp_run st_simp. cbn [returns]. left. split; [reflexivity|].
    apply (heap_ok_ext s _ tr H); reflexivity.
  - wp_call find_free_space_ok; [exact H|apply block_size_for_pos; [lia|assumption]|exact Hsz|].
    wp_step st_simp. wp_split; wp_run st_simp; cbn [returns].
    + apply Z.eqb_eq in Heqb0. destruct Hcall as [[_ ->]|[? _]]; [|contradiction].
      left. split; [reflexivity|]. apply (heap_ok_ext s _ tr H); reflexivity.
    + apply Z.eqb_neq in Heqb0. destruct Hcall as [[? _]|[_ Hok]]; [contradiction|].
      right. split; [exact Heqb0|]. apply (heap_ok_ext _ _ _ Hok); reflexivity.
Qed.

Lemma malloc_heap_ok_inv fuel sz file ln s tr q s' :
  heap_ok s tr -> 0 <= sz <= SIZE_MAX ->
  m61_malloc fuel sz file ln s = Ret q s' -> q <> NULL ->
  heap_ok s' (EvMalloc sz q :: tr).
Proof.
  intros H Hsz E Hq. pose proof (malloc_heap_ok fuel sz file ln s tr H Hsz) as W.
  unfold wp in W. rewrite E in W. destruct W as [[? _]|[_ ?]]; [contradiction|assumption].
Qed.

Lemma init_heap_ok buf :
  0 < buf -> buf + Z.shiftl 8 20 <= SIZE_MAX -> heap_ok (init_state buf) [].
Proof.
  intros Hb Hs. exists (fun _ => False). split; [|split].
  - constructor; cbn [init_state default_buffer buffer pos size head hdrs].
    + exact Hb.
    + cbn. lia.
    + exact Hs.
    + intros x [].
    + intros x y [].
    + intros x [].
    + intros x [].
    + left; reflexivity.
    + intros _. split; [intros x Hx; exact Hx|reflexivity].
    + intros x [].
  - split; [intros x []|left; reflexivity].
  - intros x Hx. cbn in Hx. unfold ALLOCATED in Hx. discriminate.
Qed.

(** ** Conservation of the statistics (claim C6) *)

Lemma run_inv_init buf :
  0 < buf -> buf + Z.shiftl 8 20 <= SIZE_MAX -> run_inv (init_state buf) [].
Proof.
  intros Hb Hs. split; [apply init_heap_ok; assumption|].
  split; [reflexivity|]. split; [split; reflexivity|].
  cbn. lia.
Qed.

Lemma run_inv_malloc fuel sz file ln s tr p s' :
  run_inv s tr -> 0 <= sz <= SIZE_MAX ->
  m61_malloc fuel sz file ln s = Ret p s' -> p <> NULL ->
  run_inv s' (EvMalloc sz p :: tr).
Proof.
  intros (H & Hm & [C1 C2] & Hna & Has & Hfc & Hfb) Hsz E Hp.
  split; [apply (malloc_heap_ok_inv _ _ _ _ _ _ _ _ H Hsz E Hp)|].
  destruct (malloc_returns_inv _ _ _ _ _ _ _ E) as [_ [[? _]|[_ Hg]]]; [contradiction|].
  unfold conserved. rewrite Hg. unfold record_success. proj_red.
  cbn [frees_matched freed_count freed_bytes].
  split; [exact Hm|]. split.
  - rewrite C1, C2. split.
    + rewrite !wrap_add_l. f_equal. lia.
    + rewrite !wrap_add_l. f_equal. lia.
  - pose proof (wrap_range (nactive (gstats s) + 1)).
    pose proof (wrap_range (active_size (gstats s) + sz)). lia.
Qed.

Lemma run_inv_free fuel ptr file ln s tr s' :
  run_inv s tr -> ptr <> NULL ->
  m61_free fuel ptr file ln s = Ret tt s' ->
  run_inv s' (EvFree ptr :: tr) /\
  exists sz, allocated_size tr ptr = Some sz /\
             active_size (gstats s') = wrap (active_size (gstats s) - sz).
Proof.
  intros (H & Hm & [C1 C2] & Hna & Has & Hfc & Hfb) Hp E.
  destruct (free_heap_ok_inv _ _ _ _ _ _ _ H Hp E) as (H' & sz & Hsz & Hps).
  destruct (free_returns_inv _ _ _ _ _ _ Hp E) as (_ & _ & _ & _ & _ & _ & _ & Hg).
  cbv zeta in Hg. rewrite Hps in Hg.
  assert (Hr : released tr ptr = sz) by (unfold released; rewrite Hsz; reflexivity).
  assert (Hsz0 : 0 <= sz).
  { rewrite <- Hps. unfold payload_size_of. apply wrap_range. }
  split; [|exists sz; split; [exact Hsz|rewrite Hg; reflexivity]].
  split; [exact H'|]. unfold conserved. rewrite Hg. proj_red.
  cbn [frees_matched freed_count freed_bytes]. rewrite Hsz, Hr.
  split; [exact Hm|]. split.
  - rewrite C1, C2. split.
    + rewrite !wrap_add_l. f_equal. lia.
    + rewrite !wrap_add_l. f_equal. lia.
  - pose proof (wrap_range (nactive (gstats s) - 1)).
    pose proof (wrap_range (active_size (gstats s) - sz)). lia.
Qed.

Lemma free_null fuel file ln s : m61_free fuel NULL file ln s = Ret tt s.
Proof. reflexivity. Qed.

Lemma run_inv_run fuel ops :
  Forall well_typed_op ops ->
  forall s tr s' tr',
    run_inv s tr -> run_ops fuel ops s tr = Some (s', tr') -> run_inv s' tr'.
Proof.
  induction 1 as [|o ops Ho _ IH]; intros s tr s' tr' Hinv E; cbn [run_ops] in E.
  - injection E as <- <-. exact Hinv.
  - destruct o as [sz file ln|ptr file ln].
    + destruct (m61_malloc fuel sz file ln s) as [p s1| |] eqn:Em; try discriminate.
      destruct (Z.eqb_spec p NULL) as [|Hp]; [discriminate|].
      apply (IH _ _ _ _ (run_inv_malloc _ _ _ _ _ _ _ _ Hinv Ho Em Hp) E).
    + destruct (m61_free fuel ptr file ln s) as [[] s1| |] eqn:Ef; try discriminate.
      destruct (Z.eqb_spec ptr NULL) as [->|Hp].
      * rewrite free_null in Ef. injection Ef as <-. apply (IH _ _ _ _ Hinv E).
      * apply (IH _ _ _ _ (proj1 (run_inv_free _ _ _ _ _ _ _ Hinv Hp Ef)) E).
Qed.

Lemma run_ops_prefix fuel ops :
  forall k s tr s' tr',
    run_ops fuel ops s tr = Some (s', tr') ->
    exists sk trk, run_ops fuel (firstn k ops) s tr = Some (sk, trk).
Proof.
  induction ops as [|o ops IH]; intros k s tr s' tr' E.
  - rewrite firstn_nil. eauto.
  - destruct k as [|k]; [cbn; eauto|].
    cbn [firstn run_ops] in *. destruct o as [sz file ln|ptr file ln].
    + destruct (m61_malloc fuel sz file ln s) as [p s1| |]; try discriminate.
      destruct (p =? NULL); [discriminate|]. apply (IH _ _ _ _ _ E).
    + destruct (m61_free fuel ptr file ln s) as [[] s1| |]; try discriminate.
      apply (IH _ _ _ _ _ E).
Qed.

(** C6: along any sequence of allocate and free calls none of which fails,
    started on a fresh arena, after every call: each free call so far
    released a block returned by an earlier allocate call and not freed
    since; the total allocation count is the active count plus the number
    of those frees, and the total allocated bytes are the active bytes plus
    the bytes freed, where each free counts with the size that was passed
    to its matching allocate call.  The equalities hold in the 64-bit
    arithmetic of the counters, and in plain arithmetic whenever the
    right-hand side fits in 64 bits. *)
Theorem statistics_conserved (fuel : nat) (ops : list op) (buf : Z)
    (s : state) (tr : list event) (k : nat) :
  0 < buf -> buf + Z.shiftl 8 20 <= SIZE_MAX ->
  Forall well_typed_op ops ->
  run_ops fuel ops (init_state buf) [] = Some (s, tr) ->
  exists sk trk,
    run_ops fuel (firstn k ops) (init_state buf) [] = Some (sk, trk) /\
    frees_matched trk = true /\
    ntotal (gstats sk) = wrap (nactive (gstats sk) + freed_count trk) /\
    total_size (gstats sk) = wrap (active_size (gstats sk) + freed_bytes trk) /\
    (nactive (gstats sk) + freed_count trk <= SIZE_MAX ->
       ntotal (gstats sk) = nactive (gstats sk) + freed_count trk) /\
    (active_size (gstats sk) + freed_bytes trk <= SIZE_MAX ->
       total_size (gstats sk) = active_size (gstats sk) + freed_bytes trk).
Proof.
  intros Hb Hs Hty E.
  destruct (run_ops_prefix fuel ops k _ _ _ _ E) as (sk & trk & Ek).
  exists sk, trk. split; [exact Ek|].
  assert (Htyk : Forall well_typed_op (firstn k ops)).
  { apply Forall_forall. intros o Ho. apply (proj1 (Forall_forall _ _) Hty).
    rewrite <- (firstn_skipn k ops). apply in_or_app. left. exact Ho. }
  destruct (run_inv_run fuel _ Htyk _ _ _ _ (run_inv_init buf Hb Hs) Ek)
    as (_ & Hm & [C1 C2] & Hna & Has & Hfc & Hfb).
  split; [exact Hm|]. split; [exact C1|]. split; [exact C2|]. split.
  - intros Hfit. rewrite C1. apply wrap_small. unfold SIZE_MAX in Hfit. lia.
  - intros Hfit. rewrite C2. apply wrap_small. unfold SIZE_MAX in Hfit. lia.
Qed.

Lemma statistics_conserved_witness :
  let ops := [OpMalloc 1000 "test.cc" 5; OpMalloc 10 "test.cc" 6; OpFree 4160 "test.cc" 7] in
  exists sk trk,
    run_ops 1 (firstn 3 ops) (init_state 4096) [] = Some (sk, trk) /\
    frees_matched trk = true /\
    ntotal (gstats sk) = wrap (nactive (gstats sk) + freed_count trk) /\
    total_size (gstats sk) = wrap (active_size (gstats sk) + freed_bytes trk) /\
    (nactive (gstats sk) + freed_count trk <= SIZE_MAX ->
       ntotal (gstats sk) = nactive (gstats sk) + freed_count trk) /\
    (active_size (gstats sk) + freed_bytes trk <= SIZE_MAX ->
       total_size (gstats sk) = active_size (gstats sk) + freed_bytes trk).
Proof.
  intros ops.
  assert (Hsome : match run_ops 1 ops (init_state 4096) [] with
                  | Some _ => true | None => false end = true)
    by (vm_compute; reflexivity).
  destruct (run_ops 1 ops (init_state 4096) []) as [[s tr]|] eqn:E; [|discriminate].
  assert (Hb : 0 < 4096) by lia.
  assert (Hs : 4096 + Z.shiftl 8 20 <= SIZE_MAX) by (vm_compute; discriminate).
  assert (Hty : Forall well_typed_op ops).
  { repeat constructor; cbn; unfold SIZE_MAX; lia. }
  exact (statistics_conserved 1 ops 4096 s tr 3 Hb Hs Hty E).
Defined.

(** * Further properties of the code *)

(** ** The end marker *)

Lemma write_marker_spec mk : forall m ptr a,
  write_marker m ptr mk a
  = if (ptr <=? a) && (a <? ptr + Z.of_nat (List.length mk))
    then nth (Z.to_nat (a - ptr)) mk 0 else m a.
Proof.
  induction mk as [|c mk IH]; intros m ptr a.
  - cbn [write_marker List.length]. destruct (ptr <=? a) eqn:E1, (a <? ptr + Z.of_nat 0) eqn:E2;
      try reflexivity. apply Z.leb_le in E1. apply Z.ltb_lt in E2. lia.
  - rewrite write_marker_cons, IH. cbn [List.length]. rewrite Nat2Z.inj_succ.
    destruct (Z.eq_dec a ptr) as [->|Hne].
    + replace (ptr + 1 <=? ptr) with false by (symmetry; apply Z.leb_gt; lia).
      replace (ptr <=? ptr) with true by (symmetry; apply Z.leb_le; lia).
      replace (ptr <? ptr + Z.succ (Z.of_nat (List.length mk))) with true
        by (symmetry; apply Z.ltb_lt; lia).
      cbn [andb]. rewrite upd_same, Z.sub_diag. reflexivity.
    + rewrite upd_other by exact Hne.
      destruct (Z.leb_spec ptr a) as [Hle|Hgt].
      * replace (ptr + 1 <=? a) with true by (symmetry; apply Z.leb_le; lia).
        replace (a <? ptr + 1 + Z.of_nat (List.length mk))
          with (a <? ptr + Z.succ (Z.of_nat (List.length mk))) by (f_equal; lia).
        cbn [andb]. destruct (a <? ptr + Z.succ (Z.of_nat (List.length mk))); [|reflexivity].
        replace (Z.to_nat (a - ptr)) with (S (Z.to_nat (a - (ptr + 1)))) by lia.
        reflexivity.
      * replace (ptr + 1 <=? a) with false by (symmetry; apply Z.leb_gt; lia).
        reflexivity.
Qed.

Lemma check_marker_spec mk : forall m ptr,
  check_marker m ptr mk = true <->
  forall i, (i < List.length mk)%nat -> m (ptr + Z.of_nat i) = nth i mk 0.
Proof.
  induction mk as [|c mk IH]; intros m ptr.
  - cbn. split; [intros _ i Hi; lia|reflexivity].
  - rewrite check_marker_cons. destruct (Z.eqb_spec (m ptr) c) as [E|E]; cbn [negb].
    + rewrite IH. split.
      * intros H [|i] Hi; cbn [nth].
        -- rewrite Z.add_0_r. exact E.
        -- rewrite Nat2Z.inj_succ. replace (ptr + Z.succ (Z.of_nat i)) with (ptr + 1 + Z.of_nat i) by lia.
           apply H. cbn [List.length] in Hi. lia.
      * intros H i Hi. replace (ptr + 1 + Z.of_nat i) with (ptr + Z.of_nat (S i)) by lia.
        apply (H (S i)). cbn [List.length]. lia.
    + split; [discriminate|]. intros H. exfalso. apply E.
      specialize (H 0%nat ltac:(cbn [List.length]; lia)). rewrite Z.add_0_r in H. exact H.
Qed.

(** X1: [add_end_marker] writes the eight bytes of [END_MARKER] at [ptr] and
    nothing else; [is_end_marker_valid] answers true exactly when the eight
    bytes at [ptr] are those of [END_MARKER]; so the check succeeds right
    after the write and fails once any one of the eight bytes holds another
    value. *)
Theorem end_marker_round_trip (s : state) (ptr : Z) :
  exists s1,
    add_end_marker ptr s = Ret tt s1 /\
    hdrs s1 = hdrs s /\ head s1 = head s /\ default_buffer s1 = default_buffer s /\
    gstats s1 = gstats s /\ stderr s1 = stderr s /\
    (forall a, mem s1 a
               = if (ptr <=? a) && (a <? ptr + sizeof_END_MARKER)
                 then nth (Z.to_nat (a - ptr)) END_MARKER 0 else mem s a) /\
    is_end_marker_valid ptr s1 = Ret true s1 /\
    (forall s2, returned (is_end_marker_valid ptr s2) = Some true <->
                forall i, (i < 8)%nat -> mem s2 (ptr + Z.of_nat i) = nth i END_MARKER 0) /\
    (forall (i : nat) (v : Z), (i < 8)%nat -> v <> nth i END_MARKER 0 ->
       returned (is_end_marker_valid ptr
                   (with_mem (upd (mem s1) (ptr + Z.of_nat i) v) s1)) = Some false).
Proof.
  eexists. split; [reflexivity|]. proj_red.
  repeat split; try reflexivity.
  - intros a. apply write_marker_spec.
  - unfold is_end_marker_valid. proj_red. rewrite check_write_marker. reflexivity.
  - unfold is_end_marker_valid, returned. intros H.
    apply (proj1 (check_marker_spec END_MARKER (mem s2) ptr)). congruence.
  - unfold is_end_marker_valid, returned. intros H. f_equal.
    apply (proj2 (check_marker_spec END_MARKER (mem s2) ptr)). exact H.
  - intros i v Hi Hv. unfold is_end_marker_valid, returned. proj_red. f_equal.
    destruct (check_marker _ ptr END_MARKER) eqn:E; [|reflexivity].
    exfalso. apply Hv.
    pose proof (proj1 (check_marker_spec END_MARKER _ ptr) E i Hi) as H.
    rewrite upd_same in H. exact H.
Qed.

(** ** Sizes *)

Lemma padding_for_total sz :
  0 <= sz -> sizeof_header + sz + padding_for sz = least_block_size sz.
Proof.
  intros Hsz. unfold padding_for, least_block_size.
  rewrite wrap_mod16. unfold sizeof_header, ALIGNMENT, sizeof_END_MARKER.
  pose proof (Z.mod_pos_bound (64 + sz) 16 ltac:(lia)) as Hr.
  pose proof (Z.div_mod (64 + sz) 16 ltac:(lia)) as Hd.
  set (r := (64 + sz) mod 16) in *. set (q := (64 + sz) / 16) in *.
  destruct (Z.ltb_spec (16 - r) 8) as [Hlt|Hge].
  - rewrite wrap_small by lia.
    replace (64 + sz + 8 + (16 - 1)) with (r + 23 + (q * 16)) by lia.
    rewrite Z.div_add by lia.
    replace ((r + 23) / 16) with 2; [lia|].
    apply Z.div_unique with (r := r + 23 - 32); lia.
  - replace (64 + sz + 8 + (16 - 1)) with (r + 23 + (q * 16)) by lia.
    rewrite Z.div_add by lia.
    replace ((r + 23) / 16) with 1; [lia|].
    apply Z.div_unique with (r := r + 23 - 16); lia.
Qed.

(** X2: The block size [m61_malloc] computes for [sz] payload bytes is the
    least multiple of [ALIGNMENT] with room for the header, the payload and
    the end marker; the request is refused as an overflow exactly when that
    size does not fit in [size_t]. *)
Theorem malloc_block_size_least (sz : Z) :
  0 <= sz <= SIZE_MAX ->
  least_block_size sz mod ALIGNMENT = 0 /\
  sizeof_header + sz + sizeof_END_MARKER <= least_block_size sz /\
  (forall b, b mod ALIGNMENT = 0 -> sizeof_header + sz + sizeof_END_MARKER <= b ->
             least_block_size sz <= b) /\
  (size_overflows sz = true <-> SIZE_MAX < least_block_size sz) /\
  (size_overflows sz = false -> block_size_for sz = least_block_size sz).
Proof.
  intros Hsz. pose proof (padding_for_total sz (proj1 Hsz)) as Ht.
  pose proof (padding_for_range sz) as Hp.
  assert (Hm : least_block_size sz mod ALIGNMENT = 0).
  { unfold least_block_size. rewrite Z.mul_comm. apply Z.mod_mul. unfold ALIGNMENT. lia. }
  split; [exact Hm|]. split; [unfold sizeof_END_MARKER; lia|]. split; [|split].
  - intros b Hb Hle. unfold ALIGNMENT, sizeof_END_MARKER in *.
    apply Z.mod_divide in Hb; [|lia]. destruct Hb as [k Hk].
    apply Z.mod_divide in Hm; [|lia]. destruct Hm as [k' Hk'].
    destruct (Z_le_gt_dec k' k) as [?|Hgt]; [lia|]. exfalso.
    assert (k + 1 <= k') by lia. nia.
  - rewrite size_overflows_spec, Ht. reflexivity.
  - intros Hov. assert (Hno : ~ SIZE_MAX < sizeof_header + sz + padding_for sz)
      by (rewrite <- size_overflows_spec; congruence).
    unfold block_size_for. rewrite (wrap_small (sizeof_header + sz)) by mlia.
    rewrite wrap_small by mlia. exact Ht.
Qed.

Lemma malloc_block_size_least_witness :
  least_block_size 9 = 96 /\ block_size_for 9 = 96 /\ size_overflows 9 = false.
Proof.
  assert (H : 0 <= 9 <= SIZE_MAX) by (unfold SIZE_MAX; lia).
  destruct (malloc_block_size_least 9 H) as (_ & _ & _ & _ & Hb).
  split; [reflexivity|]. split; [rewrite Hb; reflexivity|reflexivity].
Defined.

(** X3: The overflow test of [m61_calloc] is exact: for two values of [size_t]
    it answers true exactly when their product does not fit in [size_t]. *)
Theorem is_overflowing_exact (a b : Z) :
  0 <= a <= SIZE_MAX -> 0 <= b <= SIZE_MAX ->
  (is_overflowing a b = true <-> SIZE_MAX < a * b) /\
  (is_overflowing a b = false -> wrap (a * b) = a * b).
Proof.
  intros Ha Hb. pose proof (is_overflowing_spec a b Ha Hb) as H.
  split; [exact H|]. intros E. apply wrap_small.
  assert (~ SIZE_MAX < a * b) by (rewrite <- H; congruence).
  unfold SIZE_MAX in *. nia.
Qed.

Lemma is_overflowing_exact_witness :
  (is_overflowing (2 ^ 63) 4 = true <-> SIZE_MAX < 2 ^ 63 * 4) /\
  (is_overflowing (2 ^ 31) (2 ^ 32) = true <-> SIZE_MAX < 2 ^ 31 * 2 ^ 32).
Proof.
  split.
  - apply (is_overflowing_exact (2 ^ 63) 4); vm_compute; split; discriminate.
  - apply (is_overflowing_exact (2 ^ 31) (2 ^ 32)); vm_compute; split; discriminate.
Defined.

(** ** Zero-filled allocation *)

(** X4: A successful [m61_calloc] is a successful [m61_malloc] of the exact
    product [count * sz], which fits in [size_t], followed by zeroing
    exactly the [count * sz] payload bytes: headers, list, arena and
    statistics are those the allocation left. *)
Theorem calloc_zero_filled (fuel : nat) (count sz : Z) (file : string) (ln : Z)
    (s : state) (ptr : Z) (s' : state) :
  0 <= count <= SIZE_MAX -> 0 <= sz <= SIZE_MAX ->
  m61_calloc fuel count sz file ln s = Ret ptr s' -> ptr <> NULL ->
  count * sz <= SIZE_MAX /\
  exists s_m,
    m61_malloc fuel (count * sz) file ln s = Ret ptr s_m /\
    (forall a, mem s' a
               = if (ptr <=? a) && (a <? ptr + count * sz) then 0 else mem s_m a) /\
    hdrs s' = hdrs s_m /\ head s' = head s_m /\ default_buffer s' = default_buffer s_m /\
    gstats s' = gstats s_m /\ stderr s' = stderr s_m.
Proof.
  intros Hc Hs E Hp. unfold m61_calloc in E.
  destruct (is_overflowing count sz) eqn:Hov.
  { cbv [bind modify ret] in E. injection E as E _. congruence. }
  pose proof (is_overflowing_spec count sz Hc Hs) as Hspec.
  assert (Hfit : count * sz <= SIZE_MAX).
  { destruct (Z_le_gt_dec (count * sz) SIZE_MAX) as [?|Hgt]; [assumption|].
    apply Z.gt_lt, Hspec in Hgt. congruence. }
  assert (Hw : wrap (count * sz) = count * sz)
    by (apply wrap_small; unfold SIZE_MAX in *; nia).
  rewrite Hw in E. split; [exact Hfit|].
  unfold bind at 1 in E.
  destruct (m61_malloc fuel (count * sz) file ln s) as [q s_m| |] eqn:Em; try discriminate.
  unfold bind at 1 in E. exists s_m.
  destruct (Z.eqb_spec q NULL) as [->|Hq]; cbn [negb when_] in E.
  - cbv [ret] in E. injection E as E _. congruence.
  - cbv [memset modify ret] in E. injection E as <- <-.
    split; [reflexivity|]. proj_red. repeat split; reflexivity.
Qed.

Lemma calloc_zero_filled_witness :
  let s' := after (m61_calloc 1 4 8 "test.cc" 5) (init_state 4096) in
  m61_calloc 1 4 8 "test.cc" 5 (init_state 4096) = Ret 4160 s' /\
  4 * 8 <= SIZE_MAX /\
  mem s' 4170 = 0.
Proof.
  intros s'.
  assert (E : m61_calloc 1 4 8 "test.cc" 5 (init_state 4096) = Ret 4160 s')
    by (apply (returned_eq (m61_calloc 1 4 8 "test.cc" 5) (init_state 4096) 4160);
        vm_compute; reflexivity).
  assert (Hc : 0 <= 4 <= SIZE_MAX) by (unfold SIZE_MAX; lia).
  assert (Hs : 0 <= 8 <= SIZE_MAX) by (unfold SIZE_MAX; lia).
  assert (Hp : 4160 <> NULL) by (unfold NULL; lia).
  destruct (calloc_zero_filled 1 4 8 "test.cc" 5 (init_state 4096) 4160 s' Hc Hs E Hp)
    as (Hfit & s_m & _ & Hmem & _).
  split; [exact E|]. split; [exact Hfit|].
  rewrite Hmem. reflexivity.
Defined.

(** ** Detection of a write past the payload *)

(** X5: A block that [m61_free] would otherwise accept: once the client has
    overwritten any one of the eight bytes behind its payload with another
    value, [m61_free] prints the wild-write diagnostic and aborts, leaving
    headers, list, arena and statistics as they were. *)
Theorem free_detects_overrun (fuel : nat) (s : state) (ptr : Z) (file : string) (ln : Z)
    (i : nat) (v : Z) :
  ptr <> NULL ->
  heap_min (gstats s) <= ptr <= heap_max (gstats s) ->
  (ptr - sizeof_header) mod ALIGNMENT = 0 ->
  p_payload (hdrs s (ptr - sizeof_header)) = ptr ->
  p_status (hdrs s (ptr - sizeof_header)) = ALLOCATED ->
  (i < 8)%nat -> v <> nth i END_MARKER 0 ->
  let s_bad :=
    with_mem (upd (mem s) (p_end_marker (hdrs s (ptr - sizeof_header)) + Z.of_nat i) v) s in
  m61_free fuel ptr file ln s_bad
  = Abort (with_stderr (stderr s ++ [WildWrite file ln ptr]) s_bad).
Proof.
  intros Hp Hr Ha Hpl Hst Hi Hv s_bad.
  assert (Hbad : check_marker (mem s_bad) (p_end_marker (hdrs s (ptr - sizeof_header)))
                   END_MARKER = false).
  { destruct (check_marker _ _ END_MARKER) eqn:E; [|reflexivity].
    exfalso. apply Hv.
    pose proof (proj1 (check_marker_spec END_MARKER _ _) E i Hi) as H.
    unfold s_bad in H. revert H. proj_red. rewrite upd_same. auto. }
  apply (wp_intro (m61_free fuel ptr file ln) s_bad (fun o => o = Abort _)).
  unfold m61_free. subst s_bad. revert Hbad. proj_red. intros Hbad.
  wp_run ltac:(st_simp; rewrite ?Hpl, ?Hst, ?Ha, ?Hbad).
  reflexivity.
Qed.

Lemma free_detects_overrun_witness :
  let s := after (m61_malloc 1 8 "test.cc" 5) (init_state 4096) in
  let s_bad := with_mem (upd (mem s) 4168 0) s in
  m61_free 1 4160 "test.cc" 6 s_bad
  = Abort (with_stderr (stderr s ++ [WildWrite "test.cc" 6 4160]) s_bad).
Proof.
  intros s s_bad.
  assert (Hp : 4160 <> NULL) by (unfold NULL; lia).
  assert (Hr : heap_min (gstats s) <= 4160 <= heap_max (gstats s))
    by (vm_compute; split; discriminate).
  assert (Ha : (4160 - sizeof_header) mod ALIGNMENT = 0) by reflexivity.
  assert (Hpl : p_payload (hdrs s (4160 - sizeof_header)) = 4160) by (vm_compute; reflexivity).
  assert (Hst : p_status (hdrs s (4160 - sizeof_header)) = ALLOCATED)
    by (vm_compute; reflexivity).
  assert (Hi : (0 < 8)%nat) by lia.
  assert (Hv : 0 <> nth 0 END_MARKER 0) by (cbn; lia).
  assert (He : p_end_marker (hdrs s (4160 - sizeof_header)) + Z.of_nat 0 = 4168)
    by (vm_compute; reflexivity).
  pose proof (free_detects_overrun 1 s 4160 "test.cc" 6 0 0 Hp Hr Ha Hpl Hst Hi Hv) as H.
  cbv zeta in H. rewrite He in H. exact H.
Defined.

(** ** What an allocation and a release leave alone *)

Lemma pushed_placed s s' N tr f bsz sz :
  heap_geometry s N -> live_ok s N tr ->
  f = buffer (default_buffer s) + pos (default_buffer s) ->
  sizeof_header + sz + sizeof_END_MARKER <= bsz ->
  pushed s s' f bsz sz ->
  mem s' = write_marker (mem s) (f + sizeof_header + sz) END_MARKER ->
  placed s s' f sz.
Proof.
  intros G L Hf Hfit P Hm.
  assert (Hnf : ~ N f).
  { intros H. destruct (hg_node _ _ G f H) as (_ & ? & ? & _). lia. }
  constructor.
  - intros H. destruct (L f H) as (? & _). contradiction.
  - rewrite (pu_p_status _ _ _ _ _ P), Z.eqb_refl. reflexivity.
  - rewrite (pu_p_payload _ _ _ _ _ P), Z.eqb_refl. reflexivity.
  - rewrite (pu_p_end_marker _ _ _ _ _ P), Z.eqb_refl. reflexivity.
  - rewrite (pu_block_size _ _ _ _ _ P), Z.eqb_refl. exact Hfit.
  - intros x Hx. rewrite (pu_p_status _ _ _ _ _ P), (pu_block_size _ _ _ _ _ P),
      (pu_p_payload _ _ _ _ _ P), (pu_p_end_marker _ _ _ _ _ P).
    destruct (Z.eqb_spec x f); [contradiction|]. repeat split; auto.
  - exact Hm.
  - apply (pu_buffer _ _ _ _ _ P).
  - apply (pu_size _ _ _ _ _ P).
Qed.

Lemma claimed_placed s s' p sz :
  p_status (hdrs s p) = FREE ->
  sizeof_header + sz + sizeof_END_MARKER <= block_size (hdrs s p) ->
  claimed s s' p sz ->
  mem s' = write_marker (mem s) (p + sizeof_header + sz) END_MARKER ->
  placed s s' p sz.
Proof.
  intros Hf Hfit C Hm. constructor.
  - rewrite Hf. exact tags_differ.
  - rewrite (cl_p_status _ _ _ _ C), Z.eqb_refl. reflexivity.
  - rewrite (cl_p_payload _ _ _ _ C), Z.eqb_refl. reflexivity.
  - rewrite (cl_p_end_marker _ _ _ _ C), Z.eqb_refl. reflexivity.
  - rewrite (cl_block_size _ _ _ _ C). exact Hfit.
  - intros x Hx. rewrite (cl_p_status _ _ _ _ C), (cl_block_size _ _ _ _ C),
      (cl_p_payload _ _ _ _ C), (cl_p_end_marker _ _ _ _ C).
    destruct (Z.eqb_spec x p); [contradiction|]. repeat split; auto.
  - exact Hm.
  - rewrite (cl_buffer _ _ _ _ C). reflexivity.
  - rewrite (cl_buffer _ _ _ _ C). reflexivity.
Qed.

Lemma carved_placed s s' N tr p q req res sz :
  heap_geometry s N -> live_ok s N tr -> N p ->
  p_status (hdrs s p) = FREE ->
  q = p + req -> 0 < req -> 0 < res -> req + res = block_size (hdrs s p) ->
  sizeof_header + sz + sizeof_END_MARKER <= req ->
  carved s s' p q req res sz ->
  mem s' = write_marker (mem s) (p + sizeof_header + sz) END_MARKER ->
  placed s s' p sz.
Proof.
  intros G L Hp Hf Hq Hreq Hres Hsum Hfit C Hm.
  assert (Hnq : ~ N q).
  { intros Hc. pose proof (hg_disjoint _ _ G p q Hp Hc ltac:(lia)). lia. }
  assert (Hqa : p_status (hdrs s q) <> ALLOCATED).
  { intros H. destruct (L q H) as (? & _). contradiction. }
  assert (Hpq : p <> q) by lia.
  constructor.
  - rewrite Hf. exact tags_differ.
  - rewrite (cv_p_status _ _ _ _ _ _ _ C).
    destruct (Z.eqb_spec p q); [contradiction|]. rewrite Z.eqb_refl. reflexivity.
  - rewrite (cv_p_payload _ _ _ _ _ _ _ C) by exact Hpq. rewrite Z.eqb_refl. reflexivity.
  - rewrite (cv_p_end_marker _ _ _ _ _ _ _ C) by exact Hpq. rewrite Z.eqb_refl. reflexivity.
  - rewrite (cv_block_size _ _ _ _ _ _ _ C).
    destruct (Z.eqb_spec p q); [contradiction|]. rewrite Z.eqb_refl. exact Hfit.
  - intros x Hx. rewrite (cv_p_status _ _ _ _ _ _ _ C), (cv_block_size _ _ _ _ _ _ _ C).
    destruct (Z.eqb_spec x q) as [->|Hxq].
    + split; [split; intros H; [destruct (tags_differ H)|contradiction]|].
      intros H. contradiction.
    + rewrite (cv_p_payload _ _ _ _ _ _ _ C) by exact Hxq.
      rewrite (cv_p_end_marker _ _ _ _ _ _ _ C) by exact Hxq.
      destruct (Z.eqb_spec x p); [contradiction|]. repeat split; auto.
  - exact Hm.
  - rewrite (cv_buffer _ _ _ _ _ _ _ C). reflexivity.
  - rewrite (cv_buffer _ _ _ _ _ _ _ C). reflexivity.
Qed.

Lemma find_freed_block_loop_placed fuel req sz file ln :
  0 < req -> sizeof_header + sz + sizeof_END_MARKER <= req ->
  forall cur s N tr,
    heap_geometry s N -> tidy s N -> live_ok s N tr -> cur = NULL \/ N cur ->
    wp (find_freed_block_loop fuel cur req sz file ln) s
       (returns (fun q s' =>
          q <> NULL -> placed s s' (q - sizeof_header) sz)).
Proof.
  intros Hreq Hroom. induction fuel as [|fuel IH]; intros cur s N tr G T L Hcur;
    cbn [find_freed_block_loop].
  - wp_run st_simp. exact I.
  - wp_split; [wp_run st_simp; intros H; destruct H; reflexivity|].
    apply Z.eqb_neq in Heqb. destruct Hcur as [?|Hp]; [contradiction|].
    wp_step st_simp. wp_step st_simp. wp_step st_simp. wp_split.
    + apply andb_true_iff in Heqb0. destruct Heqb0 as [Hf Hfit].
      apply Z.eqb_eq in Hf. apply Z.leb_le in Hfit.
      destruct (free_block_above _ _ _ G T Hp Hf) as (Hph & Hn0 & Hn & Hnn & Hadj & Hna).
      pose proof (node_pos _ _ _ G Hp) as Hp0.
      destruct (hg_node _ _ G cur Hp) as (Hpb & Hps & Hpt & _).
      pose proof (hg_pos _ _ G). pose proof (hg_size _ _ G). pose proof (hg_buffer _ _ G).
      assert (Hw : wrap (block_size (hdrs s cur) - req) = block_size (hdrs s cur) - req)
        by (apply wrap_small; unfold SIZE_MAX in *; lia).
      wp_auto.
      all: wp_leaf idtac.
      * intros _. replace (cur + sizeof_header - sizeof_header) with cur by lia.
        eapply (claimed_placed s _ cur sz Hf ltac:(lia)); [|reflexivity].
        constructor; proj_red; try reflexivity; fields_solve.
      * apply Z.ltb_ge in Heqb0. rewrite Hw in *.
        intros _. replace (cur + sizeof_header - sizeof_header) with cur by lia.
        eapply (carved_placed s _ N tr cur (cur + req) req (block_size (hdrs s cur) - req) sz
                  G L Hp Hf eq_refl Hreq); [unfold MIN_BLOCK_SIZE, sizeof_header, ALIGNMENT in Heqb0; lia|lia|exact Hroom| |reflexivity].
        constructor; proj_red; try reflexivity; fields_solve.
    + apply IH with (N := N) (tr := tr); try assumption.
      destruct (hg_down _ _ G cur Hp) as [?|[? _]]; [left|right]; assumption.
Qed.

Lemma find_free_space_placed fuel bsz sz file ln s tr :
  heap_ok s tr -> 0 < bsz -> sizeof_header + sz + sizeof_END_MARKER <= bsz ->
  wp (find_free_space fuel bsz sz file ln) s
     (returns (fun q s' => q <> NULL -> placed s s' (q - sizeof_header) sz)).
Proof.
  intros (N & G & T & L) Hbsz Hroom. unfold find_free_space.
  pose proof (hg_pos _ _ G) as Hpos. pose proof (hg_size _ _ G) as Hsize.
  pose proof (hg_buffer _ _ G) as Hbuf.
  assert (Hw : wrap (size (default_buffer s) - pos (default_buffer s))
               = size (default_buffer s) - pos (default_buffer s))
    by (apply wrap_small; unfold SIZE_MAX in *; lia).
  wp_run st_simp. rewrite Hw. wp_split.
  - apply Z.leb_le in Heqb.
    assert (Hw' : wrap (pos (default_buffer s) + bsz) = pos (default_buffer s) + bsz)
      by (apply wrap_small; unfold SIZE_MAX in *; lia).
    destruct (Z.eq_dec (head s) NULL) as [Eh|Eh].
    + wp_run ltac:(st_simp; rewrite ?Eh). cbn [returns]. intros _.
      replace (buffer (default_buffer s) + pos (default_buffer s) + sizeof_header - sizeof_header)
        with (buffer (default_buffer s) + pos (default_buffer s)) by lia.
      eapply (pushed_placed s _ N tr _ bsz sz G L eq_refl Hroom); [|reflexivity].
      constructor; proj_red; rewrite ?Hw'; try reflexivity; fields_solve.
    + assert (Hhf : head s < buffer (default_buffer s) + pos (default_buffer s)).
      { destruct (hg_head _ _ G) as [?|[Hn _]]; [contradiction|].
        destruct (hg_node _ _ G _ Hn) as (_ & ? & ? & _). lia. }
      wp_run st_simp. cbn [returns]. intros _.
      replace (buffer (default_buffer s) + pos (default_buffer s) + sizeof_header - sizeof_header)
        with (buffer (default_buffer s) + pos (default_buffer s)) by lia.
      eapply (pushed_placed s _ N tr _ bsz sz G L eq_refl Hroom); [|reflexivity].
      constructor; proj_red; rewrite ?Hw'; try reflexivity; fields_solve.
  - unfold find_freed_block. wp_run st_simp.
    apply (find_freed_block_loop_placed fuel bsz sz file ln Hbsz Hroom _ s N tr G T L).
    destruct (hg_head _ _ G) as [?|[? _]]; [left|right]; assumption.
Qed.

Lemma block_size_for_room sz :
  0 <= sz -> size_overflows sz = false ->
  sizeof_header + sz + sizeof_END_MARKER <= block_size_for sz.
Proof.
  intros Hsz Hov.
  assert (Hno : ~ SIZE_MAX < sizeof_header + sz + padding_for sz)
    by (rewrite <- size_overflows_spec; congruence).
  pose proof (padding_for_range sz).
  unfold block_size_for. rewrite (wrap_small (sizeof_header + sz)) by mlia.
  rewrite wrap_small by mlia. mlia.
Qed.

Lemma placed_ext s s1 s' p sz :
  placed s s1 p sz -> hdrs s' = hdrs s1 -> mem s' = mem s1 ->
  default_buffer s' = default_buffer s1 -> placed s s' p sz.
Proof.
  intros [] Eh Em Eb. constructor; rewrite ?Eh, ?Em, ?Eb; assumption.
Qed.

Lemma malloc_placed fuel sz file ln s tr :
  heap_ok s tr -> 0 <= sz <= SIZE_MAX ->
  wp (m61_malloc fuel sz file ln) s
     (returns (fun q s' => q <> NULL -> placed s s' (q - sizeof_header) sz)).
Proof.
  intros H Hsz. unfold m61_malloc. wp_split.
  - wp_run st_simp. cbn [returns]. intros Hc. destruct Hc. reflexivity.
  - wp_call find_free_space_placed;
      [exact H|apply block_size_for_pos; [lia|assumption]
      |apply block_size_for_room; [lia|assumption]|].
    wp_step st_simp. wp_split; wp_run st_simp; cbn [returns].
    + apply Z.eqb_eq in Heqb0. intros Hc. contradiction.
    + intros Hq. apply (placed_ext s _ _ _ _ (Hcall Hq)); reflexivity.
Qed.

Lemma malloc_placed_inv fuel sz file ln s tr q s' :
  heap_ok s tr -> 0 <= sz <= SIZE_MAX ->
  m61_malloc fuel sz file ln s = Ret q s' -> q <> NULL ->
  placed s s' (q - sizeof_header) sz.
Proof.
  intros H Hsz E Hq. pose proof (malloc_placed fuel sz file ln s tr H Hsz) as W.
  unfold wp in W. rewrite E in W. apply W. exact Hq.
Qed.

Lemma free_tail_frame s s1 N tr p :
  heap_geometry s N -> tidy s N -> live_ok s N tr ->
  p_status (hdrs s p) = ALLOCATED -> marked_free s s1 p ->
  tags_frame s1 (move_pos (coalesce_down p (coalesce_up p s1))) /\
  (forall z, p_status (hdrs s1 z) = ALLOCATED ->
     block_size (hdrs (move_pos (coalesce_down p (coalesce_up p s1))) z)
     = block_size (hdrs s1 z)) /\
  buffer (default_buffer (move_pos (coalesce_down p (coalesce_up p s1))))
    = buffer (default_buffer s1) /\
  size (default_buffer (move_pos (coalesce_down p (coalesce_up p s1))))
    = size (default_buffer s1).
Proof.
  intros G [Hpairs Hhead] L Hpa M.
  destruct (L p Hpa) as (Hp & _).
  assert (G1 : heap_geometry s1 N).
  { apply (heap_geometry_ext s s1 N G (mf_head _ _ _ M) (mf_buffer _ _ _ M)
             (mf_block_size _ _ _ M) (mf_p_prev _ _ _ M) (mf_p_next _ _ _ M)).
    intros z _ Hz. unfold tagged. rewrite (mf_p_status _ _ _ M).
    destruct (z =? p); [left; reflexivity|exact Hz]. }
  assert (Hf1 : p_status (hdrs s1 p) = FREE)
    by (rewrite (mf_p_status _ _ _ M), Z.eqb_refl; reflexivity).
  assert (Hpairs1 : no_free_pair_but p s1 N).
  { intros x Hx Hxp Hxf. rewrite (mf_p_status _ _ _ M) in Hxf.
    destruct (Z.eqb_spec x p); [contradiction|].
    rewrite (mf_p_next _ _ _ M), (mf_p_status _ _ _ M).
    destruct (Z.eqb_spec (p_next (hdrs s x)) p); [right; left; assumption|].
    destruct (Hpairs x Hx Hxf); [left|right; right]; assumption. }
  assert (Hhead1 : head s1 = p \/ p_status (hdrs s1 (head s1)) = ALLOCATED).
  { rewrite (mf_head _ _ _ M), (mf_p_status _ _ _ M).
    destruct (Z.eqb_spec (head s) p); [left; assumption|right].
    destruct Hhead as [E|E]; [|exact E].
    destruct (head_node _ _ _ G Hp) as (? & _). contradiction. }
  destruct (coalesce_up_ok _ _ _ G1 Hp Hf1 Hpairs1 Hhead1)
    as (N2 & G2 & Hp2 & K2 & T2 & Hpairs2 & Hup2).
  assert (B2 : (forall z, z <> p -> block_size (hdrs (coalesce_up p s1) z)
                                    = block_size (hdrs s1 z)) /\
               default_buffer (coalesce_up p s1) = default_buffer s1).
  { unfold coalesce_up. destruct (is_free s1 (p_prev (hdrs s1 p))) eqn:E; [|split; reflexivity].
    apply is_free_true in E. destruct E as [En _].
    destruct (node_above _ _ _ G1 Hp En) as (Hn & _).
    destruct (absorb_fields _ _ _ _ G1 Hp Hn eq_refl) as (Fbs & _ & _ & _ & _ & _ & _ & Fb & _).
    split; [|exact Fb]. intros z Hz. rewrite Fbs.
    destruct (Z.eqb_spec z p); [contradiction|reflexivity]. }
  set (s2 := coalesce_up p s1) in *.
  assert (Hf2 : p_status (hdrs s2 p) = FREE)
    by (destruct T2 as (F & _); destruct (F p) as (-> & _); exact Hf1).
  destruct (coalesce_down_ok _ _ _ G2 Hp2 Hf2 Hpairs2 Hup2)
    as (N3 & G3 & K3 & T3 & Hpairs3 & Hh3).
  assert (B3 : (forall z, p_status (hdrs s2 z) = ALLOCATED ->
                          block_size (hdrs (coalesce_down p s2) z) = block_size (hdrs s2 z)) /\
               default_buffer (coalesce_down p s2) = default_buffer s2).
  { unfold coalesce_down. destruct (is_free s2 (p_next (hdrs s2 p))) eqn:E; [|split; reflexivity].
    apply is_free_true in E. destruct E as [En Ens].
    destruct (node_below _ _ _ G2 Hp2 En) as (Ho & Hop & _).
    destruct (absorb_fields _ _ _ _ G2 Ho Hp2 Hop) as (Fbs & _ & _ & _ & _ & _ & _ & Fb & _).
    split; [|exact Fb]. intros z Hz. rewrite Fbs.
    destruct (Z.eqb_spec z (p_next (hdrs s2 p))) as [E|E]; [|reflexivity].
    rewrite E, Ens in Hz. destruct (tags_differ Hz). }
  set (s3 := coalesce_down p s2) in *.
  assert (B4 : (forall z, block_size (hdrs (move_pos s3) z) = block_size (hdrs s3 z)) /\
               buffer (default_buffer (move_pos s3)) = buffer (default_buffer s3) /\
               size (default_buffer (move_pos s3)) = size (default_buffer s3)).
  { unfold move_pos.
    destruct ((head s3 =? NULL) || (p_status (hdrs s3 (head s3)) =? ALLOCATED)) eqn:E;
      [repeat split; reflexivity|].
    destruct (retract_fields _ _ G3 Hh3) as (Fbs & _ & _ & _ & _ & _ & _ & Fb & Fs & _).
    split; [exact Fbs|]. split; assumption. }
  destruct (move_pos_ok _ _ G3 Hpairs3) as (N4 & G4 & K4 & T4 & Tidy4).
  split; [exact (tags_frame_trans _ _ _ (tags_frame_trans _ _ _ T2 T3) T4)|].
  destruct B2 as [B2 B2b], B3 as [B3 B3b], B4 as (B4 & B4b & B4s).
  split; [|split].
  - intros z Hz. rewrite B4, B3, B2; [reflexivity| |].
    + intros ->. rewrite Hf1 in Hz. destruct (tags_differ Hz).
    + destruct T2 as (F & _). destruct (F z) as (-> & _). exact Hz.
  - rewrite B4b, B3b, B2b. reflexivity.
  - rewrite B4s, B3b, B2b. reflexivity.
Qed.

Lemma free_released fuel ptr file ln s tr :
  heap_ok s tr -> ptr <> NULL ->
  wp (m61_free fuel ptr file ln) s
     (returns (fun _ s' => handed_back s s' (ptr - sizeof_header))).
Proof.
  intros (N & G & Tidy & L) Hptr. unfold m61_free.
  repeat first [ wp_step_gen st_simp ltac:(st_simp; bsolve) stop_free | wp_split ];
    wp_leaf idtac.
  - wp_call (@wp_any unit); wp_run st_simp; wp_leaf idtac.
  - apply negb_false_iff, Z.eqb_eq in Heqb2.
    destruct (L _ Heqb2) as (Hp & Hpl & sz & Hsz & Hem & Hrange).
    replace (ptr - sizeof_header + sizeof_header) with ptr in * by lia.
    apply wp_unbind.
    lazymatch goal with
    | |- wp _ ?s1 _ =>
        assert (M : marked_free s s1 (ptr - sizeof_header)); [|set (s1' := s1) in *]
    end.
    { constructor; proj_red; try reflexivity; intros z;
        destruct (Z.eqb_spec z (ptr - sizeof_header)) as [->|E];
        lookup_simp; proj_red; try reflexivity; intros; congruence. }
    destruct (free_tail_ok _ _ _ _ _ G Tidy L Heqb2 M) as [Hrun _].
    destruct (free_tail_frame _ _ _ _ _ G Tidy L Heqb2 M) as ((F & Fm & _) & Fbs & Fb & Fs).
    eapply wp_eq; [exact Hrun|]. cbn [returns].
    assert (Hm1 : mem s1' = mem s) by reflexivity.
    assert (Hb1 : default_buffer s1' = default_buffer s) by reflexivity.
    constructor.
    + exact Heqb2.
    + destruct (F (ptr - sizeof_header)) as (-> & _).
      rewrite (mf_p_status _ _ _ M), Z.eqb_refl. reflexivity.
    + intros x Hx. destruct (F x) as (-> & -> & ->).
      rewrite (mf_p_status _ _ _ M), (mf_p_payload _ _ _ M x Hx),
        (mf_p_end_marker _ _ _ M x Hx).
      destruct (Z.eqb_spec x (ptr - sizeof_header)); [contradiction|].
      repeat split. intros Hxa. rewrite Fbs.
      * apply (mf_block_size _ _ _ M).
      * rewrite (mf_p_status _ _ _ M).
        destruct (Z.eqb_spec x (ptr - sizeof_header)); [contradiction|exact Hxa].
    + rewrite Fm. exact Hm1.
    + rewrite Fb, Hb1. reflexivity.
    + rewrite Fs, Hb1. reflexivity.
Qed.

Lemma free_released_inv fuel ptr file ln s tr s' :
  heap_ok s tr -> ptr <> NULL -> m61_free fuel ptr file ln s = Ret tt s' ->
  handed_back s s' (ptr - sizeof_header).
Proof.
  intros H Hp E. pose proof (free_released fuel ptr file ln s tr H Hp) as W.
  unfold wp in W. rewrite E in W. exact W.
Qed.

(** ** The state of the heap along a run *)

Lemma check_marker_ext m m' ptr :
  (forall a, ptr <= a < ptr + sizeof_END_MARKER -> m' a = m a) ->
  check_marker m' ptr END_MARKER = check_marker m ptr END_MARKER.
Proof.
  intros H.
  assert (Hiff : check_marker m' ptr END_MARKER = true <->
                 check_marker m ptr END_MARKER = true).
  { rewrite !check_marker_spec. split; intros Hc i Hi.
    - rewrite <- H; [apply Hc; exact Hi|]. cbn [List.length END_MARKER] in Hi.
      unfold sizeof_END_MARKER. lia.
    - rewrite H; [apply Hc; exact Hi|]. cbn [List.length END_MARKER] in Hi.
      unfold sizeof_END_MARKER. lia. }
  destruct (check_marker m' ptr END_MARKER), (check_marker m ptr END_MARKER);
    try reflexivity; destruct Hiff as [H1 H2].
  - symmetry. apply H1. reflexivity.
  - apply H2. reflexivity.
Qed.

(** The layout of an allocated block: payload behind the header, end
    marker behind the payload, both inside the block. *)
Lemma block_layout s tr x :
  well_formed s tr -> p_status (hdrs s x) = ALLOCATED ->
  exists sz,
    allocated_size tr (x + sizeof_header) = Some sz /\ 0 <= sz /\
    p_payload (hdrs s x) = x + sizeof_header /\
    p_end_marker (hdrs s x) = x + sizeof_header + sz /\
    x + sizeof_header + sz + sizeof_END_MARKER <= x + block_size (hdrs s x).
Proof.
  intros W Hx. destruct (wf_heap _ _ W) as (N & G & T & L).
  destruct (L x Hx) as (_ & Hpl & sz & Hsz & Hem & Hr).
  exists sz. split; [exact Hsz|]. split; [lia|]. split; [exact Hpl|]. split; [exact Hem|].
  pose proof (wf_fits _ _ W x Hx). lia.
Qed.

Lemma blocks_apart s tr x y :
  heap_ok s tr -> p_status (hdrs s x) = ALLOCATED -> p_status (hdrs s y) = ALLOCATED ->
  x <> y ->
  x + block_size (hdrs s x) <= y \/ y + block_size (hdrs s y) <= x.
Proof.
  intros (N & G & T & L) Hx Hy Hne.
  destruct (L x Hx) as (Nx & _). destruct (L y Hy) as (Ny & _).
  destruct (Z_lt_ge_dec x y) as [Hlt|Hge].
  - left. apply (hg_disjoint _ _ G x y Nx Ny Hlt).
  - right. apply (hg_disjoint _ _ G y x Ny Nx). lia.
Qed.

Lemma block_in_arena s tr x :
  heap_ok s tr -> p_status (hdrs s x) = ALLOCATED ->
  0 < x /\ buffer (default_buffer s) <= x /\
  x + block_size (hdrs s x) <= buffer (default_buffer s) + size (default_buffer s) /\
  buffer (default_buffer s) + size (default_buffer s) <= SIZE_MAX.
Proof.
  intros (N & G & T & L) Hx. destruct (L x Hx) as (Nx & _).
  destruct (hg_node _ _ G x Nx) as (? & ? & ? & _).
  pose proof (hg_pos _ _ G). pose proof (hg_buffer _ _ G). pose proof (hg_size _ _ G).
  repeat split; lia.
Qed.

(** Writing bytes inside a payload the client holds keeps the heap well
    formed. *)
Lemma payload_write_ok s tr p sz m' :
  well_formed s tr -> allocated_size tr p = Some sz ->
  (forall a, ~ (p <= a < p + sz) -> m' a = mem s a) ->
  well_formed (with_mem m' s) tr.
Proof.
  intros W Hp Hm. constructor.
  - apply (heap_ok_ext s _ tr (wf_heap _ _ W)); reflexivity.
  - exact (wf_back _ _ W).
  - exact (wf_fits _ _ W).
  - intros x Hx. revert Hx. proj_red. intros Hx.
    rewrite <- (wf_markers _ _ W x Hx). apply check_marker_ext.
    intros a Ha. apply Hm. intros Hin.
    pose proof (wf_back _ _ W p sz Hp) as Hy.
    destruct (block_layout s tr x W Hx) as (sx & Hsx & Hsx0 & _ & Hex & Hfx).
    destruct (block_layout s tr _ W Hy) as (sy & Hsy & Hsy0 & _ & Hey & Hfy).
    replace (p - sizeof_header + sizeof_header) with p in * by lia.
    assert (sy = sz) by congruence. subst sy.
    rewrite Hex in Ha. unfold sizeof_END_MARKER, sizeof_header in *.
    destruct (Z.eq_dec x (p - 64)) as [->|Hne]; [lia|].
    destruct (blocks_apart s tr x (p - 64) (wf_heap _ _ W) Hx Hy Hne); lia.
  - exact (wf_range _ _ W).
Qed.

Lemma malloc_null_state fuel sz file ln s tr s' :
  heap_ok s tr -> 0 <= sz <= SIZE_MAX ->
  m61_malloc fuel sz file ln s = Ret NULL s' -> s' = record_failure sz s.
Proof.
  intros H Hsz E.
  assert (W : wp (m61_malloc fuel sz file ln) s
                (returns (fun q s' => q = NULL -> s' = record_failure sz s))).
  { unfold m61_malloc. wp_split.
    - wp_run st_simp. cbn [returns]. reflexivity.
    - wp_call find_free_space_ok; [exact H|apply block_size_for_pos; [lia|assumption]|exact Hsz|].
      wp_step st_simp. wp_split; wp_run st_simp; cbn [returns].
      + destruct Hcall as [[_ ->]|[Hc _]]; [reflexivity|].
        apply Z.eqb_eq in Heqb0. contradiction.
      + apply Z.eqb_neq in Heqb0. intros; contradiction. }
  unfold wp in W. rewrite E in W. apply W. reflexivity.
Qed.

Lemma well_formed_stats s tr g :
  well_formed s tr -> heap_min g = heap_min (gstats s) -> heap_max g = heap_max (gstats s) ->
  well_formed (with_gstats g s) tr.
Proof.
  intros W Hmin Hmax. constructor.
  - apply (heap_ok_ext s _ tr (wf_heap _ _ W)); reflexivity.
  - exact (wf_back _ _ W).
  - exact (wf_fits _ _ W).
  - exact (wf_markers _ _ W).
  - destruct (wf_range _ _ W) as [H0 Hr]. unfold range_ok. proj_red.
    rewrite Hmin, Hmax. split; assumption.
Qed.

Lemma well_formed_malloc fuel sz file ln s tr q s' :
  well_formed s tr -> 0 <= sz <= SIZE_MAX ->
  m61_malloc fuel sz file ln s = Ret q s' ->
  well_formed s' (if q =? NULL then tr else EvMalloc sz q :: tr).
Proof.
  intros W Hsz E. destruct (Z.eqb_spec q NULL) as [->|Hq].
  { rewrite (malloc_null_state _ _ _ _ _ _ _ (wf_heap _ _ W) Hsz E).
    apply well_formed_stats; [exact W|reflexivity|reflexivity]. }
  pose proof (malloc_heap_ok_inv _ _ _ _ _ _ _ _ (wf_heap _ _ W) Hsz E Hq) as H'.
  pose proof (malloc_placed_inv _ _ _ _ _ _ _ _ (wf_heap _ _ W) Hsz E Hq) as P.
  destruct (malloc_returns_inv _ _ _ _ _ _ _ E) as [_ [[? _]|[_ Hg]]]; [contradiction|].
  set (p := q - sizeof_header) in *.
  assert (Hqp : q = p + sizeof_header) by (unfold p; lia).
  assert (Halloc : forall x, p_status (hdrs s' x) = ALLOCATED ->
            x = p \/ (x <> p /\ p_status (hdrs s x) = ALLOCATED)).
  { intros x Hx. destruct (Z.eq_dec x p) as [?|Hne]; [left; assumption|right].
    split; [exact Hne|]. apply (pl_others _ _ _ _ P x Hne). exact Hx. }
  pose proof (block_in_arena s' _ p H' (pl_status _ _ _ _ P)) as (Hp0 & Hpb & Hpe & Hmax).
  pose proof (pl_fits _ _ _ _ P) as Hfit.
  constructor.
  - exact H'.
  - intros r rsz. cbn [allocated_size].
    destruct (Z.eqb_spec q r) as [<-|Hne].
    + intros _. fold p. apply (pl_status _ _ _ _ P).
    + intros Hr. apply (pl_others _ _ _ _ P); [lia|]. apply (wf_back _ _ W r rsz Hr).
  - intros x Hx. destruct (Halloc x Hx) as [->|[Hne Hxa]].
    + rewrite (pl_end _ _ _ _ P). lia.
    + destruct (proj2 (pl_others _ _ _ _ P x Hne) Hxa) as (-> & _ & ->).
      apply (wf_fits _ _ W x Hxa).
  - intros x Hx. rewrite (pl_mem _ _ _ _ P).
    destruct (Halloc x Hx) as [->|[Hne Hxa]].
    + rewrite (pl_end _ _ _ _ P). apply check_write_marker.
    + destruct (proj2 (pl_others _ _ _ _ P x Hne) Hxa) as (Hbs & _ & Hem).
      rewrite Hem. rewrite <- (wf_markers _ _ W x Hxa). apply check_marker_ext.
      intros a Ha. rewrite write_marker_spec.
      destruct (block_layout s tr x W Hxa) as (sx & _ & Hsx0 & _ & Hex & Hfx).
      rewrite Hex in Ha.
      destruct (blocks_apart s' _ x p H' Hx (pl_status _ _ _ _ P) Hne) as [Hd|Hd];
        rewrite ?Hbs in Hd; cbn [List.length END_MARKER];
        unfold sizeof_END_MARKER, sizeof_header in *.
      * replace (p + 64 + sz <=? a) with false by (symmetry; apply Z.leb_gt; lia).
        reflexivity.
      * replace (a <? p + 64 + sz + Z.of_nat 8) with false by (symmetry; apply Z.ltb_ge; lia).
        rewrite andb_false_r. reflexivity.
  - destruct (wf_range _ _ W) as [Hmin0 Hr].
    assert (Hw : wrap (q + sz) = q + sz).
    { apply wrap_small. unfold sizeof_END_MARKER, sizeof_header, SIZE_MAX in *. lia. }
    assert (Hq0 : 0 < q) by (unfold sizeof_header in *; lia).
    unfold range_ok. rewrite Hg. unfold record_success. proj_red. rewrite Hw.
    destruct (Z.eqb_spec (heap_min (gstats s)) 0) as [E0|E0];
      destruct (Z.ltb_spec q (heap_min (gstats s))) as [E1|E1];
      destruct (Z.eqb_spec (heap_max (gstats s)) 0) as [E2|E2];
      destruct (Z.ltb_spec (heap_max (gstats s)) (q + sz)) as [E3|E3];
      cbn [orb]; (split; [lia|]);
      intros x Hx; (destruct (Halloc x Hx) as [->|[Hne Hxa]];
        [rewrite (pl_end _ _ _ _ P), <- Hqp; lia
        |destruct (proj2 (pl_others _ _ _ _ P x Hne) Hxa) as (_ & _ & ->);
         destruct (Hr x Hxa); lia]).
Qed.

Lemma well_formed_free fuel ptr file ln s tr s' :
  well_formed s tr -> m61_free fuel ptr file ln s = Ret tt s' ->
  well_formed s' (if ptr =? NULL then tr else EvFree ptr :: tr).
Proof.
  intros W E. destruct (Z.eqb_spec ptr NULL) as [->|Hp].
  { rewrite free_null in E. injection E as <-. exact W. }
  destruct (free_heap_ok_inv _ _ _ _ _ _ _ (wf_heap _ _ W) Hp E) as (H' & _).
  pose proof (free_released_inv _ _ _ _ _ _ _ (wf_heap _ _ W) Hp E) as R.
  destruct (free_returns_inv _ _ _ _ _ _ Hp E) as (_ & _ & _ & _ & _ & _ & _ & Hg).
  cbv zeta in Hg.
  assert (Halloc : forall x, p_status (hdrs s' x) = ALLOCATED ->
            x <> ptr - sizeof_header /\ p_status (hdrs s x) = ALLOCATED).
  { intros x Hx. destruct (Z.eq_dec x (ptr - sizeof_header)) as [->|Hne].
    - rewrite (rl_status _ _ _ R) in Hx. destruct (tags_differ Hx).
    - split; [exact Hne|]. destruct (rl_others _ _ _ R x Hne) as (<- & _). exact Hx. }
  constructor.
  - exact H'.
  - intros r rsz. cbn [allocated_size].
    destruct (Z.eqb_spec ptr r) as [|Hne]; [discriminate|].
    intros Hr. destruct (rl_others _ _ _ R (r - sizeof_header) ltac:(lia)) as (-> & _).
    apply (wf_back _ _ W r rsz Hr).
  - intros x Hx. destruct (Halloc x Hx) as [Hne Hxa].
    destruct (rl_others _ _ _ R x Hne) as (_ & _ & -> & Hbs). rewrite (Hbs Hxa).
    apply (wf_fits _ _ W x Hxa).
  - intros x Hx. destruct (Halloc x Hx) as [Hne Hxa].
    destruct (rl_others _ _ _ R x Hne) as (_ & _ & -> & _). rewrite (rl_mem _ _ _ R).
    apply (wf_markers _ _ W x Hxa).
  - destruct (wf_range _ _ W) as [Hmin0 Hr]. unfold range_ok. rewrite Hg. proj_red.
    split; [exact Hmin0|]. intros x Hx. destruct (Halloc x Hx) as [Hne Hxa].
    destruct (rl_others _ _ _ R x Hne) as (_ & _ & -> & _).
    apply (Hr x Hxa).
Qed.

Lemma well_formed_calloc fuel count sz file ln s tr r s' :
  well_formed s tr -> 0 <= count <= SIZE_MAX -> 0 <= sz <= SIZE_MAX ->
  m61_calloc fuel count sz file ln s = Ret r s' ->
  well_formed s' (if r =? NULL then tr else EvMalloc (wrap (count * sz)) r :: tr).
Proof.
  intros W Hc Hs E. unfold m61_calloc in E.
  destruct (is_overflowing count sz).
  { cbv [bind modify ret] in E. injection E as <- <-. cbn [Z.eqb NULL].
    apply well_formed_stats; [exact W|reflexivity|reflexivity]. }
  unfold bind at 1 in E.
  destruct (m61_malloc fuel (wrap (count * sz)) file ln s) as [q s_m| |] eqn:Em;
    try discriminate.
  assert (Hr : 0 <= wrap (count * sz) <= SIZE_MAX).
  { pose proof (wrap_range (count * sz)). unfold SIZE_MAX. lia. }
  pose proof (well_formed_malloc _ _ _ _ _ _ _ _ W Hr Em) as Wm.
  unfold bind at 1 in E.
  destruct (Z.eqb_spec q NULL) as [->|Hq]; cbn [negb when_] in E.
  - cbv [ret] in E. injection E as <- <-. exact Wm.
  - cbv [memset modify ret] in E. injection E as <- <-.
    destruct (Z.eqb_spec q NULL); [contradiction|].
    apply (payload_write_ok s_m _ q (wrap (count * sz)) _ Wm).
    + cbn [allocated_size]. rewrite Z.eqb_refl. reflexivity.
    + intros a Ha.
      destruct (Z.leb_spec q a), (Z.ltb_spec a (q + wrap (count * sz))); cbn [andb];
        try reflexivity. lia.
Qed.

Lemma realloc_copy_size_bound new_ptr sz s :
  exists n, realloc_copy_size new_ptr sz s = Ret n s /\ n <= sz.
Proof.
  unfold realloc_copy_size, get_payload_size, bind, load, ret.
  destruct (Z.ltb_spec (payload_size_of (hdrs s (new_ptr - sizeof_header))) sz);
    eexists; split; try reflexivity; lia.
Qed.

Lemma well_formed_realloc fuel ptr sz file ln s tr r s' :
  well_formed s tr -> 0 <= sz <= SIZE_MAX ->
  m61_realloc fuel ptr sz file ln s = Ret r s' ->
  well_formed s' (call_events (CallRealloc ptr sz file ln) r tr).
Proof.
  intros W Hs E. unfold m61_realloc in E. cbn [call_events].
  destruct (Z.eqb_spec sz 0) as [->|Hsz].
  { cbv [ret] in E. injection E as <- <-. exact W. }
  unfold bind at 1 in E.
  destruct (m61_malloc fuel sz file ln s) as [q s_m| |] eqn:Em; try discriminate.
  pose proof (well_formed_malloc _ _ _ _ _ _ _ _ W Hs Em) as Wm.
  destruct (Z.eqb_spec ptr NULL) as [->|Hp]; cbn [orb] in E.
  { cbv [ret] in E. injection E as <- <-.
    destruct (Z.eqb_spec q NULL); exact Wm. }
  destruct (Z.eqb_spec q NULL) as [->|Hq].
  { cbv [ret] in E. injection E as <- <-. exact Wm. }
  destruct (realloc_copy_size_bound q sz s_m) as (n & En & Hn).
  unfold bind at 1 in E. rewrite En in E.
  unfold bind at 1, memcpy at 1, modify at 1 in E.
  unfold bind at 1 in E.
  lazymatch type of E with
  | match m61_free _ _ _ _ ?s2 with _ => _ end = _ =>
      assert (W2 : well_formed s2 (EvMalloc sz q :: tr)); [|set (s2' := s2) in *]
  end.
  { apply (payload_write_ok s_m _ q sz _ Wm).
    - cbn [allocated_size]. rewrite Z.eqb_refl. reflexivity.
    - intros a Ha.
      destruct (Z.leb_spec q a), (Z.ltb_spec a (q + n)); cbn [andb]; try reflexivity. lia. }
  destruct (m61_free fuel ptr file ln s2') as [[] s3| |] eqn:Ef; try discriminate.
  cbv [ret] in E. injection E as <- <-.
  pose proof (well_formed_free _ _ _ _ _ _ _ W2 Ef) as W3.
  assert (E1 : (ptr =? NULL) = false) by (apply Z.eqb_neq; exact Hp).
  assert (E2 : (q =? NULL) = false) by (apply Z.eqb_neq; exact Hq).
  rewrite ?E1, ?E2 in *. exact W3.
Qed.

Lemma well_formed_init buf :
  0 < buf -> buf + Z.shiftl 8 20 <= SIZE_MAX -> well_formed (init_state buf) [].
Proof.
  intros Hb Hs. constructor.
  - apply init_heap_ok; assumption.
  - intros p sz H. discriminate.
  - intros x H. cbn in H. unfold ALLOCATED in H. discriminate.
  - intros x H. cbn in H. unfold ALLOCATED in H. discriminate.
  - split; [cbn; lia|]. intros x H. cbn in H. unfold ALLOCATED in H. discriminate.
Qed.

Lemma traced_well_formed buf s tr :
  0 < buf -> buf + Z.shiftl 8 20 <= SIZE_MAX -> traced buf s tr -> well_formed s tr.
Proof.
  intros Hb Hs. induction 1 as [|s tr c fuel r s' _ IH Hc E|s tr p sz a v _ IH Hp Ha].
  - apply well_formed_init; assumption.
  - destruct c as [sz file ln|ptr file ln|count sz file ln|ptr sz file ln];
      cbn [run_call well_typed_call] in *.
    + apply (well_formed_malloc _ _ _ _ _ _ _ _ IH Hc E).
    + unfold bind in E. destruct (m61_free fuel ptr file ln s) as [[] s1| |] eqn:Ef;
        try discriminate. cbv [ret] in E. injection E as <- <-.
      apply (well_formed_free _ _ _ _ _ _ _ IH Ef).
    + destruct Hc as [Hc1 Hc2]. apply (well_formed_calloc _ _ _ _ _ _ _ _ _ IH Hc1 Hc2 E).
    + apply (well_formed_realloc _ _ _ _ _ _ _ _ _ IH Hc E).
  - apply (payload_write_ok s tr p sz _ IH Hp).
    intros x Hx. apply upd_other. lia.
Qed.

Lemma traced_aligned buf s tr :
  buf mod ALIGNMENT = 0 -> traced buf s tr -> aligned_heap s.
Proof.
  intros Hb. induction 1 as [|s tr c fuel r s' _ IH Hc E|s tr p sz a v _ IH Hp Ha].
  - apply init_state_aligned. exact Hb.
  - pose proof (run_call_aligned fuel c s Hc IH) as H.
    unfold wp in H. rewrite E in H. apply H.
  - exact IH.
Qed.

Lemma malloc_arena fuel sz file ln s tr q s' :
  heap_ok s tr -> 0 <= sz <= SIZE_MAX -> m61_malloc fuel sz file ln s = Ret q s' ->
  buffer (default_buffer s') = buffer (default_buffer s) /\
  size (default_buffer s') = size (default_buffer s).
Proof.
  intros H Hsz E. destruct (Z.eq_dec q NULL) as [->|Hq].
  - rewrite (malloc_null_state _ _ _ _ _ _ _ H Hsz E). split; reflexivity.
  - pose proof (malloc_placed_inv _ _ _ _ _ _ _ _ H Hsz E Hq) as P.
    split; [apply (pl_buffer _ _ _ _ P)|apply (pl_size _ _ _ _ P)].
Qed.

Lemma free_arena fuel ptr file ln s tr s' :
  heap_ok s tr -> m61_free fuel ptr file ln s = Ret tt s' ->
  buffer (default_buffer s') = buffer (default_buffer s) /\
  size (default_buffer s') = size (default_buffer s).
Proof.
  intros H E. destruct (Z.eq_dec ptr NULL) as [->|Hp].
  - rewrite free_null in E. injection E as <-. split; reflexivity.
  - pose proof (free_released_inv _ _ _ _ _ _ _ H Hp E) as R.
    split; [apply (rl_buffer _ _ _ R)|apply (rl_size _ _ _ R)].
Qed.

Lemma run_call_arena fuel c s tr r s' :
  well_formed s tr -> well_typed_call c -> run_call fuel c s = Ret r s' ->
  buffer (default_buffer s') = buffer (default_buffer s) /\
  size (default_buffer s') = size (default_buffer s).
Proof.
  intros W Hc E.
  destruct c as [sz file ln|ptr file ln|count sz file ln|ptr sz file ln];
    cbn [run_call well_typed_call] in *.
  - apply (malloc_arena _ _ _ _ _ _ _ _ (wf_heap _ _ W) Hc E).
  - unfold bind in E. destruct (m61_free fuel ptr file ln s) as [[] s1| |] eqn:Ef;
      try discriminate. cbv [ret] in E. injection E as <- <-.
    apply (free_arena _ _ _ _ _ _ _ (wf_heap _ _ W) Ef).
  - unfold m61_calloc in E. destruct (is_overflowing count sz).
    { cbv [bind modify ret] in E. injection E as <- <-. split; reflexivity. }
    unfold bind at 1 in E.
    destruct (m61_malloc fuel (wrap (count * sz)) file ln s) as [q s_m| |] eqn:Em;
      try discriminate.
    assert (Hr : 0 <= wrap (count * sz) <= SIZE_MAX).
    { pose proof (wrap_range (count * sz)). unfold SIZE_MAX. lia. }
    pose proof (malloc_arena _ _ _ _ _ _ _ _ (wf_heap _ _ W) Hr Em) as A.
    unfold bind at 1 in E. destruct (q =? NULL); cbn [negb when_] in E.
    + cbv [ret] in E. injection E as <- <-. exact A.
    + cbv [memset modify ret] in E. injection E as <- <-. exact A.
  - unfold m61_realloc in E. destruct (sz =? 0).
    { cbv [ret] in E. injection E as <- <-. split; reflexivity. }
    unfold bind at 1 in E.
    destruct (m61_malloc fuel sz file ln s) as [q s_m| |] eqn:Em; try discriminate.
    pose proof (malloc_arena _ _ _ _ _ _ _ _ (wf_heap _ _ W) Hc Em) as A.
    pose proof (well_formed_malloc _ _ _ _ _ _ _ _ W Hc Em) as Wm.
    destruct ((ptr =? NULL) || (q =? NULL)).
    { cbv [ret] in E. injection E as <- <-. exact A. }
    destruct (realloc_copy_size_bound q sz s_m) as (n & En & Hn).
    unfold bind at 1 in E. rewrite En in E.
    unfold bind at 1, memcpy at 1, modify at 1 in E.
    unfold bind at 1 in E.
    lazymatch type of E with
    | match m61_free _ _ _ _ ?s2 with _ => _ end = _ =>
        assert (H2 : heap_ok s2 (if q =? NULL then tr else EvMalloc sz q :: tr));
        [|set (s2' := s2) in *]
    end.
    { apply (heap_ok_ext s_m _ _ (wf_heap _ _ Wm)); reflexivity. }
    destruct (m61_free fuel ptr file ln s2') as [[] s3| |] eqn:Ef; try discriminate.
    cbv [ret] in E. injection E as <- <-.
    destruct (free_arena _ _ _ _ _ _ _ H2 Ef) as [B1 B2].
    destruct A as [A1 A2]. split; [rewrite B1; exact A1|rewrite B2; exact A2].
Qed.

Lemma traced_arena buf s tr :
  0 < buf -> buf + Z.shiftl 8 20 <= SIZE_MAX -> traced buf s tr ->
  buffer (default_buffer s) = buf /\ size (default_buffer s) = Z.shiftl 8 20.
Proof.
  intros Hb Hs. induction 1 as [|s tr c fuel r s' Ht IH Hc E|s tr p sz a v _ IH Hp Ha].
  - split; reflexivity.
  - pose proof (traced_well_formed buf s tr Hb Hs Ht) as W.
    destruct (run_call_arena _ _ _ _ _ _ W Hc E) as [A1 A2].
    destruct IH as [I1 I2]. split; congruence.
  - exact IH.
Qed.

(** ** Properties of every heap a client can build *)

Lemma sample_traced : traced 4096 sample_heap sample_trace.
Proof.
  unfold sample_heap, sample_trace.
  set (s1 := after (m61_malloc 1 100 "test.cc" 5) (init_state 4096)).
  set (s2 := after (m61_malloc 1 24 "test.cc" 6) s1).
  set (s3 := after (m61_malloc 1 8 "test.cc" 7) s2).
  set (s4 := after (m61_free 1 4336 "test.cc" 8) s3).
  assert (E1 : run_call 1 (CallMalloc 100 "test.cc" 5) (init_state 4096) = Ret 4160 s1).
  { cbn [run_call].
    apply (returned_eq (m61_malloc 1 100 "test.cc" 5) (init_state 4096) 4160).
    vm_compute. reflexivity. }
  assert (E2 : run_call 1 (CallMalloc 24 "test.cc" 6) s1 = Ret 4336 s2).
  { cbn [run_call].
    apply (returned_eq (m61_malloc 1 24 "test.cc" 6) s1 4336). vm_compute. reflexivity. }
  assert (E3 : run_call 1 (CallMalloc 8 "test.cc" 7) s2 = Ret 4432 s3).
  { cbn [run_call].
    apply (returned_eq (m61_malloc 1 8 "test.cc" 7) s2 4432). vm_compute. reflexivity. }
  assert (E4 : run_call 1 (CallFree 4336 "test.cc" 8) s3 = Ret NULL s4).
  { cbn [run_call]. unfold bind.
    rewrite (returned_eq (m61_free 1 4336 "test.cc" 8) s3 tt) by (vm_compute; reflexivity).
    reflexivity. }
  assert (Hty : forall sz, 0 <= sz <= 100 -> 0 <= sz <= SIZE_MAX)
    by (unfold SIZE_MAX; lia).
  pose proof (traced_call 4096 _ _ (CallMalloc 100 "test.cc" 5) 1 4160 s1
                (traced_init 4096) (Hty 100 ltac:(lia)) E1) as T1.
  pose proof (traced_call 4096 _ _ (CallMalloc 24 "test.cc" 6) 1 4336 s2
                T1 (Hty 24 ltac:(lia)) E2) as T2.
  pose proof (traced_call 4096 _ _ (CallMalloc 8 "test.cc" 7) 1 4432 s3
                T2 (Hty 8 ltac:(lia)) E3) as T3.
  exact (traced_call 4096 _ _ (CallFree 4336 "test.cc" 8) 1 NULL s4 T3 I E4).
Qed.

Lemma sample_arena : 0 < 4096 /\ 4096 + Z.shiftl 8 20 <= SIZE_MAX.
Proof. split; [lia|vm_compute; discriminate]. Qed.

Lemma live_apart s tr p q sp sq :
  well_formed s tr ->
  allocated_size tr p = Some sp -> allocated_size tr q = Some sq -> p <> q ->
  p + sp + sizeof_END_MARKER <= q - sizeof_header \/
  q + sq + sizeof_END_MARKER <= p - sizeof_header.
Proof.
  intros W Hp Hq Hne.
  pose proof (wf_back _ _ W p sp Hp) as Ap. pose proof (wf_back _ _ W q sq Hq) as Aq.
  destruct (block_layout s tr _ W Ap) as (sp' & Hsp & _ & _ & _ & Fp).
  destruct (block_layout s tr _ W Aq) as (sq' & Hsq & _ & _ & _ & Fq).
  replace (p - sizeof_header + sizeof_header) with p in * by lia.
  replace (q - sizeof_header + sizeof_header) with q in * by lia.
  assert (sp' = sp) by congruence. assert (sq' = sq) by congruence. subst.
  destruct (blocks_apart s tr _ _ (wf_heap _ _ W) Ap Aq ltac:(lia)); [left|right]; lia.
Qed.



(** X7: two allocations that are both live never overlap: the payload and
    end marker of one end before the header of the other begins; and each
    lies inside the arena. *)
Theorem live_allocations_disjoint (buf : Z) (s : state) (tr : list event)
    (p q sp sq : Z) :
  0 < buf -> buf + Z.shiftl 8 20 <= SIZE_MAX -> traced buf s tr ->
  allocated_size tr p = Some sp -> allocated_size tr q = Some sq -> p <> q ->
  (p + sp + sizeof_END_MARKER <= q - sizeof_header \/
   q + sq + sizeof_END_MARKER <= p - sizeof_header) /\
  0 <= sp /\ buf + sizeof_header <= p /\
  p + sp + sizeof_END_MARKER <= buf + Z.shiftl 8 20.
Proof.
  intros Hb Hs Ht Hp Hq Hne.
  pose proof (traced_well_formed buf s tr Hb Hs Ht) as W.
  destruct (traced_arena buf s tr Hb Hs Ht) as [Ab As].
  split; [apply (live_apart s tr p q sp sq W Hp Hq Hne)|].
  pose proof (wf_back _ _ W p sp Hp) as Ap.
  destruct (block_layout s tr _ W Ap) as (sp' & Hsp & Hsp0 & _ & _ & Fp).
  replace (p - sizeof_header + sizeof_header) with p in * by lia.
  assert (sp' = sp) by congruence. subst sp'.
  destruct (block_in_arena s tr _ (wf_heap _ _ W) Ap) as (_ & Hlo & Hhi & _).
  rewrite Ab in Hlo, Hhi. rewrite As in Hhi. repeat split; lia.
Qed.

Lemma live_allocations_disjoint_witness :
  (4160 + 100 + sizeof_END_MARKER <= 4432 - sizeof_header \/
   4432 + 8 + sizeof_END_MARKER <= 4160 - sizeof_header) /\
  0 <= 100 /\ 4096 + sizeof_header <= 4160 /\
  4160 + 100 + sizeof_END_MARKER <= 4096 + Z.shiftl 8 20.
Proof.
  apply (live_allocations_disjoint 4096 sample_heap sample_trace 4160 4432 100 8
           (proj1 sample_arena) (proj2 sample_arena) sample_traced);
    [reflexivity|reflexivity|lia].
Defined.

(** X8: [m61_malloc] never hands out memory that is in use: the pointer it
    returns is not a live allocation, the new block lies apart from every
    live allocation, and the call leaves every byte of every live payload
    as it was. *)
Theorem malloc_returns_fresh_block (buf : Z) (s : state) (tr : list event)
    (fuel : nat) (sz : Z) (file : string) (ln : Z) (q : Z) (s' : state) :
  0 < buf -> buf + Z.shiftl 8 20 <= SIZE_MAX -> traced buf s tr ->
  0 <= sz <= SIZE_MAX ->
  m61_malloc fuel sz file ln s = Ret q s' -> q <> NULL ->
  allocated_size tr q = None /\
  forall p sp, allocated_size tr p = Some sp ->
    (p + sp + sizeof_END_MARKER <= q - sizeof_header \/
     q + sz + sizeof_END_MARKER <= p - sizeof_header) /\
    (forall a, p <= a < p + sp -> mem s' a = mem s a).
Proof.
  intros Hb Hs Ht Hsz E Hq.
  pose proof (traced_well_formed buf s tr Hb Hs Ht) as W.
  pose proof (well_formed_malloc _ _ _ _ _ _ _ _ W Hsz E) as W'.
  pose proof (malloc_placed_inv _ _ _ _ _ _ _ _ (wf_heap _ _ W) Hsz E Hq) as P.
  destruct (Z.eqb_spec q NULL) as [|_]; [contradiction|].
  assert (Hdead : allocated_size tr q = None).
  { destruct (allocated_size tr q) as [sq|] eqn:Eq; [|reflexivity].
    destruct (pl_old _ _ _ _ P). apply (wf_back _ _ W q sq Eq). }
  split; [exact Hdead|]. intros p sp Hp.
  assert (Hpq : p <> q) by (intros ->; congruence).
  assert (Hp' : allocated_size (EvMalloc sz q :: tr) p = Some sp).
  { cbn [allocated_size]. destruct (Z.eqb_spec q p); [congruence|exact Hp]. }
  assert (Hq' : allocated_size (EvMalloc sz q :: tr) q = Some sz).
  { cbn [allocated_size]. rewrite Z.eqb_refl. reflexivity. }
  pose proof (live_apart s' _ p q sp sz W' Hp' Hq' Hpq) as Hapart.
  split; [exact Hapart|].
  intros a Ha. rewrite (pl_mem _ _ _ _ P), write_marker_spec.
  replace (q - sizeof_header + sizeof_header) with q by lia.
  cbn [List.length END_MARKER]. unfold sizeof_END_MARKER, sizeof_header in *.
  destruct (Z.leb_spec (q + sz) a), (Z.ltb_spec a (q + sz + Z.of_nat 8)); cbn [andb];
    try reflexivity. lia.
Qed.

Lemma malloc_returns_fresh_block_witness :
  allocated_size sample_trace 4512 = None /\
  forall p sp, allocated_size sample_trace p = Some sp ->
    (p + sp + sizeof_END_MARKER <= 4512 - sizeof_header \/
     4512 + 8 + sizeof_END_MARKER <= p - sizeof_header) /\
    (forall a, p <= a < p + sp ->
       mem (after (m61_malloc 1 8 "test.cc" 9) sample_heap) a = mem sample_heap a).
Proof.
  assert (Hsz : 0 <= 8 <= SIZE_MAX) by (unfold SIZE_MAX; lia).
  assert (E : m61_malloc 1 8 "test.cc" 9 sample_heap
              = Ret 4512 (after (m61_malloc 1 8 "test.cc" 9) sample_heap))
    by (apply (returned_eq (m61_malloc 1 8 "test.cc" 9) sample_heap 4512);
        vm_compute; reflexivity).
  assert (Hq : 4512 <> NULL) by (unfold NULL; lia).
  exact (malloc_returns_fresh_block 4096 sample_heap sample_trace 1 8 "test.cc" 9 4512 _
           (proj1 sample_arena) (proj2 sample_arena) sample_traced Hsz E Hq).
Defined.



(** X10: the heap range reported by [m61_get_statistics] covers every live
    allocation, from its first payload byte to the end of its payload. *)
Theorem heap_range_covers_live (buf : Z) (s : state) (tr : list event) (p sz : Z) :
  0 < buf -> buf + Z.shiftl 8 20 <= SIZE_MAX -> traced buf s tr ->
  allocated_size tr p = Some sz ->
  exists g,
    m61_get_statistics s = Ret g s /\
    0 < heap_min g /\ heap_min g <= p /\ p + sz <= heap_max g.
Proof.
  intros Hb Hs Ht Hp.
  pose proof (traced_well_formed buf s tr Hb Hs Ht) as W.
  pose proof (wf_back _ _ W p sz Hp) as Ap.
  destruct (block_layout s tr _ W Ap) as (sz' & Hsz & _ & _ & He & _).
  destruct (proj2 (wf_range _ _ W) _ Ap) as [[H1 H2] H3].
  replace (p - sizeof_header + sizeof_header) with p in * by lia.
  assert (sz' = sz) by congruence. subst.
  exists (gstats s). split; [reflexivity|]. rewrite He in H3. repeat split; lia.
Qed.

Lemma heap_range_covers_live_witness :
  exists g,
    m61_get_statistics sample_heap = Ret g sample_heap /\
    0 < heap_min g /\ heap_min g <= 4432 /\ 4432 + 8 <= heap_max g.
Proof.
  apply (heap_range_covers_live 4096 sample_heap sample_trace 4432 8
           (proj1 sample_arena) (proj2 sample_arena) sample_traced).
  reflexivity.
Defined.

(** ** Releasing a live allocation *)

Lemma free_live_returns fuel p sz file ln s tr :
  well_formed s tr -> aligned_heap s -> allocated_size tr p = Some sz ->
  exists s', m61_free fuel p file ln s = Ret tt s'.
Proof.
  intros W A Hp.
  pose proof (wf_back _ _ W p sz Hp) as Hst.
  destruct (block_layout s tr _ W Hst) as (sz' & Hsz & Hsz0 & Hpl & Hem & _).
  destruct (proj2 (wf_range _ _ W) _ Hst) as [[Hm0 Hmin] Hmax].
  pose proof (wf_markers _ _ W _ Hst) as Hmark.
  destruct (block_in_arena s tr _ (wf_heap _ _ W) Hst) as (Hx0 & _).
  destruct A as (_ & _ & _ & Hal).
  destruct (Hal (p - sizeof_header) (or_intror Hst)) as (Ha & _).
  destruct (wf_heap _ _ W) as (N & G & Tidy & L).
  replace (p - sizeof_header + sizeof_header) with p in * by lia.
  assert (Hp0 : p <> NULL) by (unfold NULL, sizeof_header in *; lia).
  rewrite Hem in Hmax.
  apply (wp_intro (m61_free fuel p file ln) s (fun o => exists s', o = Ret tt s')).
  unfold m61_free.
  repeat wp_step_gen ltac:(st_simp; rewrite ?Hpl, ?Hst, ?Ha, ?Hmark)
                     ltac:(st_simp; rewrite ?Hpl, ?Hst, ?Ha, ?Hmark; bsolve) stop_free.
  apply wp_unbind.
  lazymatch goal with
  | |- wp _ ?s1 _ => assert (M : marked_free s s1 (p - sizeof_header))
  end.
  { constructor; proj_red; try reflexivity; intros z;
      destruct (Z.eqb_spec z (p - sizeof_header)) as [->|E];
      lookup_simp; proj_red; try reflexivity; intros; congruence. }
  destruct (free_tail_ok _ _ _ _ _ G Tidy L Hst M) as [Hrun _].
  eapply wp_eq; [exact Hrun|]. eexists. reflexivity.
Qed.

(** X11: [m61_free] accepts every live allocation, whatever the client wrote
    into its payloads: the call returns, takes one allocation and the size
    passed to the matching allocate call off the active statistics, leaves
    the totals, the bytes and the error stream alone, and marks the block
    free. *)
Theorem free_accepts_live_pointer (buf : Z) (s : state) (tr : list event)
    (fuel : nat) (p sz : Z) (file : string) (ln : Z) :
  0 < buf -> buf + Z.shiftl 8 20 <= SIZE_MAX -> buf mod ALIGNMENT = 0 ->
  traced buf s tr -> allocated_size tr p = Some sz ->
  exists s',
    m61_free fuel p file ln s = Ret tt s' /\
    p_status (hdrs s' (p - sizeof_header)) = FREE /\
    nactive (gstats s') = wrap (nactive (gstats s) - 1) /\
    active_size (gstats s') = wrap (active_size (gstats s) - sz) /\
    ntotal (gstats s') = ntotal (gstats s) /\
    total_size (gstats s') = total_size (gstats s) /\
    mem s' = mem s /\ stderr s' = stderr s.
Proof.
  intros Hb Hs Ha Ht Hp.
  pose proof (traced_well_formed buf s tr Hb Hs Ht) as W.
  pose proof (traced_aligned buf s tr Ha Ht) as A.
  destruct (free_live_returns fuel p sz file ln s tr W A Hp) as (s' & E).
  pose proof (wf_back _ _ W p sz Hp) as Hst.
  destruct (block_in_arena s tr _ (wf_heap _ _ W) Hst) as (Hx0 & _).
  assert (Hp0 : p <> NULL) by (unfold NULL, sizeof_header in *; lia).
  destruct (free_returns_inv _ _ _ _ _ _ Hp0 E) as (_ & Hf & _ & _ & _ & Hm & He & Hg).
  destruct (free_heap_ok_inv _ _ _ _ _ _ _ (wf_heap _ _ W) Hp0 E) as (_ & sz' & Hsz' & Hps).
  assert (Hsame : sz' = sz) by congruence. rewrite Hsame in Hps.
  cbv zeta in Hg. rewrite Hps in Hg.
  exists s'. split; [exact E|]. split; [exact Hf|].
  rewrite Hg. proj_red. repeat split; assumption.
Qed.

Lemma free_accepts_live_pointer_witness :
  exists s',
    m61_free 1 4160 "test.cc" 9 (with_mem (upd (mem sample_heap) 4170 255) sample_heap)
      = Ret tt s' /\
    p_status (hdrs s' (4160 - sizeof_header)) = FREE /\
    nactive (gstats s') = 1 /\ active_size (gstats s') = 8.
Proof.
  assert (Ht : traced 4096 (with_mem (upd (mem sample_heap) 4170 255) sample_heap)
                 sample_trace).
  { apply (traced_write 4096 sample_heap sample_trace 4160 100 4170 255 sample_traced);
      [reflexivity|lia]. }
  destruct (free_accepts_live_pointer 4096 _ sample_trace 1 4160 100 "test.cc" 9
              (proj1 sample_arena) (proj2 sample_arena) eq_refl Ht eq_refl)
    as (s' & E & Hf & Hn & Ha & _).
  exists s'. split; [exact E|]. split; [exact Hf|]. split.
  - rewrite Hn. vm_compute. reflexivity.
  - rewrite Ha. vm_compute. reflexivity.
Defined.

(** ** Termination and failure of an allocation *)

Lemma find_freed_block_loop_returns req sz file ln s N :
  heap_geometry s N ->
  forall fuel cur, cur = NULL \/ N cur -> (Z.to_nat cur < fuel)%nat ->
    exists q s', find_freed_block_loop fuel cur req sz file ln s = Ret q s'.
Proof.
  intros G. induction fuel as [|fuel IH]; intros cur Hcur Hfuel; [lia|].
  apply (wp_intro (find_freed_block_loop (S fuel) cur req sz file ln) s
           (fun o => exists q s', o = Ret q s')).
  cbn [find_freed_block_loop].
  wp_split; [wp_run st_simp; eexists; eexists; reflexivity|].
  apply Z.eqb_neq in Heqb. destruct Hcur as [?|Hp]; [contradiction|].
  wp_step st_simp. wp_step st_simp. wp_step st_simp. wp_split.
  - wp_auto. all: eexists; eexists; reflexivity.
  - unfold wp. apply IH.
    + destruct (hg_down _ _ G cur Hp) as [?|[? _]]; [left|right]; assumption.
    + destruct (Z.eq_dec (p_next (hdrs s cur)) NULL) as [E|E].
      * rewrite E. unfold NULL. pose proof (node_pos _ _ _ G Hp). lia.
      * destruct (node_below _ _ _ G Hp E) as (Ho & _ & Hadj).
        destruct (hg_node _ _ G _ Ho) as (_ & Hos & _).
        pose proof (node_pos _ _ _ G Ho). lia.
Qed.

(** X12: [m61_malloc] always comes back: in every heap a client can build it
    returns, null or a pointer, after a scan that visits each block of the
    list at most once (fuel beyond the address of the newest block is
    enough); it never aborts. *)
Theorem malloc_always_returns (buf : Z) (s : state) (tr : list event)
    (fuel : nat) (sz : Z) (file : string) (ln : Z) :
  0 < buf -> buf + Z.shiftl 8 20 <= SIZE_MAX -> traced buf s tr ->
  (Z.to_nat (head s) < fuel)%nat ->
  exists q s', m61_malloc fuel sz file ln s = Ret q s'.
Proof.
  intros Hb Hs Ht Hfuel.
  destruct (wf_heap _ _ (traced_well_formed buf s tr Hb Hs Ht)) as (N & G & _ & _).
  apply (wp_intro (m61_malloc fuel sz file ln) s (fun o => exists q s', o = Ret q s')).
  unfold m61_malloc. wp_split; [wp_run st_simp; eexists; eexists; reflexivity|].
  apply wp_bind. unfold find_free_space. wp_run st_simp. wp_split.
  - wp_auto. all: eexists; eexists; reflexivity.
  - unfold find_freed_block. wp_run st_simp.
    destruct (find_freed_block_loop_returns (block_size_for sz) sz file ln s N G fuel (head s))
      as (q & s' & E); [destruct (hg_head _ _ G) as [?|[? _]]; [left|right]; assumption
                       |exact Hfuel|].
    eapply wp_eq; [exact E|].
    wp_auto. all: eexists; eexists; reflexivity.
Qed.

Lemma malloc_always_returns_witness :
  exists q s', m61_malloc 5000 8388608 "test.cc" 9 sample_heap = Ret q s'.
Proof.
  apply (malloc_always_returns 4096 sample_heap sample_trace 5000 8388608 "test.cc" 9
           (proj1 sample_arena) (proj2 sample_arena) sample_traced).
  apply Nat.ltb_lt. vm_compute. reflexivity.
Defined.

Lemma find_freed_block_loop_null fuel req sz file ln s N :
  heap_geometry s N -> 0 < req ->
  forall cur, cur = NULL \/ N cur ->
    wp (find_freed_block_loop fuel cur req sz file ln) s
       (returns (fun q _ => q = NULL -> no_fit (hdrs s) req cur)).
Proof.
  intros G Hreq. induction fuel as [|fuel IH]; intros cur Hcur; cbn [find_freed_block_loop].
  - wp_run st_simp. exact I.
  - wp_split.
    { apply Z.eqb_eq in Heqb. subst cur. wp_run st_simp. intros _. apply no_fit_end. }
    apply Z.eqb_neq in Heqb. destruct Hcur as [?|Hp]; [contradiction|].
    pose proof (node_pos _ _ _ G Hp) as Hp0.
    wp_step st_simp. wp_step st_simp. wp_step st_simp. wp_split.
    + wp_auto. all: wp_leaf ltac:(intros Hc; unfold NULL, sizeof_header in Hc; lia).
    + eapply wp_conseq; [apply IH|].
      * destruct (hg_down _ _ G cur Hp) as [?|[? _]]; [left|right]; assumption.
      * intros [q s'| |]; cbn [returns]; auto.
        intros Hq Hn. apply no_fit_skip; [exact Heqb|exact Heqb0|apply Hq; exact Hn].
Qed.

(** X13: [m61_malloc] does not fail while there is room: it returns null
    only when the size computation overflows, or when the arena frontier
    has less than the block size left and no free block on the list is
    large enough. *)
Theorem malloc_fails_only_when_exhausted (buf : Z) (s : state) (tr : list event)
    (fuel : nat) (sz : Z) (file : string) (ln : Z) (s' : state) :
  0 < buf -> buf + Z.shiftl 8 20 <= SIZE_MAX -> traced buf s tr ->
  0 <= sz <= SIZE_MAX ->
  m61_malloc fuel sz file ln s = Ret NULL s' ->
  size_overflows sz = true \/ arena_exhausted s sz.
Proof.
  intros Hb Hs Ht Hsz E.
  destruct (wf_heap _ _ (traced_well_formed buf s tr Hb Hs Ht)) as (N & G & _ & _).
  assert (W : wp (m61_malloc fuel sz file ln) s
                (returns (fun q _ => q = NULL ->
                            size_overflows sz = true \/ arena_exhausted s sz))).
  { unfold m61_malloc. wp_split; [wp_run st_simp; intros _; left; reflexivity|].
    apply wp_bind. unfold find_free_space. wp_run st_simp. wp_split.
    - pose proof (node_pos s N) as Hpos. pose proof (hg_buffer _ _ G).
      pose proof (hg_pos _ _ G).
      wp_auto. all: wp_leaf ltac:(intros Hc; unfold NULL, sizeof_header in *; lia).
    - apply Z.leb_gt in Heqb0.
      unfold find_freed_block. wp_run st_simp.
      eapply wp_conseq; [apply (find_freed_block_loop_null fuel _ sz file ln s N G)|].
      + apply block_size_for_pos; [lia|assumption].
      + destruct (hg_head _ _ G) as [?|[? _]]; [left|right]; assumption.
      + intros [q s1| |]; cbn [returns wp_k]; auto.
        intros Hq. wp_auto. all: wp_leaf idtac.
        * intros _. right. split; [exact Heqb0|]. apply Hq.
          apply Z.eqb_eq in Heqb1. exact Heqb1.
        * intros Hc. apply Z.eqb_neq in Heqb1. contradiction. }
  unfold wp in W. rewrite E in W. apply W. reflexivity.
Qed.

Lemma malloc_fails_only_when_exhausted_witness :
  size_overflows 8388608 = true \/ arena_exhausted sample_heap 8388608.
Proof.
  apply (malloc_fails_only_when_exhausted 4096 sample_heap sample_trace 5 8388608
           "test.cc" 9 (after (m61_malloc 5 8388608 "test.cc" 9) sample_heap)
           (proj1 sample_arena) (proj2 sample_arena) sample_traced).
  unfold SIZE_MAX; lia.
  apply (returned_eq (m61_malloc 5 8388608 "test.cc" 9) sample_heap NULL).
  vm_compute. reflexivity.
Defined.

(** ** What a reallocation keeps *)

Lemma malloc_keeps_live_bytes fuel sz file ln s tr q s' p sp :
  well_formed s tr -> 0 <= sz <= SIZE_MAX ->
  m61_malloc fuel sz file ln s = Ret q s' -> q <> NULL ->
  allocated_size tr p = Some sp ->
  p <> q /\
  (p + sp + sizeof_END_MARKER <= q - sizeof_header \/
   q + sz + sizeof_END_MARKER <= p - sizeof_header) /\
  (forall a, p <= a < p + sp -> mem s' a = mem s a).
Proof.
  intros W Hsz E Hq Hp.
  pose proof (well_formed_malloc _ _ _ _ _ _ _ _ W Hsz E) as W'.
  pose proof (malloc_placed_inv _ _ _ _ _ _ _ _ (wf_heap _ _ W) Hsz E Hq) as P.
  destruct (Z.eqb_spec q NULL) as [|_]; [contradiction|].
  assert (Hpq : p <> q).
  { intros ->. destruct (pl_old _ _ _ _ P). apply (wf_back _ _ W q sp Hp). }
  split; [exact Hpq|].
  assert (Hp' : allocated_size (EvMalloc sz q :: tr) p = Some sp).
  { cbn [allocated_size]. destruct (Z.eqb_spec q p); [congruence|exact Hp]. }
  assert (Hq' : allocated_size (EvMalloc sz q :: tr) q = Some sz).
  { cbn [allocated_size]. rewrite Z.eqb_refl. reflexivity. }
  pose proof (live_apart s' _ p q sp sz W' Hp' Hq' Hpq) as Hapart.
  split; [exact Hapart|].
  intros a Ha. rewrite (pl_mem _ _ _ _ P), write_marker_spec.
  replace (q - sizeof_header + sizeof_header) with q by lia.
  cbn [List.length END_MARKER]. unfold sizeof_END_MARKER, sizeof_header in *.
  destruct (Z.leb_spec (q + sz) a), (Z.ltb_spec a (q + sz + Z.of_nat 8)); cbn [andb];
    try reflexivity. lia.
Qed.

(** X14: a [m61_realloc] of a live allocation that returns a pointer moves
    the data: the new block is a different one, its first
    [min (sz, old size)] bytes are the bytes the old payload held, the old
    block is free afterwards and the new one is allocated with payload
    size [sz]. *)
Theorem realloc_preserves_prefix (buf : Z) (s : state) (tr : list event)
    (fuel : nat) (ptr old sz : Z) (file : string) (ln : Z) (r : Z) (s' : state) :
  0 < buf -> buf + Z.shiftl 8 20 <= SIZE_MAX -> traced buf s tr ->
  allocated_size tr ptr = Some old -> 0 <= sz <= SIZE_MAX ->
  m61_realloc fuel ptr sz file ln s = Ret r s' -> r <> NULL ->
  r <> ptr /\
  (forall i, 0 <= i < Z.min sz old -> mem s' (r + i) = mem s (ptr + i)) /\
  p_status (hdrs s' (ptr - sizeof_header)) = FREE /\
  p_status (hdrs s' (r - sizeof_header)) = ALLOCATED /\
  p_end_marker (hdrs s' (r - sizeof_header)) = r + sz.
Proof.
  intros Hb Hbs Ht Hold Hs E Hr.
  pose proof (traced_well_formed buf s tr Hb Hbs Ht) as W.
  assert (Hp : ptr <> NULL).
  { pose proof (block_in_arena s tr _ (wf_heap _ _ W) (wf_back _ _ W ptr old Hold)).
    unfold NULL, sizeof_header in *. lia. }
  unfold m61_realloc in E.
  destruct (Z.eqb_spec sz 0) as [->|Hsz].
  { cbv [ret] in E. injection E as <- <-. destruct Hr. reflexivity. }
  unfold bind at 1 in E.
  destruct (m61_malloc fuel sz file ln s) as [q s_m| |] eqn:Em; try discriminate.
  pose proof (well_formed_malloc _ _ _ _ _ _ _ _ W Hs Em) as Wm.
  destruct (Z.eqb_spec ptr NULL) as [|_]; [contradiction|]. cbn [orb] in E.
  destruct (Z.eqb_spec q NULL) as [->|Hq].
  { cbv [ret] in E. injection E as <- <-. destruct Hr. reflexivity. }
  pose proof (malloc_placed_inv _ _ _ _ _ _ _ _ (wf_heap _ _ W) Hs Em Hq) as P.
  destruct (malloc_keeps_live_bytes _ _ _ _ _ _ _ _ _ _ W Hs Em Hq Hold)
    as (Hne & Hapart & Hkeep).
  unfold bind at 1 in E. rewrite (realloc_copy_size_fresh _ _ _ _ _ _ _ Hs Em Hq) in E.
  unfold bind at 1, memcpy at 1, modify at 1 in E.
  unfold bind at 1 in E.
  lazymatch type of E with
  | match m61_free _ _ _ _ ?s2 with _ => _ end = _ =>
      assert (W2 : well_formed s2 (EvMalloc sz q :: tr)); [|set (s2' := s2) in *]
  end.
  { apply (payload_write_ok s_m _ q sz _ Wm).
    - cbn [allocated_size]. rewrite Z.eqb_refl. reflexivity.
    - intros a Ha.
      destruct (Z.leb_spec q a), (Z.ltb_spec a (q + sz)); cbn [andb]; try reflexivity. lia. }
  destruct (m61_free fuel ptr file ln s2') as [[] s3| |] eqn:Ef; try discriminate.
  cbv [ret] in E. injection E as <- <-.
  pose proof (free_released_inv _ _ _ _ _ _ _ (wf_heap _ _ W2) Hp Ef) as R.
  assert (Hx : q - sizeof_header <> ptr - sizeof_header) by lia.
  destruct (rl_others _ _ _ R _ Hx) as (Hst & _ & Hem & _).
  split; [congruence|]. split; [|split; [exact (rl_status _ _ _ R)|split]].
  - intros i Hi. rewrite (rl_mem _ _ _ R). unfold s2'. proj_red.
    destruct (Z.leb_spec q (q + i)), (Z.ltb_spec (q + i) (q + sz)); cbn [andb]; try lia.
    replace (ptr + (q + i - q)) with (ptr + i) by lia. apply Hkeep. lia.
  - rewrite Hst. unfold s2'. proj_red. exact (pl_status _ _ _ _ P).
  - rewrite Hem. unfold s2'. proj_red. rewrite (pl_end _ _ _ _ P). lia.
Qed.

Lemma realloc_preserves_prefix_witness :
  4512 <> 4160 /\
  forall i, 0 <= i < 100 ->
    mem (after (m61_realloc 10 4160 200 "test.cc" 9) sample_heap) (4512 + i)
    = mem sample_heap (4160 + i).
Proof.
  assert (Hsz : 0 <= 200 <= SIZE_MAX) by (unfold SIZE_MAX; lia).
  assert (E : m61_realloc 10 4160 200 "test.cc" 9 sample_heap
              = Ret 4512 (after (m61_realloc 10 4160 200 "test.cc" 9) sample_heap)).
  { apply (returned_eq (m61_realloc 10 4160 200 "test.cc" 9) sample_heap 4512).
    vm_compute. reflexivity. }
  assert (Hr : 4512 <> NULL) by (unfold NULL; lia).
  destruct (realloc_preserves_prefix 4096 sample_heap sample_trace 10 4160 100 200
              "test.cc" 9 4512 _ (proj1 sample_arena) (proj2 sample_arena)
              sample_traced eq_refl Hsz E Hr) as (Hne & Hpre & _).
  split; [exact Hne|]. intros i Hi. apply Hpre. lia.
Defined.

(** ** The leak report *)

Lemma NoDup_map_on {A B : Type} (f : A -> B) (l : list A) :
  (forall x y, In x l -> In y l -> f x = f y -> x = y) -> NoDup l -> NoDup (map f l).
Proof.
  intros Hinj Hnd. induction Hnd as [|a l Ha Hnd IH]; cbn [map]; constructor.
  - intros Hc. apply in_map_iff in Hc. destruct Hc as (y & Hy & Hin).
    apply Ha. rewrite (Hinj a y); [exact Hin|left; reflexivity|right; exact Hin|symmetry; exact Hy].
  - apply IH. intros x y Hx Hy. apply Hinj; right; assumption.
Qed.

Lemma nodes_below s N cur x :
  heap_geometry s N -> N cur -> N x -> x < cur ->
  p_next (hdrs s cur) <> NULL /\ x <= p_next (hdrs s cur).
Proof.
  intros G Hc Hx Hlt.
  destruct (Z.eq_dec (p_next (hdrs s cur)) NULL) as [E|E].
  - pose proof (hg_bottom _ _ G cur Hc E). destruct (hg_node _ _ G x Hx). lia.
  - split; [exact E|]. destruct (node_below _ _ _ G Hc E) as (Hn & _ & Hadj).
    destruct (Z_le_gt_dec x (p_next (hdrs s cur))) as [?|Hgt]; [assumption|].
    pose proof (hg_disjoint _ _ G _ _ Hn Hx ltac:(lia)).
    pose proof (hg_disjoint _ _ G _ _ Hx Hc Hlt).
    destruct (hg_node _ _ G x Hx) as (_ & ? & _). lia.
Qed.

Lemma nodes_below_head s N x : heap_geometry s N -> N x -> x <= head s.
Proof.
  intros G Hx. destruct (head_node _ _ _ G Hx) as (_ & Hh & Hp).
  destruct (node_top _ _ _ G Hh Hp) as (_ & Htop).
  destruct (Z_le_gt_dec x (head s)) as [?|Hgt]; [assumption|].
  pose proof (hg_disjoint _ _ G _ _ Hh Hx ltac:(lia)).
  destruct (hg_node _ _ G x Hx) as (_ & ? & ? & _). lia.
Qed.

Lemma leak_report_loop_spec s N :
  heap_geometry s N ->
  forall fuel cur, cur = NULL \/ N cur -> (Z.to_nat cur < fuel)%nat ->
    exists xs,
      m61_print_leak_report_loop fuel cur s = Ret (map (leak_line_of s) xs) s /\
      (forall x, In x xs <-> N x /\ x <= cur /\ p_status (hdrs s x) = ALLOCATED) /\
      NoDup xs.
Proof.
  intros G. induction fuel as [|fuel IH]; intros cur Hcur Hfuel; [lia|].
  cbn [m61_print_leak_report_loop].
  destruct (Z.eqb_spec cur NULL) as [->|Hne].
  { exists []. split; [reflexivity|]. split; [|constructor].
    intros x. split; [intros []|]. intros (Hx & Hle & _).
    pose proof (node_pos _ _ _ G Hx). unfold NULL in Hle. lia. }
  destruct Hcur as [?|Hc]; [contradiction|].
  pose proof (node_pos _ _ _ G Hc) as Hpos.
  assert (Hnext : p_next (hdrs s cur) = NULL \/ N (p_next (hdrs s cur))).
  { destruct (hg_down _ _ G cur Hc) as [?|[? _]]; [left|right]; assumption. }
  assert (Hlt : p_next (hdrs s cur) < cur).
  { destruct (Z.eq_dec (p_next (hdrs s cur)) NULL) as [E|E]; [rewrite E; exact Hpos|].
    destruct (node_below _ _ _ G Hc E) as (Hn & _ & Hadj).
    destruct (hg_node _ _ G _ Hn) as (_ & ? & _). lia. }
  assert (Hn0 : 0 <= p_next (hdrs s cur)).
  { destruct Hnext as [E|Hn]; [rewrite E; unfold NULL; lia|].
    pose proof (node_pos _ _ _ G Hn). lia. }
  destruct (IH (p_next (hdrs s cur)) Hnext ltac:(lia)) as (xs & E & Hin & Hnd).
  assert (Hrest : forall x, N x -> x <= cur -> x <> cur -> In x xs \/ p_status (hdrs s x) <> ALLOCATED).
  { intros x Hx Hle Hxc.
    destruct (nodes_below s N cur x G Hc Hx ltac:(lia)) as (_ & Hxn).
    destruct (Z.eq_dec (p_status (hdrs s x)) ALLOCATED) as [Ha|Ha]; [left|right; exact Ha].
    apply Hin. repeat split; assumption. }
  unfold bind at 1, load at 1.
  destruct (Z.eqb_spec (p_status (hdrs s cur)) ALLOCATED) as [Ha|Ha].
  - exists (cur :: xs). split; [|split].
    + unfold bind at 1, get_payload_size, bind at 1, load, ret.
      unfold bind. rewrite E. reflexivity.
    + intros x. cbn [In]. rewrite Hin. split.
      * intros [<-|(Hx & Hle & Hst)]; repeat split; try assumption; lia.
      * intros (Hx & Hle & Hst). destruct (Z.eq_dec cur x) as [?|Hxc]; [left; assumption|].
        right. destruct (nodes_below s N cur x G Hc Hx ltac:(lia)) as (_ & Hxn).
        repeat split; assumption.
    + constructor; [|exact Hnd]. intros Hc'. apply Hin in Hc'. lia.
  - exists xs. split; [exact E|]. split; [|exact Hnd].
    intros x. rewrite Hin. split.
    + intros (Hx & Hle & Hst). repeat split; try assumption; lia.
    + intros (Hx & Hle & Hst). destruct (Z.eq_dec cur x) as [<-|Hxc]; [contradiction|].
      destruct (nodes_below s N cur x G Hc Hx ltac:(lia)) as (_ & Hxn).
      repeat split; assumption.
Qed.

(** X15: the leak report is exact.  In every heap a client can build,
    [m61_print_leak_report] returns (fuel beyond the address of the newest
    block is enough), leaves the state as it was, and prints one line per
    live allocation: a pointer with a size is on a line exactly when that
    pointer is a live allocation of that size, and no pointer is printed
    twice. *)
Theorem leak_report_exact (buf : Z) (s : state) (tr : list event) (fuel : nat) :
  0 < buf -> buf + Z.shiftl 8 20 <= SIZE_MAX -> traced buf s tr ->
  (Z.to_nat (head s) < fuel)%nat ->
  exists lines,
    m61_print_leak_report fuel s = Ret lines s /\
    (forall p sz, allocated_size tr p = Some sz <->
                  exists l, In l lines /\ lk_payload l = p /\ lk_size l = sz) /\
    NoDup (map lk_payload lines).
Proof.
  intros Hb Hs Ht Hfuel.
  pose proof (traced_well_formed buf s tr Hb Hs Ht) as W.
  destruct (wf_heap _ _ W) as (N & G & T & L).
  assert (Hhead : head s = NULL \/ N (head s)).
  { destruct (hg_head _ _ G) as [?|[? _]]; [left|right]; assumption. }
  destruct (leak_report_loop_spec s N G fuel (head s) Hhead Hfuel) as (xs & E & Hin & Hnd).
  assert (Hline : forall x, In x xs ->
            exists sz, allocated_size tr (x + sizeof_header) = Some sz /\
                       lk_payload (leak_line_of s x) = x + sizeof_header /\
                       lk_size (leak_line_of s x) = sz).
  { intros x Hx. apply Hin in Hx. destruct Hx as (_ & _ & Ha).
    destruct (L x Ha) as (_ & Hpl & sz & Hsz & Hem & Hr).
    exists sz. split; [exact Hsz|]. unfold leak_line_of, payload_size_of. cbn.
    split; [exact Hpl|]. rewrite Hem, Hpl.
    replace (x + sizeof_header + sz - (x + sizeof_header)) with sz by lia.
    apply wrap_small. unfold SIZE_MAX in Hr. lia. }
  exists (map (leak_line_of s) xs). split; [|split].
  - unfold m61_print_leak_report, bind, get_head. exact E.
  - intros p sz. split.
    + intros Hp. pose proof (wf_back _ _ W p sz Hp) as Ha.
      destruct (L _ Ha) as (Hx & _).
      assert (Hxs : In (p - sizeof_header) xs).
      { apply Hin. split; [exact Hx|]. split; [apply (nodes_below_head s N _ G Hx)|exact Ha]. }
      exists (leak_line_of s (p - sizeof_header)). split; [apply in_map; exact Hxs|].
      destruct (Hline _ Hxs) as (sz' & Hsz' & Hpl & Hsize).
      replace (p - sizeof_header + sizeof_header) with p in * by lia.
      split; [exact Hpl|]. congruence.
    + intros (l & Hl & Hpl & Hsize). apply in_map_iff in Hl.
      destruct Hl as (x & <- & Hx). destruct (Hline _ Hx) as (sz' & Hsz' & Hpl' & Hsize').
      congruence.
  - rewrite map_map. apply NoDup_map_on; [|exact Hnd].
    intros x y Hx Hy Hxy.
    destruct (Hline _ Hx) as (_ & _ & Hpx & _). destruct (Hline _ Hy) as (_ & _ & Hpy & _).
    rewrite Hpx, Hpy in Hxy. lia.
Qed.

Lemma leak_report_exact_witness :
  exists lines,
    m61_print_leak_report 5000 sample_heap = Ret lines sample_heap /\
    (forall p sz, allocated_size sample_trace p = Some sz <->
                  exists l, In l lines /\ lk_payload l = p /\ lk_size l = sz) /\
    NoDup (map lk_payload lines).
Proof.
  apply (leak_report_exact 4096 sample_heap sample_trace 5000
           (proj1 sample_arena) (proj2 sample_arena) sample_traced).
  apply Nat.ltb_lt. vm_compute. reflexivity.
Defined.

(** ** An idle heap *)



